(** * The chat route of the promotional-products assistant

    A shallow embedding of [src/app/api/chat/route.ts] (matchers, hybrid
    retrieval, conversation handler) and of the stub handler found in the
    repository's older route file, followed by the properties proved of them.

    Conventions of the embedding.
    - A JavaScript string is a sequence of UTF-16 code units; the model keeps
      the code units below 256, one [ascii] each, so that [String.length] is
      [.length].  The fixed reply texts are output only and stand as written
      in the source.
    - A JavaScript number is [NaN], an infinity or a rational. The numbers
      the program computes are binary64 values: [parseFloat] rounds the
      decimal it reads to the nearest one, ties to even, as V8 does. The
      sign of zero is not kept; nothing here observes it.
    - [undefined] and [null] are [None]. A [Request] is a body whose
      conversation id and message are strings or missing; [Wire] has the
      bodies of every other kind.
    - Requests are served one after the other; [console.log] is left out.
    - The file system, the completion endpoint and the random id generator
      are oracles of an environment; every call of the first two is logged
      in a trace, so that "no call was made" is a statement on the trace. *)

From Stdlib Require Import String Ascii List ZArith QArith Bool Lia DecimalString.
From stdpp Require Import gmap strings list fin_maps.
Import ListNotations.

Local Open Scope string_scope.
Local Open Scope nat_scope.
Local Open Scope list_scope.

(** ** Strings *)

Module Js.

Definition LF : ascii := ascii_of_nat 10.
Definition QUOTE : ascii := ascii_of_nat 34.
Definition COMMA : ascii := ","%char.

(** [String.prototype.toLowerCase] on code units below 256: A-Z and the
    Latin-1 capitals (all of 0xC0-0xDE but the multiplication sign). *)
Definition lower_char (c : ascii) : ascii :=
  let n := nat_of_ascii c in
  if ((65 <=? n) && (n <=? 90)) || ((192 <=? n) && (n <=? 222) && negb (n =? 215))
  then ascii_of_nat (n + 32) else c.

Fixpoint toLowerCase (s : string) : string :=
  match s with
  | EmptyString => EmptyString
  | String c r => String (lower_char c) (toLowerCase r)
  end.

(** [s.startsWith(p)] and [s.includes(p)]. *)
Fixpoint startsWith (s p : string) : bool :=
  match p, s with
  | EmptyString, _ => true
  | String _ _, EmptyString => false
  | String a p', String b s' => Ascii.eqb a b && startsWith s' p'
  end.

Fixpoint includes (s p : string) : bool :=
  startsWith s p ||
  match s with
  | EmptyString => false
  | String _ r => includes r p
  end.

(** White space and line terminators below 256 ([\s], [trim]). *)
Definition is_space (c : ascii) : bool :=
  let n := nat_of_ascii c in
  ((9 <=? n) && (n <=? 13)) || (n =? 32) || (n =? 160).

Definition is_digit (c : ascii) : bool :=
  let n := nat_of_ascii c in (48 <=? n) && (n <=? 57).

Fixpoint trimStart (s : string) : string :=
  match s with
  | String c r => if is_space c then trimStart r else s
  | EmptyString => EmptyString
  end.

Fixpoint trimEnd (s : string) : string :=
  match s with
  | EmptyString => EmptyString
  | String c r =>
      match trimEnd r with
      | EmptyString => if is_space c then EmptyString else String c EmptyString
      | r' => String c r'
      end
  end.

Definition trim (s : string) : string := trimEnd (trimStart s).

(** A string is truthy when it is not empty. *)
Definition truthy (s : string) : bool :=
  match s with EmptyString => false | _ => true end.

(** [o || ''] and the truth value of a possibly undefined string. *)
Definition or_empty (o : option string) : string := default "" o.
Definition truthy_opt (o : option string) : bool := truthy (or_empty o).

(** [s.split(sep)] for a one-character separator: never an empty array. *)
Fixpoint split (sep : ascii) (s : string) : list string :=
  match s with
  | EmptyString => [EmptyString]
  | String c r =>
      if Ascii.eqb c sep then EmptyString :: split sep r
      else match split sep r with
           | [] => [String c EmptyString]
           | x :: xs => String c x :: xs
           end
  end.

(** [s.replace(/[...]/g, '')]: the characters of the class are removed. *)
Fixpoint remove (cls : ascii -> bool) (s : string) : string :=
  match s with
  | EmptyString => EmptyString
  | String c r => if cls c then remove cls r else String c (remove cls r)
  end.

(** The longest prefix of digits, and what follows it. *)
Fixpoint span_digits (s : string) : string * string :=
  match s with
  | String c r =>
      if is_digit c then let (d, t) := span_digits r in (String c d, t)
      else (EmptyString, s)
  | EmptyString => (EmptyString, EmptyString)
  end.

(** [s.match(/(\d+)/)]: element 0 of the match, the first run of digits. *)
Fixpoint match_digits (s : string) : option string :=
  match s with
  | EmptyString => None
  | String c r =>
      if is_digit c then Some (fst (span_digits s)) else match_digits r
  end.

(** Template literals print [undefined] for a missing value. *)
Definition show (o : option string) : string := default "undefined" o.

Definition show_nat (n : nat) : string := NilZero.string_of_uint (Nat.to_uint n).

End Js.

(** ** Numbers *)

Module Num.

Inductive number : Type :=
| NaN
| NegInfinity
| Fin (q : Q)
| Infinity.

(** [a > b] and [a <= b]; every comparison with [NaN] is false. *)
Definition gt (a b : number) : bool :=
  match a, b with
  | NaN, _ | _, NaN => false
  | Infinity, Infinity => false
  | Infinity, _ => true
  | _, Infinity => false
  | NegInfinity, _ => false
  | Fin _, NegInfinity => true
  | Fin x, Fin y => negb (Qle_bool x y)
  end.

Definition le (a b : number) : bool :=
  match a, b with
  | NaN, _ | _, NaN => false
  | _, Infinity => true
  | Infinity, _ => false
  | NegInfinity, _ => true
  | Fin _, NegInfinity => false
  | Fin x, Fin y => Qle_bool x y
  end.

Definition zero : number := Fin 0.
Definition of_nat (n : nat) : number := Fin (inject_Z (Z.of_nat n)).

(** Truthiness of a number: false for [NaN] and for zero. *)
Definition truthy (a : number) : bool :=
  match a with
  | NaN => false
  | Fin q => negb (Qeq_bool q 0)
  | _ => true
  end.

(** Truthiness of an optional argument such as [maxPrice?: number]. *)
Definition truthy_opt (o : option number) : bool :=
  match o with Some a => truthy a | None => false end.

Definition digit_val (c : ascii) : Z := Z.of_nat (nat_of_ascii c) - 48.

(** Value of a string of decimal digits, most significant first. *)
Fixpoint digits_val (acc : Z) (s : string) : Z :=
  match s with
  | EmptyString => acc
  | String c r => digits_val (10 * acc + digit_val c) r
  end.

Definition neg (a : number) : number :=
  match a with
  | NaN => NaN
  | NegInfinity => Infinity
  | Infinity => NegInfinity
  | Fin q => Fin (Qopp q)
  end.

(** [m * 10^e] as a rational. *)
Definition scale10 (m e : Z) : Q :=
  match e with
  | Zneg p => Qmake m (Pos.pow 10 p)
  | _ => inject_Z (m * 10 ^ e)
  end.

(** The optional sign in front of a numeric literal. *)
Definition take_sign (s : string) : bool * string :=
  match s with
  | String "-" r => (true, r)
  | String "+" r => (false, r)
  | _ => (false, s)
  end.

(** The exponent part [e[+-]ddd] of a decimal literal, 0 when there is none. *)
Definition exponent (s : string) : Z :=
  match s with
  | String c r =>
      if Ascii.eqb c "e" || Ascii.eqb c "E" then
        let (sg, r') := take_sign r in
        match fst (Js.span_digits r') with
        | EmptyString => 0%Z
        | ds => if sg then (- digits_val 0 ds)%Z else digits_val 0 ds
        end
      else 0%Z
  | EmptyString => 0%Z
  end.

(** The binary64 value nearest to the positive rational [n/d], ties to
    even. With [2^l <= n/d < 2^(l+1)], the value is [m * 2^e] for
    [e = max (l - 52) (-1074)] and [m] the integer nearest to [n/d / 2^e];
    from [2^1024] on it is [Infinity]. *)
Definition round_pos (n d : positive) : number :=
  let a := Z.log2 (Zpos n) in
  let b := Z.log2 (Zpos d) in
  let l := if (Zpos d * 2 ^ Z.max 0 (a - b) <=? Zpos n * 2 ^ Z.max 0 (b - a))%Z
           then (a - b)%Z else (a - b - 1)%Z in
  let e := Z.max (l - 52) (-1074) in
  let N := (Zpos n * 2 ^ Z.max 0 (- e))%Z in
  let D := (Zpos d * 2 ^ Z.max 0 e)%Z in
  let m := (N / D)%Z in
  let r := (N mod D)%Z in
  let m' := if (2 * r <? D)%Z then m
            else if (D <? 2 * r)%Z then (m + 1)%Z
            else if Z.even m then m else (m + 1)%Z in
  if (2 ^ 1024 * 2 ^ Z.max 0 (- e) <=? m' * 2 ^ Z.max 0 e)%Z then Infinity
  else Fin (Qred (Qmake (m' * 2 ^ Z.max 0 e) (Z.to_pos (2 ^ Z.max 0 (- e))))).

(** The Number value of a rational. *)
Definition round (q : Q) : number :=
  match Qnum q with
  | Z0 => Fin 0
  | Zpos n => round_pos n (Qden q)
  | Zneg n => neg (round_pos n (Qden q))
  end.

(** [parseFloat]: leading white space is skipped and the longest prefix that
    is a decimal literal is read and rounded; [NaN] when there is none. *)
Definition parseFloat (s : string) : number :=
  let (sg, r) := take_sign (Js.trimStart s) in
  let v :=
    if Js.startsWith r "Infinity" then Infinity
    else
      let (ip, r1) := Js.span_digits r in
      let (fp, r2) :=
        match r1 with
        | String "." r1' => Js.span_digits r1'
        | _ => (EmptyString, r1)
        end in
      match ip, fp with
      | EmptyString, EmptyString => NaN
      | _, _ =>
          round (scale10 (digits_val 0 (ip +:+ fp))
                         (exponent r2 - Z.of_nat (String.length fp)))
      end in
  if sg then neg v else v.

Definition is_hex (c : ascii) : bool :=
  let n := nat_of_ascii c in
  Js.is_digit c || ((65 <=? n) && (n <=? 70)) || ((97 <=? n) && (n <=? 102)).

Definition hex_val (c : ascii) : Z :=
  let n := Z.of_nat (nat_of_ascii c) in
  if Js.is_digit c then (n - 48)%Z
  else if (n <=? 70)%Z then (n - 55)%Z else (n - 87)%Z.

Fixpoint hex_digits (acc : option Z) (s : string) : option Z :=
  match s with
  | String c r =>
      if is_hex c then hex_digits (Some (16 * default 0%Z acc + hex_val c)%Z) r
      else acc
  | EmptyString => acc
  end.

(** [parseInt] without a radix: an integer, or [None] for [NaN]. A [0x]
    prefix selects base 16. *)
Definition parseInt (s : string) : option Z :=
  let (sg, r) := take_sign (Js.trimStart s) in
  let v :=
    if Js.startsWith r "0x" || Js.startsWith r "0X" then
      match r with
      | String _ (String _ h) => hex_digits None h
      | _ => None
      end
    else
      match fst (Js.span_digits r) with
      | EmptyString => None
      | ds => Some (digits_val 0 ds)
      end in
  if sg then Z.opp <$> v else v.

End Num.

(** ** Rows of the tables *)

Module Csv.

(** The loop on the characters of one line: [inQuotes] is flipped by every
    quote character, a comma closes the current value only outside quotes,
    every other character is added to the current value. *)
Fixpoint scan (inQuotes : bool) (current : string) (values : list string)
    (line : string) : list string :=
  match line with
  | EmptyString => values ++ [Js.trim current]
  | String char rest =>
      if Ascii.eqb char Js.QUOTE then scan (negb inQuotes) current values rest
      else if Ascii.eqb char Js.COMMA && negb inQuotes
      then scan inQuotes EmptyString (values ++ [Js.trim current]) rest
      else scan inQuotes (current +:+ String char EmptyString) values rest
  end.

Definition parse_line (line : string) : list string := scan false "" [] line.

(** [lines[0].split(',').map(h => h.trim())] *)
Definition headers_of (lines : list string) : list string :=
  Js.trim <$> Js.split Js.COMMA (hd "" lines).

(** [headers.forEach((header, index) => { row[header] = values[index] || '' })] *)
Fixpoint fill (row : gmap string string) (index : nat) (headers values : list string)
    : gmap string string :=
  match headers with
  | [] => row
  | header :: hs => fill (<[header := Js.or_empty (values !! index)]> row) (S index) hs values
  end.

Definition row_of (headers : list string) (line : string) : gmap string string :=
  fill ∅ 0 headers (parse_line line).

(** [if (!line.trim()) continue] *)
Definition blank (line : string) : bool := negb (Js.truthy (Js.trim line)).

(** Lines 1 .. [Math.min(lines.length, bound) - 1] of the table. *)
Definition data_lines (bound : nat) (lines : list string) : list string :=
  take (bound - 1) (drop 1 lines).

End Csv.

(** ** Records handed to the caller *)

Module Product.
Record t : Type := mk {
  sku : option string;
  nombre : option string;
  precio : option string;
  descripcion : option string;
  categorias : option string;
  imagenes_url : option string }.
End Product.

Module Kit.
Record t : Type := mk {
  nombre : option string;
  precio : option string;
  descripcion : option string;
  productos : option string;
  imagen : option string }.
End Kit.

Definition project_product (product : gmap string string) : Product.t :=
  {| Product.sku := product !! "sku";
     Product.nombre := product !! "nombre";
     Product.precio := product !! "precio";
     Product.descripcion := product !! "descripcion";
     Product.categorias := product !! "categorias";
     Product.imagenes_url := product !! "imagenes_url" |}.

Definition project_kit (kit : gmap string string) : Kit.t :=
  {| Kit.nombre := kit !! "nombre";
     Kit.precio := kit !! "precio";
     Kit.descripcion := kit !! "descripcion";
     Kit.productos := kit !! "productos";
     Kit.imagen := kit !! "imagen" |}.

(** The two tables are searched by the same code up to these constants: the
    file, the number of lines looked at by each tier, the third field the
    keyword is looked for in, and the object literal that is pushed. *)
Record Catalog (A : Type) : Type := {
  cat_path : string;
  cat_precise_bound : nat;
  cat_vector_bound : nat;
  cat_third : string;
  cat_project : gmap string string -> A }.
Arguments cat_path {A}.
Arguments cat_precise_bound {A}.
Arguments cat_vector_bound {A}.
Arguments cat_third {A}.
Arguments cat_project {A}.

Definition promo : Catalog Product.t :=
  {| cat_path := "airtable/promo.csv";
     cat_precise_bound := 200;
     cat_vector_bound := 50;
     cat_third := "categorias";
     cat_project := project_product |}.

Definition suitup : Catalog Kit.t :=
  {| cat_path := "airtable/suitup.csv";
     cat_precise_bound := 100;
     cat_vector_bound := 30;
     cat_third := "productos";
     cat_project := project_kit |}.

(** ** The two predicates of the precise tier *)

(** [field?.toLowerCase().includes(keyword.toLowerCase())] *)
Definition field_includes (field : option string) (keyword : string) : bool :=
  match field with
  | Some v => Js.includes (Js.toLowerCase v) (Js.toLowerCase keyword)
  | None => false
  end.

Definition matchesKeyword (third : string) (row : gmap string string) (keyword : string) : bool :=
  negb (Js.truthy keyword)
  || field_includes (row !! "nombre") keyword
  || field_includes (row !! "descripcion") keyword
  || field_includes (row !! third) keyword.

(** The class [[$,\s]] *)
Definition price_noise (c : ascii) : bool :=
  Ascii.eqb c "$" || Ascii.eqb c "," || Js.is_space c.

(** [parseFloat((row.precio || '').replace(/[$,\s]/g, ''))] *)
Definition price_of (row : gmap string string) : Num.number :=
  Num.parseFloat (Js.remove price_noise (Js.or_empty (row !! "precio"))).

(** [!maxPrice || (price > 0 && price <= maxPrice)] *)
Definition withinBudget (row : gmap string string) (maxPrice : option Num.number) : bool :=
  match maxPrice with
  | None => true
  | Some m =>
      negb (Num.truthy m) || (Num.gt (price_of row) Num.zero && Num.le (price_of row) m)
  end.

(** [matchesKeyword && withinBudget && row.nombre] *)
Definition keeps (third : string) (keyword : string) (maxPrice : option Num.number)
    (row : gmap string string) : bool :=
  matchesKeyword third row keyword && withinBudget row maxPrice
  && Js.truthy_opt (row !! "nombre").

(** The body of the [for] loop of the precise tier, from line [i] on. *)
Fixpoint precise_loop {A} (cat : Catalog A) (headers : list string) (keyword : string)
    (maxPrice : option Num.number) (limit : nat) (products : list A)
    (lines : list string) : list A :=
  match lines with
  | [] => products
  | line :: rest =>
      if Csv.blank line then precise_loop cat headers keyword maxPrice limit products rest
      else
        let product := Csv.row_of headers line in
        let products' :=
          if keeps (cat_third cat) keyword maxPrice product
          then products ++ [cat_project cat product] else products in
        if limit <=? List.length products' then products'
        else precise_loop cat headers keyword maxPrice limit products' rest
  end.

(** ** The semantic tier, up to the completion call *)

(** The numbered entries: [{text, product}] for every row with a name. *)
Fixpoint candidates (third : string) (headers : list string) (lines : list string)
    : list (string * gmap string string) :=
  match lines with
  | [] => []
  | line :: rest =>
      if Csv.blank line then candidates third headers rest
      else
        let product := Csv.row_of headers line in
        if Js.truthy_opt (product !! "nombre")
        then (Js.show (product !! "nombre") +:+ " - " +:+ Js.show (product !! "descripcion")
                +:+ " - " +:+ Js.show (product !! third), product)
             :: candidates third headers rest
        else candidates third headers rest
  end.

(** [content?.split(',').map(n => parseInt(n.trim())).filter(n => !isNaN(n)) || []] *)
Definition parse_matches (content : option string) : list Z :=
  match content with
  | Some c => omap (fun n => Num.parseInt (Js.trim n)) (Js.split Js.COMMA c)
  | None => []
  end.

(** [array[index]] for an integer-valued number. *)
Definition at_index {B} (l : list B) (index : Z) : option B :=
  if (0 <=? index)%Z then l !! Z.to_nat index else None.

(** [if (maxPrice) { ... if (price > 0 && price > maxPrice) return null }] *)
Definition over_budget (row : gmap string string) (maxPrice : option Num.number) : bool :=
  match maxPrice with
  | None => false
  | Some m => Num.truthy m && (Num.gt (price_of row) Num.zero && Num.gt (price_of row) m)
  end.

(** The callback of [matches.map]: [None] stands for [null]. *)
Definition pick {A} (cat : Catalog A) (descs : list (string * gmap string string))
    (maxPrice : option Num.number) (index : Z) : option A :=
  match at_index descs index with
  | None => None
  | Some (_, product) =>
      if over_budget product maxPrice then None else Some (cat_project cat product)
  end.

(** [matches.map(...).filter(Boolean)] *)
Definition vector_results {A} (cat : Catalog A) (descs : list (string * gmap string string))
    (maxPrice : option Num.number) (matches : list Z) : list A :=
  omap (pick cat descs maxPrice) matches.

(** ** Formatting *)

Definition nl : string := String Js.LF EmptyString.

Definition formatProductResults (products : list Product.t) : string :=
  if List.length products =? 0 then
    "No encontré productos que coincidan con tu búsqueda. ¿Podrías describir lo que necesitas de manera diferente?"
  else
    ("Encontré " +:+ Js.show_nat (List.length products)
       +:+ " productos que podrían interesarte:" +:+ nl +:+ nl)
    +:+ String.concat ""
          (imap (fun index product =>
                   (Js.show_nat (index + 1) +:+ ". **" +:+ Js.show (Product.nombre product) +:+ "**" +:+ nl)
                   +:+ ("   • Precio: " +:+ Js.show (Product.precio product) +:+ nl)
                   +:+ ("   • Descripción: " +:+ Js.show (Product.descripcion product) +:+ nl)
                   +:+ (if Js.truthy_opt (Product.categorias product)
                        then "   • Categoría: " +:+ Js.show (Product.categorias product) +:+ nl
                        else "")
                   +:+ nl)
                products)
    +:+ "¿Te interesa alguno de estos productos? ¿O prefieres que busque algo más específico?".

Definition formatKitResults (kits : list Kit.t) : string :=
  if List.length kits =? 0 then
    "No encontré kits que coincidan con tu búsqueda. ¿Podrías describir lo que necesitas de manera diferente?"
  else
    ("Encontré " +:+ Js.show_nat (List.length kits)
       +:+ " kits que podrían interesarte:" +:+ nl +:+ nl)
    +:+ String.concat ""
          (imap (fun index kit =>
                   (Js.show_nat (index + 1) +:+ ". **" +:+ Js.show (Kit.nombre kit) +:+ "**" +:+ nl)
                   +:+ ("   • Precio: " +:+ Js.show (Kit.precio kit) +:+ nl)
                   +:+ ("   • Descripción: " +:+ Js.show (Kit.descripcion kit) +:+ nl)
                   +:+ (if Js.truthy_opt (Kit.productos kit)
                        then "   • Incluye: " +:+ Js.show (Kit.productos kit) +:+ nl
                        else "")
                   +:+ nl)
                kits)
    +:+ "¿Te interesa alguno de estos kits? ¿O prefieres que busque algo más específico?".

(** ** Conversations *)

Record ConversationContext : Type := {
  business_unit : option string;
  customer_name : option string;
  selected_products : list Product.t;
  descripcion : option string;
  precio : option string }.

Record Message : Type := { msg_content : string; msg_agent : string }.

Record Event : Type := {
  ev_id : string; ev_type : string; ev_agent : string; ev_content : string }.

Record ConversationState : Type := {
  conversation_id : string;
  current_agent : string;
  context : ConversationContext;
  messages : list Message;
  events : list Event }.

(** ** The outside world *)

(** What is sent to the completion endpoint. A prompt is kept as its template
    and the values put in its holes; the reply is any function of these. *)
Inductive system_prompt : Type :=
| PromoselectSpecialist (ctx : ConversationContext)
| SuitUpSpecialist (ctx : ConversationContext)
| TriageGuide.

Inductive prompt : Type :=
| Semantic (table : string) (limit : nat) (keyword : string) (entries : list string)
    (ceiling : option Num.number)
| Dialogue (system : system_prompt) (user : string).

Inductive event : Type :=
| Read (path : string)
| Complete (p : prompt).

Inductive error : Type :=
| ENOENT (path : string)
| ApiError
| TypeError (what : string)
| SyntaxError (what : string).

Inductive outcome (A : Type) : Type :=
| Normal (a : A)
| Throw (e : error).
Arguments Normal {A}.
Arguments Throw {A}.

(** The oracles. [readFileSync] is [None] when the read throws. [create] is
    the completion call, given the number of events so far: [None] when the
    call is rejected, otherwise the [message.content] of every choice
    ([None] for [null]). [random] is the stream behind [generateId]. *)
Record Env : Type := {
  readFileSync : string -> option string;
  create : nat -> prompt -> option (list (option string));
  random : nat -> string }.

Record World : Type := {
  conversations : gmap string ConversationState;
  trace : list event;
  draws : nat }.

Definition M (A : Type) : Type := World -> outcome A * World.

Definition ret {A} (a : A) : M A := fun w => (Normal a, w).

Definition bind {A B} (m : M A) (k : A -> M B) : M B :=
  fun w => match m w with
           | (Normal a, w') => k a w'
           | (Throw e, w') => (Throw e, w')
           end.

Definition throw {A} (e : error) : M A := fun w => (Throw e, w).

(** [try { body } catch (error) { handler }] *)
Definition try_catch {A} (body : M A) (handler : error -> M A) : M A :=
  fun w => match body w with
           | (Normal a, w') => (Normal a, w')
           | (Throw e, w') => handler e w'
           end.

Notation "x <- m ;; k" := (bind m (fun x => k))
  (at level 100, m at next level, right associativity).

Definition log (e : event) (w : World) : World :=
  {| conversations := conversations w; trace := trace w ++ [e]; draws := draws w |}.

Definition readFile (env : Env) (path : string) : M string :=
  fun w => match readFileSync env path with
           | Some data => (Normal data, log (Read path) w)
           | None => (Throw (ENOENT path), log (Read path) w)
           end.

Definition complete (env : Env) (p : prompt) : M (list (option string)) :=
  fun w => match create env (List.length (trace w)) p with
           | Some choices => (Normal choices, log (Complete p) w)
           | None => (Throw ApiError, log (Complete p) w)
           end.

(** One more random id has been drawn. *)
Definition bump (w : World) : World :=
  {| conversations := conversations w; trace := trace w; draws := S (draws w) |}.

Definition generateId (env : Env) : M string :=
  fun w => (Normal (random env (draws w)), bump w).

Definition conversations_get (convId : string) : M (option ConversationState) :=
  fun w => (Normal (conversations w !! convId), w).

Definition put (convId : string) (c : ConversationState) (w : World) : World :=
  {| conversations := <[convId := c]> (conversations w);
     trace := trace w; draws := draws w |}.

Definition conversations_set (convId : string) (c : ConversationState) : M unit :=
  fun w => (Normal tt, put convId c w).

(** ** The matchers *)

(** First tier. *)
Definition precise_search {A} (cat : Catalog A) (env : Env) (keyword : string)
    (maxPrice : option Num.number) (limit : nat) : M (list A) :=
  try_catch
    (csvData <- readFile env (cat_path cat) ;;
     let lines := Js.split Js.LF csvData in
     let headers := Csv.headers_of lines in
     ret (precise_loop cat headers keyword maxPrice limit []
            (Csv.data_lines (cat_precise_bound cat) lines)))
    (fun _ => ret []).

Definition searchPromoProductsPrecise := precise_search promo.
Definition searchSuitUpKitsPrecise := precise_search suitup.

(** Second tier. *)
Definition vector_search {A} (cat : Catalog A) (env : Env) (keyword : string)
    (maxPrice : option Num.number) (limit : nat) : M (list A) :=
  try_catch
    (csvData <- readFile env (cat_path cat) ;;
     let lines := Js.split Js.LF csvData in
     let headers := Csv.headers_of lines in
     let descs := candidates (cat_third cat) headers
                    (Csv.data_lines (cat_vector_bound cat) lines) in
     response <- complete env
       (Semantic (cat_path cat) limit keyword (fst <$> descs)
          (if Num.truthy_opt maxPrice then maxPrice else None)) ;;
     match response with
     | [] => throw (TypeError "response.choices[0] is undefined")
     | content :: _ => ret (vector_results cat descs maxPrice (parse_matches content))
     end)
    (fun _ => ret []).

Definition searchPromoProductsVector := vector_search promo.
Definition searchSuitUpKitsVector := vector_search suitup.

(** ** The documents prepared for the vector stores *)

Record Doc : Type := { text : string; metadata : list (string * string) }.

Inductive productType : Type := Promo | SuitUp.

Definition make_doc (type : productType) (row : gmap string string) : Doc :=
  match type with
  | Promo =>
      {| text := "Producto: " +:+ Js.show (row !! "nombre") +:+ " - "
                 +:+ Js.show (row !! "descripcion") +:+ " - Categoría: "
                 +:+ Js.show (row !! "categorias") +:+ " - Precio: "
                 +:+ Js.show (row !! "precio") +:+ " - SKU: " +:+ Js.show (row !! "sku");
         metadata := [ ("sku", Js.or_empty (row !! "sku"));
                       ("nombre", Js.or_empty (row !! "nombre"));
                       ("descripcion", Js.or_empty (row !! "descripcion"));
                       ("categorias", Js.or_empty (row !! "categorias"));
                       ("precio", Js.or_empty (row !! "precio"));
                       ("imagenes_url", Js.or_empty (row !! "imagenes_url"));
                       ("type", "promotional_product") ] |}
  | SuitUp =>
      {| text := "Kit: " +:+ Js.show (row !! "nombre") +:+ " - "
                 +:+ Js.show (row !! "descripcion") +:+ " - Productos incluidos: "
                 +:+ Js.show (row !! "productos") +:+ " - Precio: "
                 +:+ Js.show (row !! "precio");
         metadata := [ ("nombre", Js.or_empty (row !! "nombre"));
                       ("descripcion", Js.or_empty (row !! "descripcion"));
                       ("productos", Js.or_empty (row !! "productos"));
                       ("precio", Js.or_empty (row !! "precio"));
                       ("imagen", Js.or_empty (row !! "imagen"));
                       ("type", "promotional_kit") ] |}
  end.

(** The [for] loop of [csvToJsonl]. *)
Fixpoint jsonl_loop (type : productType) (headers : list string) (lines : list string)
    : list Doc :=
  match lines with
  | [] => []
  | line :: rest =>
      if Csv.blank line then jsonl_loop type headers rest
      else
        let row := Csv.row_of headers line in
        if negb (Js.truthy_opt (row !! "nombre")) then jsonl_loop type headers rest
        else make_doc type row :: jsonl_loop type headers rest
  end.

Definition csvToJsonl (env : Env) (csvPath : string) (type : productType) : M (list Doc) :=
  csvData <- readFile env csvPath ;;
  let lines := Js.split Js.LF csvData in
  let headers := Csv.headers_of lines in
  ret (jsonl_loop type headers (drop 1 lines)).

(** ** Hybrid retrieval *)

Definition NO_PRODUCTS : string :=
  "No se encontraron productos que coincidan con los criterios de búsqueda.".
Definition NO_KITS : string :=
  "No se encontraron kits que coincidan con los criterios de búsqueda.".

Definition searchAndFormatProducts (env : Env) (keyword : string)
    (maxPrice : option Num.number) (limit : nat) : M string :=
  preciseResults <- searchPromoProductsPrecise env keyword maxPrice limit ;;
  if 0 <? List.length preciseResults then ret (formatProductResults preciseResults)
  else
    vectorResults <- searchPromoProductsVector env keyword maxPrice limit ;;
    if 0 <? List.length vectorResults then ret (formatProductResults vectorResults)
    else ret NO_PRODUCTS.

Definition searchAndFormatKits (env : Env) (keyword : string)
    (maxPrice : option Num.number) (limit : nat) : M string :=
  preciseResults <- searchSuitUpKitsPrecise env keyword maxPrice limit ;;
  if 0 <? List.length preciseResults then ret (formatKitResults preciseResults)
  else
    vectorResults <- searchSuitUpKitsVector env keyword maxPrice limit ;;
    if 0 <? List.length vectorResults then ret (formatKitResults vectorResults)
    else ret NO_KITS.

(** ** The chat endpoint *)

Record Request : Type := {
  req_message : option string;
  req_conversation_id : option string }.

Record AgentDescriptor : Type := {
  name : string;
  description : string;
  handoffs : list string;
  tools : list string;
  input_guardrails : list string }.

Definition AGENTS : list AgentDescriptor :=
  [ {| name := "Triage Agent";
       description := "A triage agent that can delegate a customer's request to the appropriate business unit agent.";
       handoffs := ["Promoselect Agent"; "SuitUp Agent"];
       tools := ["display_business_selector"];
       input_guardrails := ["Relevance Guardrail"; "Jailbreak Guardrail"] |};
    {| name := "Promoselect Agent";
       description := "A helpful agent that can search for individual promotional products from Promoselect.";
       handoffs := ["Triage Agent"];
       tools := ["save_product_description"; "save_budget"; "search_and_format_products"];
       input_guardrails := ["Relevance Guardrail"; "Jailbreak Guardrail"] |};
    {| name := "SuitUp Agent";
       description := "A helpful agent that can search for promotional product kits from SuitUp.";
       handoffs := ["Triage Agent"];
       tools := ["save_product_description"; "save_budget"; "search_and_format_kits"];
       input_guardrails := ["Relevance Guardrail"; "Jailbreak Guardrail"] |} ].

Record Payload : Type := {
  r_conversation_id : string;
  r_current_agent : string;
  r_messages : list Message;
  r_events : list Event;
  r_context : ConversationContext;
  r_agents : list AgentDescriptor;
  r_guardrails : list string }.

Inductive Response : Type :=
| Json (status : nat) (body : Payload)
| JsonError (status : nat) (error message : string).

Definition error_message (e : error) : string :=
  match e with
  | ENOENT path => "ENOENT: no such file or directory, open '" +:+ path +:+ "'"
  | ApiError => "Connection error."
  | TypeError what => what
  | SyntaxError what => what
  end.

Definition payload (convId : string) (conversation : ConversationState) : Payload :=
  {| r_conversation_id := convId;
     r_current_agent := current_agent conversation;
     r_messages := messages conversation;
     r_events := events conversation;
     r_context := context conversation;
     r_agents := AGENTS;
     r_guardrails := [] |}.

Definition DISPLAY_BUSINESS_SELECTOR : string := "DISPLAY_BUSINESS_SELECTOR".

Definition WELCOME_PROMOSELECT : string :=
  "¡Perfecto! Ahora te ayudo a encontrar productos promocionales individuales. ¿Qué tipo de producto estás buscando? Por ejemplo: camisetas, bolígrafos, tazas, etc.".

Definition WELCOME_SUITUP : string :=
  "¡Excelente! Te ayudo a encontrar kits de productos promocionales. ¿Qué tipo de kit necesitas? Por ejemplo: kit ejecutivo, kit de bienvenida, kit de eventos, etc.".

Definition FALLBACK : string := "Lo siento, no pude procesar tu mensaje.".

(** [!message || message.toLowerCase().includes('hola') || ...includes('hello')] *)
Definition greeting (message : option string) : bool :=
  match message with
  | None => true
  | Some m =>
      negb (Js.truthy m)
      || Js.includes (Js.toLowerCase m) "hola"
      || Js.includes (Js.toLowerCase m) "hello"
  end.

Definition new_conversation (convId evId : string) : ConversationState :=
  {| conversation_id := convId;
     current_agent := "Triage Agent";
     context := {| business_unit := None; customer_name := None;
                   selected_products := []; descripcion := None; precio := None |};
     messages := [];
     events := [ {| ev_id := evId; ev_type := "message";
                    ev_agent := "Triage Agent"; ev_content := "Agent initialized" |} ] |}.

Definition push_message (c : ConversationState) (content agent : string) : ConversationState :=
  {| conversation_id := conversation_id c;
     current_agent := current_agent c;
     context := context c;
     messages := messages c ++ [ {| msg_content := content; msg_agent := agent |} ];
     events := events c |}.

(** The two assignments and the two pushes of a unit-selection branch. *)
Definition switch_to (c : ConversationState) (unit agent welcome evId : string)
    : ConversationState :=
  {| conversation_id := conversation_id c;
     current_agent := agent;
     context := {| business_unit := Some unit;
                   customer_name := customer_name (context c);
                   selected_products := selected_products (context c);
                   descripcion := descripcion (context c);
                   precio := precio (context c) |};
     messages := messages c ++ [ {| msg_content := welcome; msg_agent := agent |} ];
     events := events c ++ [ {| ev_id := evId; ev_type := "handoff"; ev_agent := agent;
                                ev_content := "Switched to " +:+ agent |} ] |}.

Definition systemPrompt (c : ConversationState) : system_prompt :=
  if String.eqb (current_agent c) "Promoselect Agent" then PromoselectSpecialist (context c)
  else if String.eqb (current_agent c) "SuitUp Agent" then SuitUpSpecialist (context c)
  else TriageGuide.

(** [completion.choices[0]?.message?.content || "Lo siento, ..."] *)
Definition reply_content (choices : list (option string)) : string :=
  match choices with
  | Some content :: _ => if Js.truthy content then content else FALLBACK
  | _ => FALLBACK
  end.

(** [parseFloat(precio.replace(/[^\d]/g, ''))] *)
Definition budget_of (precio : string) : Num.number :=
  Num.parseFloat (Js.remove (fun c => negb (Js.is_digit c)) precio).

(** The slot extraction of the [else] branch. *)
Definition extract_slots (ctx : ConversationContext) (message : string) : ConversationContext :=
  let descripcion' :=
    if negb (Js.truthy_opt (descripcion ctx)) && (3 <? String.length message)
    then Some message else descripcion ctx in
  let precio' :=
    match Js.match_digits message with
    | Some digits => if negb (Js.truthy_opt (precio ctx)) then Some digits else precio ctx
    | None => precio ctx
    end in
  {| business_unit := business_unit ctx;
     customer_name := customer_name ctx;
     selected_products := selected_products ctx;
     descripcion := descripcion';
     precio := precio' |}.

Definition with_context (c : ConversationState) (ctx : ConversationContext) : ConversationState :=
  {| conversation_id := conversation_id c;
     current_agent := current_agent c;
     context := ctx;
     messages := messages c;
     events := events c |}.

(** The free-form branch: the completion call, then a search or an extraction. *)
Definition freeform (env : Env) (conversation : ConversationState) (message : string)
    : M ConversationState :=
  completion <- complete env (Dialogue (systemPrompt conversation) message) ;;
  let responseMessage := reply_content completion in
  let ctx := context conversation in
  if Js.truthy_opt (business_unit ctx) && Js.truthy_opt (descripcion ctx)
     && Js.truthy_opt (precio ctx)
  then
    let maxPrice := budget_of (Js.or_empty (precio ctx)) in
    responseMessage' <-
      (if String.eqb (Js.or_empty (business_unit ctx)) "promoselect"
       then searchAndFormatProducts env (Js.or_empty (descripcion ctx)) (Some maxPrice) 3
       else if String.eqb (Js.or_empty (business_unit ctx)) "suitup"
       then searchAndFormatKits env (Js.or_empty (descripcion ctx)) (Some maxPrice) 3
       else ret responseMessage) ;;
    ret (push_message conversation responseMessage' (current_agent conversation))
  else
    ret (push_message (with_context conversation (extract_slots ctx message))
           responseMessage (current_agent conversation)).

(** Everything after the creation of the conversation. Every mutation of the
    conversation object comes after the last call that can throw, so the
    object is rebuilt here and stored by the final [conversations.set]. *)
Definition handle (env : Env) (conversation : ConversationState) (message : option string)
    : M ConversationState :=
  match message with
  | None => throw (TypeError "Cannot read properties of undefined (reading 'toLowerCase')")
  | Some message =>
      if Js.includes (Js.toLowerCase message) "promoselect" then
        evId <- generateId env ;;
        ret (switch_to conversation "promoselect" "Promoselect Agent" WELCOME_PROMOSELECT evId)
      else if Js.includes (Js.toLowerCase message) "suitup" then
        evId <- generateId env ;;
        ret (switch_to conversation "suitup" "SuitUp Agent" WELCOME_SUITUP evId)
      else freeform env conversation message
  end.

Definition respond (convId : string) (conversation : ConversationState) : M Response :=
  _ <- conversations_set convId conversation ;;
  ret (Json 200 (payload convId conversation)).

Definition POST_try (env : Env) (req : Request) : M Response :=
  convId <- (if Js.truthy_opt (req_conversation_id req)
             then ret (Js.or_empty (req_conversation_id req))
             else generateId env) ;;
  stored <- conversations_get convId ;;
  match stored with
  | None =>
      evId <- generateId env ;;
      let conversation := new_conversation convId evId in
      if greeting (req_message req) then
        respond convId (push_message conversation DISPLAY_BUSINESS_SELECTOR "Triage Agent")
      else
        conversation' <- handle env conversation (req_message req) ;;
        respond convId conversation'
  | Some conversation =>
      conversation' <- handle env conversation (req_message req) ;;
      respond convId conversation'
  end.

Definition POST (env : Env) (req : Request) : M Response :=
  try_catch (POST_try env req)
    (fun e => ret (JsonError 500 "Internal server error" (error_message e))).

(** The state after a sequence of requests. *)
Definition after (env : Env) (req : Request) (w : World) : World := snd (POST env req w).

Definition run (env : Env) (reqs : list Request) (w : World) : World :=
  fold_left (fun w req => after env req w) reqs w.

Definition boot : World := {| conversations := ∅; trace := []; draws := 0 |}.

(** ** The stub handler of the older route file *)

Module Stub.

Definition WELCOME : string :=
  "¡Hola! Bienvenido a nuestro asistente de productos promocionales. Para comenzar, por favor selecciona tu unidad de negocio:".

Definition POST_try (env : Env) (req : Request) : M Response :=
  convId <- (if Js.truthy_opt (req_conversation_id req)
             then ret (Js.or_empty (req_conversation_id req))
             else generateId env) ;;
  evId <- generateId env ;;
  let response := new_conversation convId evId in
  shown <-
    (if negb (Js.truthy_opt (req_conversation_id req)) then ret true
     else match req_message req with
          | None => throw (TypeError "Cannot read properties of undefined (reading 'toLowerCase')")
          | Some m => ret (Js.includes (Js.toLowerCase m) "hola"
                           || Js.includes (Js.toLowerCase m) "hello")
          end) ;;
  ret (Json 200
         (payload convId
            (push_message response
               (if shown : bool then DISPLAY_BUSINESS_SELECTOR else WELCOME) "Triage Agent"))).

Definition POST (env : Env) (req : Request) : M Response :=
  try_catch (POST_try env req)
    (fun e => ret (JsonError 500 "Internal server error" (error_message e))).

End Stub.

(** ** Vocabulary of the statements *)

(** [token] occurs in [text] when letter case is ignored. *)
Definition contains_ci (text token : string) : Prop :=
  exists a b, Js.toLowerCase text = a +:+ Js.toLowerCase token +:+ b.

(** No character of [s] is [c]. *)
Fixpoint free_of (c : ascii) (s : string) : bool :=
  match s with
  | EmptyString => true
  | String d r => negb (Ascii.eqb d c) && free_of c r
  end.

(** The rows of a table in scan order: blank lines left out. *)
Definition table_rows (headers lines : list string) : list (gmap string string) :=
  List.map (Csv.row_of headers) (List.filter (fun line => negb (Csv.blank line)) lines).

Definition named (row : gmap string string) : bool := Js.truthy_opt (row !! "nombre").

(** The rows the precise tier looks at, for the text of a table. *)
Definition scanned_rows (bound : nat) (csvData : string) : list (gmap string string) :=
  let lines := Js.split Js.LF csvData in
  table_rows (Csv.headers_of lines) (Csv.data_lines bound lines).

(** The records of the rows that pass the two predicates and have a name. *)
Definition kept {A} (cat : Catalog A) (keyword : string) (maxPrice : option Num.number)
    (rows : list (gmap string string)) : list A :=
  List.map (cat_project cat) (List.filter (keeps (cat_third cat) keyword maxPrice) rows).

(** The keyword predicate in words: no keyword, or the keyword occurs, letter
    case ignored, in the name, the description or the third field. *)
Definition keyword_matches (third keyword : string) (row : gmap string string) : Prop :=
  keyword = EmptyString
  \/ exists field v,
       In field ["nombre"; "descripcion"; third] /\ row !! field = Some v
       /\ contains_ci v keyword.

(** The price predicate as the code has it: no ceiling, a ceiling that is
    zero or [NaN], or a price above zero and at most the ceiling. *)
Definition price_allows (row : gmap string string) (maxPrice : option Num.number) : Prop :=
  match maxPrice with
  | None => True
  | Some m =>
      Num.truthy m = false
      \/ (Num.gt (price_of row) Num.zero = true /\ Num.le (price_of row) m = true)
  end.

(** The numbered entries of the semantic tier and the prompt built on them,
    for the text of a table. *)
Definition semantic_entries {A} (cat : Catalog A) (csvData : string)
    : list (string * gmap string string) :=
  let lines := Js.split Js.LF csvData in
  candidates (cat_third cat) (Csv.headers_of lines)
    (Csv.data_lines (cat_vector_bound cat) lines).

Definition semantic_prompt {A} (cat : Catalog A) (csvData keyword : string)
    (maxPrice : option Num.number) (limit : nat) : prompt :=
  Semantic (cat_path cat) limit keyword (fst <$> semantic_entries cat csvData)
    (if Num.truthy_opt maxPrice then maxPrice else None).

(** The id a request is served under, and the world once it is known. *)
Definition resolved_id (env : Env) (req : Request) (w : World) : string :=
  if Js.truthy_opt (req_conversation_id req) then Js.or_empty (req_conversation_id req)
  else random env (draws w).

Definition after_id (req : Request) (w : World) : World :=
  if Js.truthy_opt (req_conversation_id req) then w else bump w.

(** The conversation a request works on: the stored one, or a fresh one. *)
Definition working_conversation (env : Env) (req : Request) (w : World) : ConversationState :=
  match conversations w !! resolved_id env req w with
  | Some conversation => conversation
  | None => new_conversation (resolved_id env req w) (random env (draws (after_id req w)))
  end.

(** The request is answered by the initial greeting rule. *)
Definition initial_greeting (env : Env) (req : Request) (w : World) : bool :=
  match conversations w !! resolved_id env req w with
  | Some _ => false
  | None => greeting (req_message req)
  end.

(** What the handler leaves in a context: a business unit that is one of the
    two units, a description longer than three, a budget made of digits. *)
Definition wf_context (ctx : ConversationContext) : Prop :=
  (business_unit ctx = None \/ business_unit ctx = Some "promoselect"
   \/ business_unit ctx = Some "suitup")
  /\ (forall d, descripcion ctx = Some d -> 3 < String.length d)
  /\ (forall p, precio ctx = Some p ->
                p <> EmptyString /\ Js.remove (fun c => negb (Js.is_digit c)) p = p).

Definition wf_store (w : World) : Prop :=
  forall c conv, conversations w !! c = Some conv -> wf_context (context conv).

(** The slots of [ctx] are still there in [ctx']. *)
Definition keeps_slots (ctx ctx' : ConversationContext) : Prop :=
  (forall d, descripcion ctx = Some d -> descripcion ctx' = Some d)
  /\ (forall p, precio ctx = Some p -> precio ctx' = Some p)
  /\ (forall u, business_unit ctx = Some u -> business_unit ctx' <> None).

(** The world in which the handler proper starts: a fresh conversation has
    drawn the id of its first event. *)
Definition handling_world (env : Env) (req : Request) (w : World) : World :=
  match conversations w !! resolved_id env req w with
  | Some _ => after_id req w
  | None => bump (after_id req w)
  end.

(** Hybrid retrieval for a business unit, with the limit of the handler. *)
Definition retrieval (env : Env) (unit keyword : string) (maxPrice : option Num.number)
    : M string :=
  if String.eqb unit "promoselect" then searchAndFormatProducts env keyword maxPrice 3
  else searchAndFormatKits env keyword maxPrice 3.

(** The price of a row is known when it parses to a number above zero. *)
Definition known_price (row : gmap string string) : bool :=
  Num.gt (price_of row) Num.zero.

(** ** A small table for the worked examples *)

Definition quoted (s : string) : string :=
  String Js.QUOTE (s +:+ String Js.QUOTE EmptyString).

(** Four data rows: a quoted description with a comma in it, a row without a
    price, a quoted price with a thousands separator, a row without a name
    and with fewer fields than the header. *)
Definition sample_csv : string :=
  "sku,nombre,descripcion,categorias,precio,imagenes_url" +:+ nl
  +:+ "P1,Playera blanca," +:+ quoted "Playera, algodon" +:+ ",Textil,$80.00,u1" +:+ nl
  +:+ "P2,Taza,Taza ceramica,Hogar,,u2" +:+ nl
  +:+ "P3,Playera roja,Playera premium,Textil," +:+ quoted "$1,250 MXN" +:+ ",u3" +:+ nl
  +:+ "P4,,sin nombre,Textil,10" +:+ nl.

(** The table under [airtable/promo.csv], no kit table, and a completion
    endpoint that gives the same answer to every call. *)
Definition sample_env (answer : option (list (option string))) : Env :=
  {| readFileSync := fun path =>
       if String.eqb path "airtable/promo.csv" then Some sample_csv else None;
     create := fun _ _ => answer;
     random := fun n => "id" +:+ Js.show_nat n |}.

Definition playera_blanca : Product.t :=
  {| Product.sku := Some "P1"; Product.nombre := Some "Playera blanca";
     Product.precio := Some "$80.00"; Product.descripcion := Some "Playera, algodon";
     Product.categorias := Some "Textil"; Product.imagenes_url := Some "u1" |}.

Definition taza : Product.t :=
  {| Product.sku := Some "P2"; Product.nombre := Some "Taza";
     Product.precio := Some ""; Product.descripcion := Some "Taza ceramica";
     Product.categorias := Some "Hogar"; Product.imagenes_url := Some "u2" |}.

(** The row of the sample table that has no price, and its numbered entry. *)
Definition taza_row : gmap string string :=
  Csv.row_of ["sku"; "nombre"; "descripcion"; "categorias"; "precio"; "imagenes_url"]
    "P2,Taza,Taza ceramica,Hogar,,u2".

Definition taza_entry : string := "Taza - Taza ceramica - Hogar".

(** * The rest of the route file, and the older route *)

(** ** [parseVectorSearchResults] *)

(** [s.substring(0, n)] *)
Fixpoint substring_to (n : nat) (s : string) : string :=
  match n, s with
  | S n', String c r => String c (substring_to n' r)
  | _, _ => EmptyString
  end.

Inductive resultType : Type := Products | Kits.

(** [line.includes('nombre') || line.includes('Producto:') || line.includes('Kit:')] *)
Definition marked (line : string) : bool :=
  Js.includes line "nombre" || Js.includes line "Producto:" || Js.includes line "Kit:".

(** The object pushed for a marked line. *)
Definition placeholder (type : resultType) (line : string) : Product.t + Kit.t :=
  match type with
  | Products =>
      inl {| Product.sku := Some ""; Product.nombre := Some (substring_to 50 line);
             Product.precio := Some "Ver precio";
             Product.descripcion := Some "Producto encontrado mediante búsqueda semántica";
             Product.categorias := Some ""; Product.imagenes_url := Some "" |}
  | Kits =>
      inr {| Kit.nombre := Some (substring_to 50 line);
             Kit.precio := Some "Ver precio";
             Kit.descripcion := Some "Kit encontrado mediante búsqueda semántica";
             Kit.productos := Some ""; Kit.imagen := Some "" |}
  end.

(** The [for] loop: the length test is inside the [if], after the push. *)
Fixpoint parse_lines (type : resultType) (limit : nat) (results : list (Product.t + Kit.t))
    (lines : list string) : list (Product.t + Kit.t) :=
  match lines with
  | [] => results
  | line :: rest =>
      if marked line then
        let results' := results ++ [placeholder type line] in
        if limit <=? List.length results' then results'
        else parse_lines type limit results' rest
      else parse_lines type limit results rest
  end.

Definition parseVectorSearchResults (content : string) (type : resultType) (limit : nat)
    : list (Product.t + Kit.t) :=
  parse_lines type limit [] (Js.split Js.LF content).

(** ** [setupVectorStores] and [createVectorStore] *)

(** The two module variables. *)
Record VectorStoreIds : Type := {
  promoVectorStoreId : option string;
  suitupVectorStoreId : option string }.

(** [`vs_mock_${Math.random().toString(36).substring(7)}`]: [suffix] gives
    the text made from a random draw. Nothing in the body can throw. *)
Definition createVectorStore (suffix : nat -> string) (name : string) (jsonlData : list Doc)
    : M string :=
  fun w => (Normal ("vs_mock_" +:+ suffix (draws w)), bump w).

(** The result is the object returned and the module variables afterwards.
    The two assignments follow the last call that can throw, so the handler
    finds the variables as they were. *)
Definition setupVectorStores (env : Env) (suffix : nat -> string) (ids : VectorStoreIds)
    : M (VectorStoreIds * VectorStoreIds) :=
  if Js.truthy_opt (promoVectorStoreId ids) && Js.truthy_opt (suitupVectorStoreId ids)
  then ret (ids, ids)
  else
    try_catch
      (promoJsonl <- csvToJsonl env "airtable/promo.csv" Promo ;;
       suitupJsonl <- csvToJsonl env "airtable/suitup.csv" SuitUp ;;
       promoId <- createVectorStore suffix "Promotional Products" promoJsonl ;;
       suitupId <- createVectorStore suffix "Promotional Kits" suitupJsonl ;;
       let ids' := {| promoVectorStoreId := Some promoId;
                      suitupVectorStoreId := Some suitupId |} in
       ret (ids', ids'))
      (fun _ => ret ({| promoVectorStoreId := None; suitupVectorStoreId := None |}, ids)).

(** ** The body of a request, as it arrives *)

Module Wire.

(** A value of [JSON.parse]. *)
#[local] Unset Elimination Schemes.
Inductive value : Type :=
| Null
| Bool (b : bool)
| Number (n : Q)
| Text (s : string)
| Array (items : list value)
| Object (members : list (string * value)).
#[local] Set Elimination Schemes.

(** What [await request.json()] and the destructuring
    [const { message, conversation_id } = ...] make of a body.
    - [NotJson why]: the body is no JSON text and the promise is rejected
      with a [SyntaxError] whose message is [why].
    - [JsonNull]: the body is [null], which cannot be destructured.
    - [Fields conversation_id message]: every other body. [message] is the
      property of that name, [None] when there is none (so for every body
      that is no object). [conversation_id] is the property of that name
      when it is a string, [None] when it is missing or falsy. A truthy id
      that is no string is left out: the store is keyed by strings. The
      handler calls no method on the id, so an id throws nothing. *)
Inductive Body : Type :=
| NotJson (why : string)
| JsonNull
| Fields (conversation_id : option string) (message : option value).

Definition truthy (v : option value) : bool :=
  match v with
  | None | Some Null => false
  | Some (Bool b) => b
  | Some (Number n) => negb (Qeq_bool n 0)
  | Some (Text s) => Js.truthy s
  | Some (Array _) | Some (Object _) => true
  end.

(** The message when it is a string. *)
Definition text (v : option value) : option string :=
  match v with
  | Some (Text s) => Some s
  | _ => None
  end.

(** What [message.toLowerCase()] throws when [message] is no string. *)
Definition no_toLowerCase (v : option value) : error :=
  TypeError match v with
            | None => "Cannot read properties of undefined (reading 'toLowerCase')"
            | Some Null => "Cannot read properties of null (reading 'toLowerCase')"
            | Some _ => "message.toLowerCase is not a function"
            end.

(** [!message || message.toLowerCase().includes('hola') || ...includes('hello')] *)
Definition greeting (message : option value) : M bool :=
  if negb (truthy message) then ret true
  else match message with
       | Some (Text m) =>
           ret (Js.includes (Js.toLowerCase m) "hola"
                || Js.includes (Js.toLowerCase m) "hello")
       | _ => throw (no_toLowerCase message)
       end.

(** Everything after the creation of the conversation: the first thing done
    is [message.toLowerCase()]. *)
Definition handle (env : Env) (conversation : ConversationState) (message : option value)
    : M ConversationState :=
  match message with
  | Some (Text m) => handle env conversation (Some m)
  | _ => throw (no_toLowerCase message)
  end.

Definition POST_try (env : Env) (body : Body) : M Response :=
  match body with
  | NotJson why => throw (SyntaxError why)
  | JsonNull =>
      throw (TypeError
               "Cannot destructure property 'message' of '(intermediate value)' as it is null.")
  | Fields conversation_id message =>
      convId <- (if Js.truthy_opt conversation_id
                 then ret (Js.or_empty conversation_id)
                 else generateId env) ;;
      stored <- conversations_get convId ;;
      match stored with
      | None =>
          evId <- generateId env ;;
          let conversation := new_conversation convId evId in
          shown <- greeting message ;;
          if shown : bool then
            respond convId (push_message conversation DISPLAY_BUSINESS_SELECTOR "Triage Agent")
          else
            conversation' <- handle env conversation message ;;
            respond convId conversation'
      | Some conversation =>
          conversation' <- handle env conversation message ;;
          respond convId conversation'
      end
  end.

Definition POST (env : Env) (body : Body) : M Response :=
  try_catch (POST_try env body)
    (fun e => ret (JsonError 500 "Internal server error" (error_message e))).

(** The request of a body whose message is a string or is missing. *)
Definition typed (conversation_id : option string) (message : option value) : Request :=
  {| req_message := text message; req_conversation_id := conversation_id |}.

End Wire.

(** ** The older route: one search tier, no quoted fields *)

Module OldRoute.

(** [product[header.trim()] = values[index]?.trim() || ''] over
    [line.split(',')]. *)
Definition row_of (headers : list string) (line : string) : gmap string string :=
  Csv.fill ∅ 0 (Js.trim <$> headers) (Js.trim <$> Js.split Js.COMMA line).

(** The class [[^\d.]] *)
Definition not_numeric (c : ascii) : bool := negb (Js.is_digit c || Ascii.eqb c ".").

(** [parseFloat(row.precio?.replace(/[^\d.]/g, '') || '0')] *)
Definition price_of (row : gmap string string) : Num.number :=
  let cleaned :=
    match row !! "precio" with
    | Some v => Js.remove not_numeric v
    | None => EmptyString
    end in
  Num.parseFloat (if Js.truthy cleaned then cleaned else "0").

(** [!maxPrice || price <= maxPrice] *)
Definition withinBudget (row : gmap string string) (maxPrice : option Num.number) : bool :=
  match maxPrice with
  | None => true
  | Some m => negb (Num.truthy m) || Num.le (price_of row) m
  end.

(** [!keyword || a?.toLowerCase().includes(k) || b?.toLowerCase().includes(k) ...]
    over the fields the function names. *)
Definition matchesKeyword (fields : list string) (row : gmap string string)
    (keyword : string) : bool :=
  negb (Js.truthy keyword)
  || existsb (fun field => field_includes (row !! field) keyword) fields.

Fixpoint search_loop (fields headers : list string) (keyword : string)
    (maxPrice : option Num.number) (limit : nat) (products : list (gmap string string))
    (lines : list string) : list (gmap string string) :=
  match lines with
  | [] => products
  | line :: rest =>
      if Csv.blank line
      then search_loop fields headers keyword maxPrice limit products rest
      else
        let product := row_of headers line in
        let products' :=
          if matchesKeyword fields product keyword && withinBudget product maxPrice
          then products ++ [product] else products in
        if limit <=? List.length products' then products'
        else search_loop fields headers keyword maxPrice limit products' rest
  end.

Definition search (path : string) (bound : nat) (fields : list string) (env : Env)
    (keyword : string) (maxPrice : option Num.number) (limit : nat)
    : M (list (gmap string string)) :=
  try_catch
    (csvData <- readFile env path ;;
     let lines := Js.split Js.LF csvData in
     let headers := Js.split Js.COMMA (hd "" lines) in
     ret (search_loop fields headers keyword maxPrice limit []
            (Csv.data_lines bound lines)))
    (fun _ => ret []).

Definition searchPromoProducts :=
  search "airtable/promo.csv" 100 ["nombre"; "descripcion"].

Definition searchSuitUpKits :=
  search "airtable/suitup.csv" 50 ["nombre"; "descripcion"; "productos"].

(** The free-form branch: as in the route, but the search is the single tier
    above and its rows go to the formatter as they are. *)
Definition freeform (env : Env) (conversation : ConversationState) (message : string)
    : M ConversationState :=
  completion <- complete env (Dialogue (systemPrompt conversation) message) ;;
  let responseMessage := reply_content completion in
  let ctx := context conversation in
  if Js.truthy_opt (business_unit ctx) && Js.truthy_opt (descripcion ctx)
     && Js.truthy_opt (precio ctx)
  then
    let maxPrice := budget_of (Js.or_empty (precio ctx)) in
    responseMessage' <-
      (if String.eqb (Js.or_empty (business_unit ctx)) "promoselect"
       then products <- searchPromoProducts env (Js.or_empty (descripcion ctx))
                          (Some maxPrice) 3 ;;
            ret (formatProductResults (project_product <$> products))
       else if String.eqb (Js.or_empty (business_unit ctx)) "suitup"
       then kits <- searchSuitUpKits env (Js.or_empty (descripcion ctx))
                      (Some maxPrice) 3 ;;
            ret (formatKitResults (project_kit <$> kits))
       else ret responseMessage) ;;
    ret (push_message conversation responseMessage' (current_agent conversation))
  else
    ret (push_message (with_context conversation (extract_slots ctx message))
           responseMessage (current_agent conversation)).

Definition handle (env : Env) (conversation : ConversationState) (message : option string)
    : M ConversationState :=
  match message with
  | None => throw (TypeError "Cannot read properties of undefined (reading 'toLowerCase')")
  | Some message =>
      if Js.includes (Js.toLowerCase message) "promoselect" then
        evId <- generateId env ;;
        ret (switch_to conversation "promoselect" "Promoselect Agent" WELCOME_PROMOSELECT evId)
      else if Js.includes (Js.toLowerCase message) "suitup" then
        evId <- generateId env ;;
        ret (switch_to conversation "suitup" "SuitUp Agent" WELCOME_SUITUP evId)
      else freeform env conversation message
  end.

Definition POST_try (env : Env) (req : Request) : M Response :=
  convId <- (if Js.truthy_opt (req_conversation_id req)
             then ret (Js.or_empty (req_conversation_id req))
             else generateId env) ;;
  stored <- conversations_get convId ;;
  match stored with
  | None =>
      evId <- generateId env ;;
      let conversation := new_conversation convId evId in
      if greeting (req_message req) then
        respond convId (push_message conversation DISPLAY_BUSINESS_SELECTOR "Triage Agent")
      else
        conversation' <- handle env conversation (req_message req) ;;
        respond convId conversation'
  | Some conversation =>
      conversation' <- handle env conversation (req_message req) ;;
      respond convId conversation'
  end.

Definition POST (env : Env) (req : Request) : M Response :=
  try_catch (POST_try env req)
    (fun e => ret (JsonError 500 "Internal server error" (error_message e))).

End OldRoute.

(** ** Vocabulary of the further statements *)

(** The three agents, and the agent that goes with a business unit. *)
Definition agent_of (unit : option string) : string :=
  match unit with
  | None => "Triage Agent"
  | Some u => if String.eqb u "promoselect" then "Promoselect Agent" else "SuitUp Agent"
  end.

(** What holds of the conversation a request works on under [key]: it
    carries its key, its context is well formed, its agent is the one of its
    business unit, its messages come from the three agents, its first event
    is the start-up event, and the two unused fields are empty. *)
Definition sound_working (key : string) (conv : ConversationState) : Prop :=
  conversation_id conv = key
  /\ wf_context (context conv)
  /\ current_agent conv = agent_of (business_unit (context conv))
  /\ Forall (fun m => In (msg_agent m) ["Triage Agent"; "Promoselect Agent"; "SuitUp Agent"])
       (messages conv)
  /\ (exists e rest, events conv = e :: rest /\ ev_type e = "message"
                     /\ ev_content e = "Agent initialized")
  /\ selected_products (context conv) = [] /\ customer_name (context conv) = None.

(** What holds of a conversation stored under [key]: the same, and it has
    at least one message. *)
Definition sound_conversation (key : string) (conv : ConversationState) : Prop :=
  sound_working key conv /\ messages conv <> [].

Definition sound_store (w : World) : Prop :=
  forall key conv, conversations w !! key = Some conv -> sound_conversation key conv.

(** The three slots that open the search are filled. *)
Definition slots_filled (ctx : ConversationContext) : bool :=
  Js.truthy_opt (business_unit ctx) && Js.truthy_opt (descripcion ctx)
  && Js.truthy_opt (precio ctx).

(** The message goes to the free-form branch: it holds no selector token. *)
Definition free_form (message : string) : bool :=
  negb (Js.includes (Js.toLowerCase message) "promoselect")
  && negb (Js.includes (Js.toLowerCase message) "suitup").

(** A row written with its values between quotes, and one written plainly. *)
Definition quoted_row (values : list string) : string :=
  String.concat "," (List.map quoted values).

Definition plain_row (values : list string) : string := String.concat "," values.

(** A table with a header, [n] rows for a cup and then the rows [more]; and
    an environment that has this table under every path and a completion
    endpoint that rejects every call. *)
Definition long_table (n : nat) (more : list string) : string :=
  String.concat nl ("nombre,precio" :: repeat "Taza,10" n ++ more).

Definition table_env (csv : string) : Env :=
  {| readFileSync := fun _ => Some csv;
     create := fun _ _ => None;
     random := fun n => "id" +:+ Js.show_nat n |}.

(** A table whose prices are not binary64 values: one that underflows to
    zero, one that rounds down to 100, one that rounds to a value above 100;
    and an environment that has it under every path and a completion
    endpoint that names the first four entries. *)
Definition rounding_csv : string :=
  String.concat nl [ "nombre,precio"; "Diminuto,1e-400"; "Justo,100.00000000000000001";
                     "Normal,50"; "Caro,100.00000000000002" ].

Definition rounding_env : Env :=
  {| readFileSync := fun _ => Some rounding_csv;
     create := fun _ _ => Some [Some "0, 1, 2, 3"];
     random := fun n => "id" +:+ Js.show_nat n |}.

(** Both module variables hold an id. *)
Definition both_set (ids : VectorStoreIds) : bool :=
  Js.truthy_opt (promoVectorStoreId ids) && Js.truthy_opt (suitupVectorStoreId ids).

Definition no_ids : VectorStoreIds :=
  {| promoVectorStoreId := None; suitupVectorStoreId := None |}.

(** The name given to a placeholder record. *)
Definition placeholder_name (r : Product.t + Kit.t) : option string :=
  match r with
  | inl p => Product.nombre p
  | inr k => Kit.nombre k
  end.

(** The single search tier of the older route for a business unit, followed
    by the formatter, with the limit of the handler. *)
Definition old_retrieval (env : Env) (unit keyword : string) (maxPrice : option Num.number)
    : M string :=
  if String.eqb unit "promoselect"
  then products <- OldRoute.searchPromoProducts env keyword maxPrice 3 ;;
       ret (formatProductResults (project_product <$> products))
  else kits <- OldRoute.searchSuitUpKits env keyword maxPrice 3 ;;
       ret (formatKitResults (project_kit <$> kits)).

Definition table_of (unit : string) : string :=
  if String.eqb unit "promoselect" then "airtable/promo.csv" else "airtable/suitup.csv".

(** The opening of an entry of the formatted text: number, name, price. *)
Definition entry_heading (index : nat) (nombre precio : option string) : string :=
  Js.show_nat (index + 1) +:+ ". **" +:+ Js.show nombre +:+ "**" +:+ nl
  +:+ "   • Precio: " +:+ Js.show precio +:+ nl.

(** * Properties *)

(** ** Strings *)

Section StringFacts.

Lemma startsWith_spec (s p : string) :
  Js.startsWith s p = true <-> exists t, s = p +:+ t.
Proof.
  revert s. induction p as [|a p IH]; intros s; simpl.
  - split; [intros _; exists s; reflexivity | intros _; destruct s; reflexivity].
  - destruct s as [|b s]; simpl.
    + split; [discriminate | intros [t Ht]; discriminate].
    + rewrite andb_true_iff, IH. split.
      * intros [Hab [t ->]]. apply Ascii.eqb_eq in Hab as ->. exists t. reflexivity.
      * intros [t Ht]. injection Ht as -> ->. split; [apply Ascii.eqb_refl | eauto].
Qed.

Lemma includes_unfold (s p : string) :
  Js.includes s p =
  Js.startsWith s p || match s with EmptyString => false | String _ r => Js.includes r p end.
Proof. destruct s; reflexivity. Qed.

Lemma includes_spec (s p : string) :
  Js.includes s p = true <-> exists a b, s = a +:+ p +:+ b.
Proof.
  split.
  - induction s as [|c r IH]; rewrite includes_unfold, orb_true_iff.
    + intros [H|H]; [|discriminate].
      apply startsWith_spec in H as [t ->]. exists EmptyString, t. reflexivity.
    + intros [H|H].
      * apply startsWith_spec in H as [t ->]. exists EmptyString, t. reflexivity.
      * destruct (IH H) as (a & b & ->). exists (String c a), b. reflexivity.
  - intros (a & b & ->). induction a as [|c a IH]; rewrite includes_unfold.
    + replace (Js.startsWith (EmptyString +:+ p +:+ b) p) with true; [reflexivity|].
      symmetry. apply startsWith_spec. exists b. reflexivity.
    + simpl in *. rewrite IH. apply orb_true_r.
Qed.

Lemma contains_ci_includes (text token : string) :
  Js.includes (Js.toLowerCase text) (Js.toLowerCase token) = true <-> contains_ci text token.
Proof. apply includes_spec. Qed.

Lemma truthy_opt_Some (o : option string) :
  Js.truthy_opt o = true <-> exists v, o = Some v /\ v <> EmptyString.
Proof.
  destruct o as [[|c r]|]; simpl; split; try discriminate.
  - intros (v & Hv & Hne). injection Hv as <-. congruence.
  - intros _. eexists; split; [reflexivity | discriminate].
  - reflexivity.
  - intros (v & Hv & _). discriminate.
Qed.

End StringFacts.

(** ** Numbers and prices *)

Section NumberFacts.

Lemma gt_zero_Fin (q : Q) : Num.gt (Num.Fin q) Num.zero = true <-> (0 < q)%Q.
Proof.
  unfold Num.gt, Num.zero. rewrite negb_true_iff. split.
  - intros H. apply Qnot_le_lt. intros Hle. apply Qle_bool_iff in Hle. congruence.
  - intros H. destruct (Qle_bool q 0) eqn:E; [|reflexivity].
    apply Qle_bool_iff in E. exfalso. exact (Qlt_not_le _ _ H E).
Qed.

Lemma le_Fin (x y : Q) : Num.le (Num.Fin x) (Num.Fin y) = true <-> (x <= y)%Q.
Proof. apply Qle_bool_iff. Qed.

(** Nothing compares with [NaN]: a price that does not parse is not known. *)
Lemma gt_NaN (b : Num.number) : Num.gt Num.NaN b = false.
Proof. reflexivity. Qed.

Lemma truthy_zero : Num.truthy Num.zero = false /\ Num.truthy Num.NaN = false.
Proof. split; reflexivity. Qed.

Example price_with_currency :
  Num.parseFloat (Js.remove price_noise "$1,250 MXN") = Num.Fin 1250.
Proof. vm_compute. reflexivity. Qed.

Example price_with_cents :
  Num.parseFloat (Js.remove price_noise "$ 80.50") = Num.Fin (161 # 2).
Proof. vm_compute. reflexivity. Qed.

Example price_without_digits :
  Num.parseFloat (Js.remove price_noise "Ver precio") = Num.NaN.
Proof. reflexivity. Qed.

Example budget_of_digits : budget_of "100" = Num.Fin 100.
Proof. vm_compute. reflexivity. Qed.

(** [parseFloat] gives binary64 values: 0.1 is the nearest one, a tie goes
    to the even neighbour, a decimal just above 100 is 100, and a decimal
    out of range is zero or an infinity. *)
Example parseFloat_rounds :
  Num.parseFloat "0.1" = Num.Fin (3602879701896397 # 36028797018963968)
  /\ Num.parseFloat "9007199254740993" = Num.Fin 9007199254740992
  /\ Num.parseFloat "9007199254740995" = Num.Fin 9007199254740996
  /\ Num.parseFloat "100.00000000000000001" = Num.Fin 100
  /\ Num.parseFloat "100.00000000000002" = Num.Fin (7036874417766401 # 70368744177664)
  /\ Num.parseFloat "1e-400" = Num.Fin 0
  /\ Num.parseFloat "2.5e-324" = Num.parseFloat "5e-324"
  /\ Num.parseFloat "1e400" = Num.Infinity
  /\ Num.parseFloat "1.7976931348623159e308" = Num.Infinity
  /\ Num.gt (Num.parseFloat "1.7976931348623157e308") (Num.parseFloat "1e308") = true.
Proof. repeat apply conj; vm_compute; reflexivity. Qed.

Example parseInt_examples :
  Num.parseInt " 12x" = Some 12%Z /\ Num.parseInt "-3" = Some (-3)%Z
  /\ Num.parseInt "x1" = None /\ Num.parseInt "0x1f" = Some 31%Z.
Proof. repeat split. Qed.

Example string_examples :
  Js.split Js.COMMA "a,,b" = ["a"; ""; "b"]
  /\ Js.trim "  a b  " = "a b"
  /\ Js.match_digits "de 120 a 300" = Some "120"
  /\ Js.includes (Js.toLowerCase "Hola MUNDO") "mundo" = true.
Proof. repeat split. Qed.

End NumberFacts.

(** ** The row parser *)

Section CsvFacts.

Lemma append_nil (t : string) : EmptyString +:+ t = t.
Proof. reflexivity. Qed.

Lemma append_cons (c : ascii) (s t : string) : String c s +:+ t = String c (s +:+ t).
Proof. reflexivity. Qed.

Lemma append_empty_r (s : string) : s +:+ EmptyString = s.
Proof. induction s as [|c s IH]; [reflexivity | rewrite append_cons, IH; reflexivity]. Qed.

Lemma append_assoc (a b c : string) : (a +:+ b) +:+ c = a +:+ (b +:+ c).
Proof.
  induction a as [|x a IH]; [reflexivity | rewrite !append_cons, IH; reflexivity].
Qed.

Lemma scan_in_quotes (inner : string) :
  forall current values rest,
    free_of Js.QUOTE inner = true ->
    Csv.scan true current values (inner +:+ String Js.QUOTE rest)
    = Csv.scan false (current +:+ inner) values rest.
Proof.
  induction inner as [|c inner IH]; intros current values rest Hfree.
  - rewrite append_empty_r. reflexivity.
  - simpl in Hfree. apply andb_true_iff in Hfree as [Hc Hfree].
    apply negb_true_iff in Hc.
    change (String c inner +:+ String Js.QUOTE rest)
      with (String c (inner +:+ String Js.QUOTE rest)).
    cbn [Csv.scan]. rewrite Hc, andb_false_r.
    rewrite IH by assumption. rewrite append_assoc. reflexivity.
Qed.

Lemma scan_quoted (inner rest current : string) (values : list string) :
  free_of Js.QUOTE inner = true ->
  Csv.scan false current values (String Js.QUOTE (inner +:+ String Js.QUOTE rest))
  = Csv.scan false (current +:+ inner) values rest.
Proof. intros H. cbn [Csv.scan]. apply scan_in_quotes, H. Qed.

Lemma fill_notin (headers : list string) :
  forall row index values h,
    ~ In h headers -> Csv.fill row index headers values !! h = row !! h.
Proof.
  induction headers as [|h0 hs IH]; intros row index values h Hnot; simpl.
  - reflexivity.
  - rewrite IH by (intros Hin; apply Hnot; right; exact Hin).
    apply lookup_insert_ne. intros ->. apply Hnot. left. reflexivity.
Qed.

Lemma fill_at (headers : list string) :
  forall row index values i h,
    headers !! i = Some h ->
    (forall j, i < j -> headers !! j <> Some h) ->
    Csv.fill row index headers values !! h = Some (Js.or_empty (values !! (index + i))).
Proof.
  induction headers as [|h0 hs IH]; intros row index values i h Hi Hlast.
  - discriminate.
  - destruct i as [|i]; simpl in *.
    + injection Hi as ->. rewrite fill_notin.
      * rewrite Nat.add_0_r. apply lookup_insert_eq.
      * intros Hin. apply list_elem_of_In, list_elem_of_lookup in Hin as [j Hj].
        apply (Hlast (S j)); [lia | exact Hj].
    + rewrite (IH _ _ _ i h Hi).
      * f_equal. f_equal. f_equal. lia.
      * intros j Hj. apply (Hlast (S j)). lia.
Qed.

(** Every header names a field of the row, whatever the line. *)
Lemma fill_bound (headers : list string) :
  forall row index values h,
    In h headers -> is_Some (Csv.fill row index headers values !! h).
Proof.
  induction headers as [|h0 hs IH]; intros row index values h Hin; simpl.
  - destruct Hin.
  - destruct (in_dec string_dec h hs) as [Hhs|Hhs].
    + apply IH, Hhs.
    + rewrite fill_notin by assumption. destruct Hin as [->|Hin]; [|contradiction].
      rewrite lookup_insert_eq. eauto.
Qed.

Lemma jsonl_loop_filter (type : productType) (headers lines : list string) :
  jsonl_loop type headers lines
  = List.map (make_doc type) (List.filter named (table_rows headers lines)).
Proof.
  unfold table_rows. induction lines as [|line rest IH]; simpl.
  - reflexivity.
  - destruct (Csv.blank line); simpl; [exact IH|].
    unfold named in *. destruct (Js.truthy_opt _); simpl; [f_equal|]; exact IH.
Qed.

Lemma candidates_filter (third : string) (headers lines : list string) :
  List.map snd (candidates third headers lines)
  = List.filter named (table_rows headers lines).
Proof.
  unfold table_rows. induction lines as [|line rest IH]; simpl.
  - reflexivity.
  - destruct (Csv.blank line); simpl; [exact IH|].
    unfold named in *. destruct (Js.truthy_opt _); simpl; [f_equal|]; exact IH.
Qed.

End CsvFacts.

(** Runs a search up to its read of the table, whose outcome is [Hread]. *)
Ltac run_to_read Hread :=
  unfold precise_search, vector_search, try_catch, bind, readFile, ret;
  rewrite Hread.

(** ** The precise tier *)

Section PreciseFacts.

Context {A : Type} (cat : Catalog A).

Lemma matchesKeyword_spec (third keyword : string) (row : gmap string string) :
  matchesKeyword third row keyword = true <-> keyword_matches third keyword row.
Proof.
  unfold matchesKeyword, keyword_matches. rewrite !orb_true_iff. split.
  - intros [[[H|H]|H]|H].
    + left. destruct keyword; [reflexivity | discriminate].
    + right. destruct (row !! "nombre") as [v|] eqn:E; [|discriminate].
      exists "nombre", v. split; [simpl; auto|]. split; [exact E|].
      apply contains_ci_includes, H.
    + right. destruct (row !! "descripcion") as [v|] eqn:E; [|discriminate].
      exists "descripcion", v. split; [simpl; auto|]. split; [exact E|].
      apply contains_ci_includes, H.
    + right. destruct (row !! third) as [v|] eqn:E; [|discriminate].
      exists third, v. split; [simpl; auto|]. split; [exact E|].
      apply contains_ci_includes, H.
  - intros [->|(field & v & Hin & Hv & Hc)]; [left; left; left; reflexivity|].
    apply contains_ci_includes in Hc.
    simpl in Hin. destruct Hin as [<-|[<-|[<-|[]]]].
    + left. left. right. rewrite Hv. exact Hc.
    + left. right. rewrite Hv. exact Hc.
    + right. rewrite Hv. exact Hc.
Qed.

Lemma withinBudget_spec (row : gmap string string) (maxPrice : option Num.number) :
  withinBudget row maxPrice = true <-> price_allows row maxPrice.
Proof.
  unfold withinBudget, price_allows. destruct maxPrice as [m|]; [|tauto].
  rewrite orb_true_iff, negb_true_iff, andb_true_iff. tauto.
Qed.

Lemma keeps_spec (keyword : string) (maxPrice : option Num.number) (row : gmap string string) :
  keeps (cat_third cat) keyword maxPrice row = true <->
  keyword_matches (cat_third cat) keyword row /\ price_allows row maxPrice /\ named row = true.
Proof.
  unfold keeps. rewrite !andb_true_iff, matchesKeyword_spec, withinBudget_spec.
  unfold named. tauto.
Qed.

(** Whatever the limit, the loop adds to its accumulator a prefix of the
    kept records, in the order of the scan. *)
Lemma precise_loop_prefix headers keyword maxPrice limit lines :
  forall acc,
    exists n, precise_loop cat headers keyword maxPrice limit acc lines
              = acc ++ take n (kept cat keyword maxPrice (table_rows headers lines)).
Proof.
  unfold kept, table_rows.
  induction lines as [|line rest IH]; intros acc; simpl.
  - exists 0. rewrite app_nil_r. reflexivity.
  - destruct (Csv.blank line); simpl; [apply IH|].
    destruct (keeps _ _ _ _); simpl.
    + destruct (limit <=? _).
      * exists 1. reflexivity.
      * destruct (IH (acc ++ [cat_project cat (Csv.row_of headers line)])) as [n ->].
        exists (S n). rewrite <- app_assoc. reflexivity.
    + destruct (limit <=? _).
      * exists 0. rewrite app_nil_r. reflexivity.
      * apply IH.
Qed.

(** With room left in the accumulator, the loop fills it up to the limit. *)
Lemma precise_loop_take headers keyword maxPrice limit lines :
  forall acc,
    List.length acc < limit ->
    precise_loop cat headers keyword maxPrice limit acc lines
    = acc ++ take (limit - List.length acc)
               (kept cat keyword maxPrice (table_rows headers lines)).
Proof.
  unfold kept, table_rows.
  induction lines as [|line rest IH]; intros acc Hroom; simpl.
  - rewrite take_nil, app_nil_r. reflexivity.
  - destruct (Csv.blank line); simpl; [apply IH, Hroom|].
    destruct (keeps _ _ _ _); simpl.
    + rewrite length_app. simpl.
      destruct (Nat.leb_spec limit (List.length acc + 1)) as [Hfull|Hmore].
      * replace (limit - List.length acc) with 1 by lia. reflexivity.
      * rewrite IH by (rewrite length_app; simpl; lia).
        rewrite length_app. simpl. rewrite <- app_assoc. simpl.
        replace (limit - List.length acc) with (S (limit - (List.length acc + 1))) by lia.
        reflexivity.
    + destruct (Nat.leb_spec limit (List.length acc)) as [Hfull|Hmore]; [lia|].
      apply IH, Hroom.
Qed.

Lemma precise_search_read env keyword maxPrice limit w csv :
  readFileSync env (cat_path cat) = Some csv ->
  precise_search cat env keyword maxPrice limit w
  = (Normal (precise_loop cat (Csv.headers_of (Js.split Js.LF csv)) keyword maxPrice limit []
               (Csv.data_lines (cat_precise_bound cat) (Js.split Js.LF csv))),
     log (Read (cat_path cat)) w).
Proof.
  intros Hread. run_to_read Hread. reflexivity.
Qed.

Lemma precise_search_missing env keyword maxPrice limit w :
  readFileSync env (cat_path cat) = None ->
  precise_search cat env keyword maxPrice limit w = (Normal [], log (Read (cat_path cat)) w).
Proof.
  intros Hread. run_to_read Hread. reflexivity.
Qed.

Lemma precise_search_total env keyword maxPrice limit w :
  exists results,
    precise_search cat env keyword maxPrice limit w
    = (Normal results, log (Read (cat_path cat)) w).
Proof.
  destruct (readFileSync env (cat_path cat)) as [csv|] eqn:Hread.
  - rewrite (precise_search_read _ _ _ _ _ csv Hread). eauto.
  - rewrite precise_search_missing by assumption. eauto.
Qed.

End PreciseFacts.

(** ** The semantic tier *)

Section SemanticFacts.

Context {A : Type} (cat : Catalog A).

(** An index that yields a record lies within the entries. *)
Lemma pick_in_range descs maxPrice index (r : A) :
  pick cat descs maxPrice index = Some r ->
  (0 <= index < Z.of_nat (List.length descs))%Z.
Proof.
  unfold pick, at_index. destruct (Z.leb_spec 0 index) as [Hpos|Hneg]; [|discriminate].
  destruct (descs !! Z.to_nat index) as [[t row]|] eqn:E; [|discriminate].
  intros _. apply lookup_lt_Some in E. lia.
Qed.

(** An index is dropped only when it is out of range or the price is above
    zero and above a ceiling that is neither zero nor [NaN]. *)
Lemma pick_None descs maxPrice index t row :
  at_index descs index = Some (t, row) ->
  pick cat descs maxPrice index = None ->
  exists m, maxPrice = Some m /\ Num.truthy m = true
            /\ known_price row = true /\ Num.gt (price_of row) m = true.
Proof.
  unfold pick, over_budget, known_price. intros ->.
  destruct maxPrice as [m|]; [|discriminate].
  destruct (Num.truthy m) eqn:Ht, (Num.gt (price_of row) Num.zero) eqn:H0,
    (Num.gt (price_of row) m) eqn:Hm; simpl; try discriminate.
  intros _. exists m. repeat split; assumption.
Qed.

(** A row without a known price is never dropped by the price filter. *)
Lemma pick_unknown_price descs maxPrice index t row :
  at_index descs index = Some (t, row) ->
  known_price row = false ->
  pick cat descs maxPrice index = Some (cat_project cat row).
Proof.
  unfold pick, over_budget, known_price. intros -> Hp.
  destruct maxPrice as [m|]; [|reflexivity].
  rewrite Hp, andb_false_r. reflexivity.
Qed.

Lemma vector_results_In descs maxPrice matches index (r : A) :
  In index matches -> pick cat descs maxPrice index = Some r ->
  In r (vector_results cat descs maxPrice matches).
Proof.
  intros Hin Hpick. unfold vector_results.
  apply list_elem_of_In, list_elem_of_omap. exists index.
  split; [apply list_elem_of_In, Hin | exact Hpick].
Qed.

Lemma vector_results_length descs maxPrice matches :
  List.length (vector_results cat descs maxPrice matches) <= List.length matches.
Proof.
  unfold vector_results. induction matches as [|i rest IH]; csimpl; [lia|].
  destruct (pick cat descs maxPrice i); csimpl; lia.
Qed.

Lemma vector_search_missing env keyword maxPrice limit w :
  readFileSync env (cat_path cat) = None ->
  vector_search cat env keyword maxPrice limit w = (Normal [], log (Read (cat_path cat)) w).
Proof.
  intros Hread. run_to_read Hread. reflexivity.
Qed.

(** The state after the read and the completion call of the semantic tier. *)
Lemma vector_search_read env keyword maxPrice limit w csv :
  readFileSync env (cat_path cat) = Some csv ->
  vector_search cat env keyword maxPrice limit w
  = (Normal
       match create env (S (List.length (trace w)))
               (semantic_prompt cat csv keyword maxPrice limit) with
       | Some (content :: _) =>
           vector_results cat (semantic_entries cat csv) maxPrice (parse_matches content)
       | _ => []
       end,
     log (Complete (semantic_prompt cat csv keyword maxPrice limit))
       (log (Read (cat_path cat)) w)).
Proof.
  intros Hread.
  unfold vector_search, try_catch, bind, readFile, complete, throw, ret.
  rewrite Hread. cbn [trace log]. rewrite length_app, Nat.add_1_r.
  fold (semantic_entries cat csv).
  change (Semantic (cat_path cat) limit keyword (fst <$> semantic_entries cat csv)
            (if Num.truthy_opt maxPrice then maxPrice else None))
    with (semantic_prompt cat csv keyword maxPrice limit).
  destruct (create env _ _) as [[|content rest]|]; reflexivity.
Qed.

Lemma vector_search_total env keyword maxPrice limit w :
  exists results w',
    vector_search cat env keyword maxPrice limit w = (Normal results, w')
    /\ exists more, trace w' = trace w ++ Read (cat_path cat) :: more.
Proof.
  destruct (readFileSync env (cat_path cat)) as [csv|] eqn:Hread.
  - rewrite (vector_search_read _ _ _ _ _ csv Hread).
    eexists _, _. split; [reflexivity|]. cbn [trace log].
    rewrite <- app_assoc. eexists. reflexivity.
  - rewrite vector_search_missing by assumption.
    eexists _, _. split; [reflexivity|]. exists []. reflexivity.
Qed.

End SemanticFacts.

(** ** Hybrid retrieval *)

Section HybridFacts.

Variable env : Env.

Lemma searchAndFormatProducts_cases keyword maxPrice limit w :
  searchAndFormatProducts env keyword maxPrice limit w =
  match searchPromoProductsPrecise env keyword maxPrice limit w with
  | (Normal [], w1) =>
      match searchPromoProductsVector env keyword maxPrice limit w1 with
      | (Normal [], w2) => (Normal NO_PRODUCTS, w2)
      | (Normal vectorResults, w2) => (Normal (formatProductResults vectorResults), w2)
      | (Throw e, w2) => (Throw e, w2)
      end
  | (Normal preciseResults, w1) => (Normal (formatProductResults preciseResults), w1)
  | (Throw e, w1) => (Throw e, w1)
  end.
Proof.
  unfold searchAndFormatProducts, bind, ret.
  destruct (searchPromoProductsPrecise env keyword maxPrice limit w) as [[[|x l]|e] w1];
    try reflexivity.
  simpl. destruct (searchPromoProductsVector env keyword maxPrice limit w1)
    as [[[|y l]|e] w2]; reflexivity.
Qed.

Lemma searchAndFormatKits_cases keyword maxPrice limit w :
  searchAndFormatKits env keyword maxPrice limit w =
  match searchSuitUpKitsPrecise env keyword maxPrice limit w with
  | (Normal [], w1) =>
      match searchSuitUpKitsVector env keyword maxPrice limit w1 with
      | (Normal [], w2) => (Normal NO_KITS, w2)
      | (Normal vectorResults, w2) => (Normal (formatKitResults vectorResults), w2)
      | (Throw e, w2) => (Throw e, w2)
      end
  | (Normal preciseResults, w1) => (Normal (formatKitResults preciseResults), w1)
  | (Throw e, w1) => (Throw e, w1)
  end.
Proof.
  unfold searchAndFormatKits, bind, ret.
  destruct (searchSuitUpKitsPrecise env keyword maxPrice limit w) as [[[|x l]|e] w1];
    try reflexivity.
  simpl. destruct (searchSuitUpKitsVector env keyword maxPrice limit w1)
    as [[[|y l]|e] w2]; reflexivity.
Qed.

(** The searches log events and touch nothing else of the world. *)
Lemma precise_search_world {A} (cat : Catalog A) keyword maxPrice limit w :
  conversations (snd (precise_search cat env keyword maxPrice limit w)) = conversations w
  /\ draws (snd (precise_search cat env keyword maxPrice limit w)) = draws w.
Proof.
  destruct (precise_search_total cat env keyword maxPrice limit w) as [r ->].
  split; reflexivity.
Qed.

Lemma vector_search_world {A} (cat : Catalog A) keyword maxPrice limit w :
  conversations (snd (vector_search cat env keyword maxPrice limit w)) = conversations w
  /\ draws (snd (vector_search cat env keyword maxPrice limit w)) = draws w.
Proof.
  destruct (readFileSync env (cat_path cat)) as [csv|] eqn:Hread.
  - rewrite (vector_search_read _ _ _ _ _ _ csv Hread). split; reflexivity.
  - rewrite vector_search_missing by assumption. split; reflexivity.
Qed.

Lemma searchAndFormatProducts_total keyword maxPrice limit w :
  exists text w',
    searchAndFormatProducts env keyword maxPrice limit w = (Normal text, w')
    /\ conversations w' = conversations w /\ draws w' = draws w.
Proof.
  rewrite searchAndFormatProducts_cases. unfold searchPromoProductsPrecise.
  destruct (precise_search_total promo env keyword maxPrice limit w) as [r Hr].
  rewrite Hr. unfold searchPromoProductsVector.
  pose proof (vector_search_world promo keyword maxPrice limit
                (log (Read (cat_path promo)) w)) as [Hc Hd].
  destruct (vector_search_total promo env keyword maxPrice limit
              (log (Read (cat_path promo)) w)) as (v & w2 & Hv & _).
  rewrite Hv in Hc, Hd. simpl in Hc, Hd.
  destruct r as [|x r].
  - rewrite Hv. destruct v; eexists _, _; (split; [reflexivity|split; assumption]).
  - eexists _, _. split; [reflexivity|split; reflexivity].
Qed.

Lemma searchAndFormatKits_total keyword maxPrice limit w :
  exists text w',
    searchAndFormatKits env keyword maxPrice limit w = (Normal text, w')
    /\ conversations w' = conversations w /\ draws w' = draws w.
Proof.
  rewrite searchAndFormatKits_cases. unfold searchSuitUpKitsPrecise.
  destruct (precise_search_total suitup env keyword maxPrice limit w) as [r Hr].
  rewrite Hr. unfold searchSuitUpKitsVector.
  pose proof (vector_search_world suitup keyword maxPrice limit
                (log (Read (cat_path suitup)) w)) as [Hc Hd].
  destruct (vector_search_total suitup env keyword maxPrice limit
              (log (Read (cat_path suitup)) w)) as (v & w2 & Hv & _).
  rewrite Hv in Hc, Hd. simpl in Hc, Hd.
  destruct r as [|x r].
  - rewrite Hv. destruct v; eexists _, _; (split; [reflexivity|split; assumption]).
  - eexists _, _. split; [reflexivity|split; reflexivity].
Qed.

End HybridFacts.

(** ** The conversation handler *)

Section HandlerFacts.

Variable env : Env.

Lemma span_digits_digits (s : string) :
  Js.remove (fun c => negb (Js.is_digit c)) (fst (Js.span_digits s)) = fst (Js.span_digits s).
Proof.
  induction s as [|c r IH]; simpl; [reflexivity|].
  destruct (Js.is_digit c) eqn:Hc; [|reflexivity].
  destruct (Js.span_digits r) as [d t]. simpl in *. rewrite Hc. simpl. congruence.
Qed.

Lemma match_digits_wf (s digits : string) :
  Js.match_digits s = Some digits ->
  digits <> EmptyString /\ Js.remove (fun c => negb (Js.is_digit c)) digits = digits.
Proof.
  revert digits. induction s as [|c r IH]; intros digits; [discriminate|].
  cbn [Js.match_digits]. destruct (Js.is_digit c) eqn:Hc; [|apply IH].
  intros [= <-]. split; [|exact (span_digits_digits (String c r))].
  cbn [Js.span_digits]. rewrite Hc. destruct (Js.span_digits r). discriminate.
Qed.

Lemma wf_truthy_descripcion ctx d :
  wf_context ctx -> descripcion ctx = Some d -> Js.truthy_opt (descripcion ctx) = true.
Proof.
  intros (_ & Hd & _) E. rewrite E. specialize (Hd d E).
  destruct d; [simpl in Hd; lia | reflexivity].
Qed.

Lemma wf_truthy_precio ctx p :
  wf_context ctx -> precio ctx = Some p -> Js.truthy_opt (precio ctx) = true.
Proof.
  intros (_ & _ & Hp) E. rewrite E. destruct (Hp p E) as [Hne _].
  destruct p; [congruence | reflexivity].
Qed.

Lemma keeps_slots_refl ctx : keeps_slots ctx ctx.
Proof. repeat split; auto. intros u ->. discriminate. Qed.

Lemma keeps_slots_trans a b c : keeps_slots a b -> keeps_slots b c -> keeps_slots a c.
Proof.
  intros (Hd1 & Hp1 & Hu1) (Hd2 & Hp2 & Hu2). repeat split; auto.
  intros u Hu. specialize (Hu1 u Hu).
  destruct (business_unit b) as [u'|] eqn:E; [|congruence]. exact (Hu2 u' eq_refl).
Qed.

Lemma extract_slots_wf ctx message :
  wf_context ctx ->
  wf_context (extract_slots ctx message) /\ keeps_slots ctx (extract_slots ctx message).
Proof.
  intros Hwf. pose proof Hwf as (Hu & Hd & Hp).
  unfold extract_slots, wf_context, keeps_slots.
  cbn [business_unit descripcion precio customer_name selected_products].
  split; [split; [exact Hu | split] | split; [|split]].
  - intros d. destruct (negb _ && _) eqn:E; [|apply Hd].
    intros [= <-]. apply andb_true_iff in E as [_ E]. apply Nat.ltb_lt in E. exact E.
  - intros p. destruct (Js.match_digits message) as [digits|] eqn:E; [|apply Hp].
    destruct (negb (Js.truthy_opt (precio ctx))); [|apply Hp].
    intros [= <-]. apply (match_digits_wf _ _ E).
  - intros d E. rewrite (wf_truthy_descripcion ctx d Hwf E). exact E.
  - intros p E. rewrite (wf_truthy_precio ctx p Hwf E).
    destruct (Js.match_digits message); exact E.
  - intros u ->. discriminate.
Qed.

Lemma freeform_cases conversation message w :
  freeform env conversation message w =
  let ask := Dialogue (systemPrompt conversation) message in
  let ctx := context conversation in
  match create env (List.length (trace w)) ask with
  | None => (Throw ApiError, log (Complete ask) w)
  | Some completion =>
      if Js.truthy_opt (business_unit ctx) && Js.truthy_opt (descripcion ctx)
         && Js.truthy_opt (precio ctx)
      then
        match
          (if String.eqb (Js.or_empty (business_unit ctx)) "promoselect"
           then searchAndFormatProducts env (Js.or_empty (descripcion ctx))
                  (Some (budget_of (Js.or_empty (precio ctx)))) 3
           else if String.eqb (Js.or_empty (business_unit ctx)) "suitup"
           then searchAndFormatKits env (Js.or_empty (descripcion ctx))
                  (Some (budget_of (Js.or_empty (precio ctx)))) 3
           else ret (reply_content completion)) (log (Complete ask) w)
        with
        | (Normal text, w2) =>
            (Normal (push_message conversation text (current_agent conversation)), w2)
        | (Throw e, w2) => (Throw e, w2)
        end
      else
        (Normal (push_message (with_context conversation (extract_slots ctx message))
                   (reply_content completion) (current_agent conversation)),
         log (Complete ask) w)
  end.
Proof.
  unfold freeform, bind, complete. cbv zeta.
  destruct (create env _ _) as [completion|]; [|reflexivity].
  destruct (_ && _ && _); reflexivity.
Qed.

Lemma switch_to_wf conversation unit agent welcome evId :
  unit = "promoselect" \/ unit = "suitup" ->
  wf_context (context conversation) ->
  wf_context (context (switch_to conversation unit agent welcome evId))
  /\ keeps_slots (context conversation)
       (context (switch_to conversation unit agent welcome evId)).
Proof.
  intros Hunit (Hu & Hd & Hp).
  unfold wf_context, keeps_slots.
  cbn [context switch_to business_unit descripcion precio].
  split; [split; [|split] | split; [|split]]; auto.
  destruct Hunit as [-> | ->]; auto.
Qed.

(** The handler proper leaves the store alone, and its result keeps the
    context well formed and the filled slots in place. *)
Lemma handle_sound conversation message w :
  conversations (snd (handle env conversation message w)) = conversations w
  /\ forall c', fst (handle env conversation message w) = Normal c' ->
       wf_context (context conversation) ->
       wf_context (context c') /\ keeps_slots (context conversation) (context c').
Proof.
  destruct message as [message|]; [|split; [reflexivity | discriminate]].
  cbn [handle].
  destruct (Js.includes (Js.toLowerCase message) "promoselect").
  { split; [reflexivity|]. intros c' [= <-] Hwf. apply switch_to_wf; auto. }
  destruct (Js.includes (Js.toLowerCase message) "suitup").
  { split; [reflexivity|]. intros c' [= <-] Hwf. apply switch_to_wf; auto. }
  rewrite freeform_cases. cbv zeta.
  destruct (create env _ _) as [completion|]; [|split; [reflexivity | discriminate]].
  destruct (_ && _ && _).
  - set (w1 := log _ w).
    assert (Hsearch : exists text w2,
      (if String.eqb (Js.or_empty (business_unit (context conversation))) "promoselect"
       then searchAndFormatProducts env (Js.or_empty (descripcion (context conversation)))
              (Some (budget_of (Js.or_empty (precio (context conversation))))) 3
       else if String.eqb (Js.or_empty (business_unit (context conversation))) "suitup"
       then searchAndFormatKits env (Js.or_empty (descripcion (context conversation)))
              (Some (budget_of (Js.or_empty (precio (context conversation))))) 3
       else ret (reply_content completion)) w1 = (Normal text, w2)
      /\ conversations w2 = conversations w1).
    { destruct (String.eqb _ "promoselect").
      - destruct (searchAndFormatProducts_total env
                    (Js.or_empty (descripcion (context conversation)))
                    (Some (budget_of (Js.or_empty (precio (context conversation))))) 3 w1)
          as (text & w2 & E & Hc & _). eauto.
      - destruct (String.eqb _ "suitup").
        + destruct (searchAndFormatKits_total env
                      (Js.or_empty (descripcion (context conversation)))
                      (Some (budget_of (Js.or_empty (precio (context conversation))))) 3 w1)
            as (text & w2 & E & Hc & _). eauto.
        + eexists _, _. split; reflexivity. }
    destruct Hsearch as (text & w2 & -> & Hc). split; [exact Hc|].
    intros c' [= <-] Hwf. split; [exact Hwf | apply keeps_slots_refl].
  - split; [reflexivity|]. intros c' [= <-] Hwf. cbn [context push_message with_context].
    apply extract_slots_wf, Hwf.
Qed.

Lemma new_conversation_wf convId evId : wf_context (context (new_conversation convId evId)).
Proof. repeat split; cbn; auto; discriminate. Qed.

Lemma POST_try_cases req w :
  POST_try env req w =
  let convId := resolved_id env req w in
  let w0 := after_id req w in
  match conversations w !! convId with
  | None =>
      let conversation := new_conversation convId (random env (draws w0)) in
      if greeting (req_message req) then
        (Normal (Json 200 (payload convId
                   (push_message conversation DISPLAY_BUSINESS_SELECTOR "Triage Agent"))),
         put convId (push_message conversation DISPLAY_BUSINESS_SELECTOR "Triage Agent")
           (bump w0))
      else
        match handle env conversation (req_message req) (bump w0) with
        | (Normal conversation', w1) =>
            (Normal (Json 200 (payload convId conversation')), put convId conversation' w1)
        | (Throw e, w1) => (Throw e, w1)
        end
  | Some conversation =>
      match handle env conversation (req_message req) w0 with
      | (Normal conversation', w1) =>
          (Normal (Json 200 (payload convId conversation')), put convId conversation' w1)
      | (Throw e, w1) => (Throw e, w1)
      end
  end.
Proof.
  unfold POST_try, resolved_id, after_id, bind, generateId, conversations_get, respond,
    conversations_set, ret. cbv zeta.
  destruct (Js.truthy_opt (req_conversation_id req)).
  - destruct (conversations w !! _) as [conversation|].
    + destruct (handle env conversation (req_message req) w) as [[c'|e] w1]; reflexivity.
    + destruct (greeting (req_message req)); [reflexivity|].
      destruct (handle env _ (req_message req) (bump w)) as [[c'|e] w1]; reflexivity.
  - cbn [conversations bump].
    destruct (conversations w !! _) as [conversation|].
    + destruct (handle env conversation (req_message req) (bump w)) as [[c'|e] w1];
        reflexivity.
    + destruct (greeting (req_message req)); [reflexivity|].
      destruct (handle env _ (req_message req) (bump (bump w))) as [[c'|e] w1];
        reflexivity.
Qed.

Lemma after_id_conversations req w : conversations (after_id req w) = conversations w.
Proof. unfold after_id. destruct (Js.truthy_opt _); reflexivity. Qed.

Lemma store_unchanged w w' :
  conversations w' = conversations w ->
  wf_store w ->
  wf_store w'
  /\ forall c conv, conversations w !! c = Some conv ->
       exists conv', conversations w' !! c = Some conv'
                     /\ keeps_slots (context conv) (context conv').
Proof.
  intros E Hwf. unfold wf_store. rewrite E. split; [exact Hwf|].
  intros c conv Hc. exists conv. split; [exact Hc | apply keeps_slots_refl].
Qed.

Lemma store_updated w w' convId c' :
  conversations w' = <[convId := c']> (conversations w) ->
  wf_store w ->
  wf_context (context c') ->
  (forall conv, conversations w !! convId = Some conv ->
                keeps_slots (context conv) (context c')) ->
  wf_store w'
  /\ forall c conv, conversations w !! c = Some conv ->
       exists conv', conversations w' !! c = Some conv'
                     /\ keeps_slots (context conv) (context conv').
Proof.
  intros E Hwf Hc' Hkeep. unfold wf_store. rewrite E. split.
  - intros c conv. destruct (decide (convId = c)) as [->|Hne].
    + rewrite lookup_insert_eq. intros [= <-]. exact Hc'.
    + rewrite lookup_insert_ne by assumption. apply Hwf.
  - intros c conv Hc. destruct (decide (convId = c)) as [->|Hne].
    + rewrite lookup_insert_eq. exists c'. split; [reflexivity | apply Hkeep, Hc].
    + rewrite lookup_insert_ne by assumption.
      exists conv. split; [exact Hc | apply keeps_slots_refl].
Qed.

(** One request: the store stays well formed and no filled slot is lost. *)
Lemma POST_store req w :
  wf_store w ->
  wf_store (after env req w)
  /\ forall c conv, conversations w !! c = Some conv ->
       exists conv', conversations (after env req w) !! c = Some conv'
                     /\ keeps_slots (context conv) (context conv').
Proof.
  intros Hwf. unfold after, POST, try_catch. rewrite POST_try_cases. cbv zeta.
  set (convId := resolved_id env req w).
  destruct (conversations w !! convId) as [conv0|] eqn:Hget.
  - pose proof (handle_sound conv0 (req_message req) (after_id req w)) as [Hst Hres].
    destruct (handle env conv0 (req_message req) (after_id req w)) as [[c'|e] w1];
      cbn [fst snd] in *; rewrite after_id_conversations in Hst.
    + destruct (Hres c' eq_refl (Hwf _ _ Hget)) as [Hwf' Hkeep].
      apply (store_updated w _ convId c'); auto.
      * cbn. rewrite Hst. reflexivity.
      * intros conv. rewrite Hget. intros [= <-]. exact Hkeep.
    + apply store_unchanged; auto.
  - destruct (greeting (req_message req)).
    + cbn [snd]. apply (store_updated w _ convId
        (push_message (new_conversation convId (random env (draws (after_id req w))))
           DISPLAY_BUSINESS_SELECTOR "Triage Agent")); auto.
      * cbn. rewrite after_id_conversations. reflexivity.
      * apply new_conversation_wf.
      * intros conv. rewrite Hget. discriminate.
    + pose proof (handle_sound
                    (new_conversation convId (random env (draws (after_id req w))))
                    (req_message req) (bump (after_id req w))) as [Hst Hres].
      destruct (handle env _ (req_message req) (bump (after_id req w))) as [[c'|e] w1];
        cbn [fst snd] in *; cbn [conversations bump] in Hst;
        rewrite after_id_conversations in Hst.
      * destruct (Hres c' eq_refl (new_conversation_wf _ _)) as [Hwf' _].
        apply (store_updated w _ convId c'); auto.
        -- cbn. rewrite Hst. reflexivity.
        -- intros conv. rewrite Hget. discriminate.
      * apply store_unchanged; auto.
Qed.

Lemma boot_wf : wf_store boot.
Proof. intros c conv. cbn. rewrite lookup_empty. discriminate. Qed.

Lemma run_app reqs later w : run env (reqs ++ later) w = run env later (run env reqs w).
Proof. unfold run. apply fold_left_app. Qed.

(** Any sequence of requests: the same two facts. *)
Lemma run_store reqs :
  forall w,
    wf_store w ->
    wf_store (run env reqs w)
    /\ forall c conv, conversations w !! c = Some conv ->
         exists conv', conversations (run env reqs w) !! c = Some conv'
                       /\ keeps_slots (context conv) (context conv').
Proof.
  induction reqs as [|req reqs IH]; intros w Hwf.
  - split; [exact Hwf|]. intros c conv Hc. exists conv.
    split; [exact Hc | apply keeps_slots_refl].
  - destruct (POST_store req w Hwf) as [Hwf1 Hstep].
    destruct (IH (after env req w) Hwf1) as [Hwf2 Hrest].
    split; [exact Hwf2|]. intros c conv Hc.
    destruct (Hstep c conv Hc) as (conv1 & Hc1 & Hk1).
    destruct (Hrest c conv1 Hc1) as (conv2 & Hc2 & Hk2).
    exists conv2. split; [exact Hc2 | exact (keeps_slots_trans _ _ _ Hk1 Hk2)].
Qed.

End HandlerFacts.

(** * The claims *)

Section Claims.

Lemma precise_search_members {A} (cat : Catalog A) env keyword maxPrice limit w results :
  fst (precise_search cat env keyword maxPrice limit w) = Normal results ->
  Forall (fun r => exists csv row,
            readFileSync env (cat_path cat) = Some csv
            /\ In row (scanned_rows (cat_precise_bound cat) csv)
            /\ keeps (cat_third cat) keyword maxPrice row = true
            /\ r = cat_project cat row) results.
Proof.
  destruct (readFileSync env (cat_path cat)) as [csv|] eqn:Hread.
  - rewrite (precise_search_read cat env _ _ _ _ csv Hread). cbn [fst].
    destruct (precise_loop_prefix cat (Csv.headers_of (Js.split Js.LF csv)) keyword
                maxPrice limit (Csv.data_lines (cat_precise_bound cat) (Js.split Js.LF csv))
                []) as [n ->].
    intros [= <-]. cbn [app]. apply Forall_forall. intros r Hr.
    apply elem_of_take in Hr as (i & Hi & _).
    apply list_elem_of_lookup_2, list_elem_of_In in Hi. rename Hi into Hr.
    unfold kept in Hr.
    apply in_map_iff in Hr as (row & <- & Hrow).
    apply filter_In in Hrow as [Hin Hkeep].
    exists csv, row. auto.
  - rewrite precise_search_missing by assumption. intros [= <-]. constructor.
Qed.

(** C1. Hybrid retrieval, for products and for kits: the precise tier always
    answers; when its answer is not empty the text returned is the formatting
    of that answer and the world is the one the precise tier left, whose trace
    has gained the read of the table and nothing else; when it is empty the
    semantic tier is run from that world, and the text is the fixed no-results
    message if the semantic answer is empty too, its formatting otherwise.
    Every run of the semantic tier adds at least its own read to the trace,
    so the first case has no such run. *)
Theorem hybrid_semantic_only_after_empty_precise
    (env : Env) (keyword : string) (maxPrice : option Num.number) (limit : nat) (w : World) :
  (exists preciseResults,
     searchPromoProductsPrecise env keyword maxPrice limit w
     = (Normal preciseResults, log (Read "airtable/promo.csv") w)
     /\ (preciseResults <> [] ->
         searchAndFormatProducts env keyword maxPrice limit w
         = (Normal (formatProductResults preciseResults), log (Read "airtable/promo.csv") w))
     /\ (preciseResults = [] ->
         exists vectorResults w2,
           searchPromoProductsVector env keyword maxPrice limit
             (log (Read "airtable/promo.csv") w) = (Normal vectorResults, w2)
           /\ (vectorResults = [] ->
               searchAndFormatProducts env keyword maxPrice limit w = (Normal NO_PRODUCTS, w2))
           /\ (vectorResults <> [] ->
               searchAndFormatProducts env keyword maxPrice limit w
               = (Normal (formatProductResults vectorResults), w2))))
  /\ (exists preciseResults,
        searchSuitUpKitsPrecise env keyword maxPrice limit w
        = (Normal preciseResults, log (Read "airtable/suitup.csv") w)
        /\ (preciseResults <> [] ->
            searchAndFormatKits env keyword maxPrice limit w
            = (Normal (formatKitResults preciseResults), log (Read "airtable/suitup.csv") w))
        /\ (preciseResults = [] ->
            exists vectorResults w2,
              searchSuitUpKitsVector env keyword maxPrice limit
                (log (Read "airtable/suitup.csv") w) = (Normal vectorResults, w2)
              /\ (vectorResults = [] ->
                  searchAndFormatKits env keyword maxPrice limit w = (Normal NO_KITS, w2))
              /\ (vectorResults <> [] ->
                  searchAndFormatKits env keyword maxPrice limit w
                  = (Normal (formatKitResults vectorResults), w2))))
  /\ (forall w0, exists more,
        trace (snd (searchPromoProductsVector env keyword maxPrice limit w0))
        = trace w0 ++ Read "airtable/promo.csv" :: more)
  /\ (forall w0, exists more,
        trace (snd (searchSuitUpKitsVector env keyword maxPrice limit w0))
        = trace w0 ++ Read "airtable/suitup.csv" :: more).
Proof.
  split; [|split; [|split]].
  - destruct (precise_search_total promo env keyword maxPrice limit w) as [r Hr].
    exists r. split; [exact Hr|]. split.
    + intros Hne. rewrite searchAndFormatProducts_cases.
      unfold searchPromoProductsPrecise. rewrite Hr.
      destruct r; [congruence | reflexivity].
    + intros ->.
      destruct (vector_search_total promo env keyword maxPrice limit
                  (log (Read (cat_path promo)) w)) as (v & w2 & Hv & _).
      exists v, w2. split; [exact Hv|].
      split; intros Hcase; rewrite searchAndFormatProducts_cases;
        unfold searchPromoProductsPrecise, searchPromoProductsVector; rewrite Hr, Hv;
        destruct v; congruence.
  - destruct (precise_search_total suitup env keyword maxPrice limit w) as [r Hr].
    exists r. split; [exact Hr|]. split.
    + intros Hne. rewrite searchAndFormatKits_cases.
      unfold searchSuitUpKitsPrecise. rewrite Hr.
      destruct r; [congruence | reflexivity].
    + intros ->.
      destruct (vector_search_total suitup env keyword maxPrice limit
                  (log (Read (cat_path suitup)) w)) as (v & w2 & Hv & _).
      exists v, w2. split; [exact Hv|].
      split; intros Hcase; rewrite searchAndFormatKits_cases;
        unfold searchSuitUpKitsPrecise, searchSuitUpKitsVector; rewrite Hr, Hv;
        destruct v; congruence.
  - intros w0.
    destruct (vector_search_total promo env keyword maxPrice limit w0)
      as (v & w2 & Hv & more & Hmore).
    exists more. unfold searchPromoProductsVector. rewrite Hv. exact Hmore.
  - intros w0.
    destruct (vector_search_total suitup env keyword maxPrice limit w0)
      as (v & w2 & Hv & more & Hmore).
    exists more. unfold searchSuitUpKitsVector. rewrite Hv. exact Hmore.
Qed.

(** C1 on the sample table: "playera" is found by the precise tier, and the
    only event is the read of the table although the completion endpoint
    would have answered. *)
Lemma hybrid_semantic_only_after_empty_precise_example :
  exists text,
    searchAndFormatProducts (sample_env (Some [Some "1"])) "playera"
      (Some (Num.of_nat 100)) 3 boot
    = (Normal text,
       {| conversations := ∅; trace := [Read "airtable/promo.csv"]; draws := 0 |}).
Proof.
  destruct (hybrid_semantic_only_after_empty_precise (sample_env (Some [Some "1"]))
              "playera" (Some (Num.of_nat 100)) 3 boot) as [(r & Hr & Hne & _) _].
  eexists. rewrite Hne; [reflexivity|].
  intros ->. vm_compute in Hr. discriminate.
Defined.

(** C2, the claim as stated fails twice on the sample table. With limit 0
    the loop still returns the first matching row. With a ceiling of 0 the
    row without a price is returned, although its price does not parse. *)
Lemma precise_matcher_counterexample :
  (exists results,
     fst (searchPromoProductsPrecise (sample_env None) "" None 0 boot) = Normal results
     /\ List.length results = 1)
  /\ (fst (searchPromoProductsPrecise (sample_env None) "taza" (Some Num.zero) 3 boot)
      = Normal [taza]
      /\ Num.parseFloat (Js.remove price_noise (Js.or_empty (Product.precio taza))) = Num.NaN).
Proof.
  split; [eexists; split|split]; vm_compute; reflexivity.
Qed.

(** C2 as amended. For a limit of at least 1 the precise tier returns the
    first [limit] records, in scan order, of the rows that pass [keeps]:
    at most [limit] of them, and every such row has a name, matches the
    keyword (no keyword, or the keyword occurs, case ignored, in the name,
    the description or the third field) and is allowed by the price
    predicate (no ceiling, a ceiling that is zero or NaN, or a price above
    zero and at most the ceiling). A table that cannot be read has no rows.
    The price of a row is the binary64 value [parseFloat] reads from it. *)
Theorem precise_matcher_bounded_ordered_filtered
    {A} (cat : Catalog A) (env : Env) (keyword : string) (maxPrice : option Num.number)
    (limit : nat) (w : World) (Hlimit : 1 <= limit) :
  let rows :=
    match readFileSync env (cat_path cat) with
    | Some csv => scanned_rows (cat_precise_bound cat) csv
    | None => []
    end in
  let matching := List.filter (keeps (cat_third cat) keyword maxPrice) rows in
  fst (precise_search cat env keyword maxPrice limit w)
  = Normal (take limit (List.map (cat_project cat) matching))
  /\ List.length (take limit (List.map (cat_project cat) matching)) <= limit
  /\ Forall (fun row => keyword_matches (cat_third cat) keyword row
                        /\ price_allows row maxPrice /\ named row = true) matching.
Proof.
  cbv zeta. split; [|split].
  - destruct (readFileSync env (cat_path cat)) as [csv|] eqn:Hread.
    + rewrite (precise_search_read cat env _ _ _ _ csv Hread). cbn [fst].
      rewrite precise_loop_take by (simpl; lia).
      cbn [app List.length]. rewrite Nat.sub_0_r. reflexivity.
    + rewrite precise_search_missing by assumption. cbn. rewrite take_nil. reflexivity.
  - rewrite length_take. lia.
  - apply Forall_forall. intros row Hrow.
    apply list_elem_of_In, filter_In in Hrow as [_ Hkeep].
    apply keeps_spec, Hkeep.
Qed.

(** C2 as amended, on the sample table: "PLAYERA" under 100, limit 3. Two
    rows have the keyword; the one at 1,250 is over the ceiling. *)
Lemma precise_matcher_bounded_ordered_filtered_witness :
  fst (searchPromoProductsPrecise (sample_env None) "PLAYERA" (Some (Num.of_nat 100)) 3 boot)
  = Normal [playera_blanca].
Proof.
  destruct (precise_matcher_bounded_ordered_filtered promo (sample_env None) "PLAYERA"
              (Some (Num.of_nat 100)) 3 boot ltac:(lia)) as [H _].
  unfold searchPromoProductsPrecise. rewrite H. vm_compute. reflexivity.
Defined.

(** The price tests are made on binary64 values. Under a ceiling of 100 the
    precise tier drops the price that underflows to zero, keeps the one that
    rounds down to 100 and drops the one that rounds to a value above 100;
    the semantic tier, for a reply that names the four entries, keeps the
    first three. *)
Example prices_are_rounded :
  (exists products,
     fst (searchPromoProductsPrecise rounding_env "" (Some (Num.of_nat 100)) 5 boot)
     = Normal products
     /\ List.map Product.nombre products = [Some "Justo"; Some "Normal"])
  /\ (exists products,
        fst (searchPromoProductsVector rounding_env "" (Some (Num.of_nat 100)) 5 boot)
        = Normal products
        /\ List.map Product.nombre products
           = [Some "Diminuto"; Some "Justo"; Some "Normal"]).
Proof. split; eexists; split; vm_compute; reflexivity. Qed.

(** C7, the part that holds: the reply is split on commas, every token is
    trimmed and read as an integer, tokens that are no integer are left out;
    an index that yields a record lies within the entries; and there are at
    most as many records as tokens. *)
Lemma semantic_reply_parsing {A} (cat : Catalog A) descs maxPrice (content : string) :
  parse_matches (Some content)
  = omap (fun token => Num.parseInt (Js.trim token)) (Js.split Js.COMMA content)
  /\ (forall index r, pick cat descs maxPrice index = Some r ->
        (0 <= index < Z.of_nat (List.length descs))%Z)
  /\ List.length (vector_results cat descs maxPrice (parse_matches (Some content)))
     <= List.length (Js.split Js.COMMA content).
Proof.
  split; [reflexivity|]. split; [apply pick_in_range|].
  etransitivity; [apply vector_results_length|].
  unfold parse_matches. generalize (Js.split Js.COMMA content). intros tokens.
  induction tokens as [|token rest IH]; csimpl; [lia|].
  destruct (Num.parseInt (Js.trim token)); csimpl; lia.
Qed.

Example semantic_reply_parsing_example :
  parse_matches (Some " 2, x,0 ,7,,1abc") = [2; 0; 7; 1]%Z.
Proof. vm_compute. reflexivity. Qed.

(** C7, the part that fails: the records are not cut to [limit]. On the
    sample table, with limit 3 and the reply "0,2,0,2", the semantic tier
    returns four records. *)
Theorem semantic_matcher_exceeds_limit :
  exists results,
    fst (searchPromoProductsVector (sample_env (Some [Some "0,2,0,2"])) "gorra" None 3 boot)
    = Normal results
    /\ List.length results = 4.
Proof. eexists. split; vm_compute; reflexivity. Qed.

(** C8. The row parser. (1) A quote character flips the flag and is not
    kept. (2) Met outside quotes, a quoted section without inner quotes adds
    its characters, commas included, to the current value and closes no
    value. (3) Every header names a field of the row, and a header in a
    column the line has no value for names the empty string. (4) The loops
    that turn rows into documents and into entries of the semantic tier keep
    exactly the rows with a name, and every record of the precise tier comes
    from a row with a name. *)
Theorem row_parser_quotes_padding_names
    {A} (cat : Catalog A) (inQuotes : bool) (inner rest current line : string)
    (values headers lines : list string) (i : nat) (header keyword : string)
    (maxPrice : option Num.number) (limit : nat) (type : productType) :
  Csv.scan inQuotes current values (String Js.QUOTE rest)
  = Csv.scan (negb inQuotes) current values rest
  /\ (free_of Js.QUOTE inner = true ->
      Csv.scan false current values (quoted inner +:+ rest)
      = Csv.scan false (current +:+ inner) values rest)
  /\ (In header headers -> is_Some (Csv.row_of headers line !! header))
  /\ (headers !! i = Some header ->
      (forall j, i < j -> headers !! j <> Some header) ->
      List.length (Csv.parse_line line) <= i ->
      Csv.row_of headers line !! header = Some EmptyString)
  /\ jsonl_loop type headers lines
     = List.map (make_doc type) (List.filter named (table_rows headers lines))
  /\ List.map snd (candidates (cat_third cat) headers lines)
     = List.filter named (table_rows headers lines)
  /\ Forall (fun r => exists row, In row (table_rows headers lines)
                                  /\ named row = true /\ r = cat_project cat row)
       (precise_loop cat headers keyword maxPrice limit [] lines).
Proof.
  split; [reflexivity|]. split; [|split; [|split; [|split; [|split]]]].
  - intros Hfree. unfold quoted. rewrite append_cons, append_assoc, append_cons, append_nil.
    apply scan_quoted, Hfree.
  - apply fill_bound.
  - intros Hi Hlast Hshort. unfold Csv.row_of.
    rewrite (fill_at headers _ 0 _ i header Hi Hlast).
    rewrite (proj2 (lookup_ge_None _ _)) by (simpl; lia). reflexivity.
  - apply jsonl_loop_filter.
  - apply candidates_filter.
  - destruct (precise_loop_prefix cat headers keyword maxPrice limit lines []) as [n ->].
    cbn [app]. apply Forall_forall. intros r Hr.
    apply elem_of_take in Hr as (k & Hk & _).
    apply list_elem_of_lookup_2, list_elem_of_In in Hk. unfold kept in Hk.
    apply in_map_iff in Hk as (row & <- & Hrow).
    apply filter_In in Hrow as [Hin Hkeep].
    exists row. split; [exact Hin|]. split; [|reflexivity].
    apply (keeps_spec cat) in Hkeep. apply Hkeep.
Qed.

(** C8 on rows of the sample table: the comma inside the quoted description
    does not split it, the short row gets empty strings for the columns it
    lacks, and the row without a name gives no document. *)
Lemma row_parser_quotes_padding_names_witness :
  Csv.parse_line ("P1,Playera blanca," +:+ quoted "Playera, algodon" +:+ ",Textil,$80.00,u1")
  = ["P1"; "Playera blanca"; "Playera, algodon"; "Textil"; "$80.00"; "u1"]
  /\ Csv.row_of ["sku"; "nombre"; "descripcion"; "categorias"; "precio"; "imagenes_url"]
       "P4,,sin nombre,Textil,10" !! "imagenes_url" = Some EmptyString
  /\ jsonl_loop Promo ["sku"; "nombre"] ["P4,"; "P2,Taza"]
     = [make_doc Promo (Csv.row_of ["sku"; "nombre"] "P2,Taza")].
Proof.
  pose proof (row_parser_quotes_padding_names promo false "Playera, algodon"
                ",Textil,$80.00,u1" "" "P4,,sin nombre,Textil,10"
                ["P1"; "Playera blanca"]
                ["sku"; "nombre"; "descripcion"; "categorias"; "precio"; "imagenes_url"]
                ["P4,"; "P2,Taza"] 5 "imagenes_url" "" None 3 Promo)
    as (_ & Hquote & _ & Hpad & _).
  split; [|split].
  - change (Csv.parse_line ("P1,Playera blanca," +:+ quoted "Playera, algodon"
                              +:+ ",Textil,$80.00,u1"))
      with (Csv.scan false "" ["P1"; "Playera blanca"]
              (quoted "Playera, algodon" +:+ ",Textil,$80.00,u1")).
    rewrite Hquote by reflexivity. vm_compute. reflexivity.
  - apply Hpad; [reflexivity | | vm_compute; lia].
    intros j Hj. do 6 (destruct j as [|j]; [lia|]). discriminate.
  - rewrite (proj1 (proj2 (proj2 (proj2 (proj2
               (row_parser_quotes_padding_names promo false "" "" "" "" [] ["sku"; "nombre"]
                  ["P4,"; "P2,Taza"] 0 "" "" None 3 Promo)))))).
    vm_compute. reflexivity.
Defined.

(** C9. No search throws: the precise and the semantic tier of either table
    end normally in every world. A table that cannot be read gives the empty
    sequence in both tiers; so does, in the semantic tier, a completion call
    that is rejected, answers with no choice, answers with a null content,
    or answers with a text that holds no integer. *)
Theorem searches_absorb_failures
    {A} (cat : Catalog A) (env : Env) (keyword : string) (maxPrice : option Num.number)
    (limit : nat) (w : World) :
  (exists results w', precise_search cat env keyword maxPrice limit w = (Normal results, w'))
  /\ (exists results w', vector_search cat env keyword maxPrice limit w = (Normal results, w'))
  /\ (readFileSync env (cat_path cat) = None ->
      fst (precise_search cat env keyword maxPrice limit w) = Normal []
      /\ fst (vector_search cat env keyword maxPrice limit w) = Normal [])
  /\ (forall csv,
        readFileSync env (cat_path cat) = Some csv ->
        match create env (S (List.length (trace w)))
                (semantic_prompt cat csv keyword maxPrice limit) with
        | Some (Some content :: _) =>
            parse_matches (Some content) = [] ->
            fst (vector_search cat env keyword maxPrice limit w) = Normal []
        | _ => fst (vector_search cat env keyword maxPrice limit w) = Normal []
        end).
Proof.
  split; [|split; [|split]].
  - destruct (precise_search_total cat env keyword maxPrice limit w) as [r Hr]. eauto.
  - destruct (vector_search_total cat env keyword maxPrice limit w) as (r & w' & Hr & _).
    eauto.
  - intros Hread. rewrite precise_search_missing, vector_search_missing by assumption.
    split; reflexivity.
  - intros csv Hread. rewrite (vector_search_read cat env _ _ _ _ csv Hread). cbn [fst].
    destruct (create env _ _) as [[|[content|] rest]|]; try reflexivity.
    intros ->. reflexivity.
Qed.

(** C9 on the sample environment: the kit table is missing, and both kit
    searches return the empty sequence. *)
Lemma searches_absorb_failures_witness :
  fst (searchSuitUpKitsPrecise (sample_env None) "kit" None 3 boot) = Normal []
  /\ fst (searchSuitUpKitsVector (sample_env None) "kit" None 3 boot) = Normal [].
Proof.
  apply (searches_absorb_failures suitup (sample_env None) "kit" None 3 boot).
  reflexivity.
Defined.

(** C10, the claim as stated fails for a ceiling of 0: the precise tier
    returns the row without a price, exactly as the semantic tier does. *)
Lemma precise_unknown_price_counterexample :
  fst (searchPromoProductsPrecise (sample_env (Some [Some "1"])) "taza" (Some Num.zero) 3 boot)
  = Normal [taza]
  /\ fst (searchPromoProductsVector (sample_env (Some [Some "1"])) "taza" (Some Num.zero) 3 boot)
     = Normal [taza]
  /\ known_price taza_row = false.
Proof. repeat split; vm_compute; reflexivity. Qed.

(** C10 as amended. For an entry of the semantic tier: (1) the price filter
    drops it only under a ceiling that is neither zero nor NaN, and when its
    price is above zero and above the ceiling; (2) so, when its price is not
    known (unparseable, or not above zero), it is in the result of the
    semantic tier whenever the reply names its index, whatever the ceiling;
    (3) under a ceiling that is neither zero nor NaN every record of the
    precise tier comes from a row whose price is known and at most the
    ceiling. The price of a row is the binary64 value [parseFloat] reads
    from it, so a price that underflows to zero is not known. *)
Theorem unknown_price_semantic_keeps_precise_drops
    {A} (cat : Catalog A) (env : Env) (keyword : string) (maxPrice : option Num.number)
    (limit : nat) (w : World) (csv : string) (index : Z) (entry : string)
    (row : gmap string string)
    (Hread : readFileSync env (cat_path cat) = Some csv)
    (Hentry : at_index (semantic_entries cat csv) index = Some (entry, row)) :
  (pick cat (semantic_entries cat csv) maxPrice index = None ->
   exists m, maxPrice = Some m /\ Num.truthy m = true
             /\ known_price row = true /\ Num.gt (price_of row) m = true)
  /\ (known_price row = false ->
      forall content rest,
        create env (S (List.length (trace w))) (semantic_prompt cat csv keyword maxPrice limit)
        = Some (content :: rest) ->
        In index (parse_matches content) ->
        exists results,
          fst (vector_search cat env keyword maxPrice limit w) = Normal results
          /\ In (cat_project cat row) results)
  /\ (forall m results,
        maxPrice = Some m -> Num.truthy m = true ->
        fst (precise_search cat env keyword maxPrice limit w) = Normal results ->
        Forall (fun r => exists row',
                  In row' (scanned_rows (cat_precise_bound cat) csv)
                  /\ r = cat_project cat row'
                  /\ known_price row' = true /\ Num.le (price_of row') m = true) results).
Proof.
  split; [|split].
  - apply pick_None with (t := entry), Hentry.
  - intros Hunknown content rest Hreply Hin.
    rewrite (vector_search_read cat env _ _ _ _ csv Hread), Hreply. cbn [fst].
    eexists. split; [reflexivity|].
    apply vector_results_In with (index := index); [exact Hin|].
    apply pick_unknown_price with (t := entry); assumption.
  - intros m results -> Hm Hres.
    apply precise_search_members in Hres.
    eapply Forall_impl; [exact Hres|]. cbv beta.
    intros r (csv' & row' & Hread' & Hin & Hkeep & ->).
    rewrite Hread in Hread'. injection Hread' as <-.
    exists row'. split; [exact Hin|]. split; [reflexivity|].
    unfold keeps, withinBudget in Hkeep. rewrite Hm in Hkeep. cbn [negb orb] in Hkeep.
    apply andb_true_iff in Hkeep as [Hkeep _].
    apply andb_true_iff in Hkeep as [_ Hkeep].
    apply andb_true_iff in Hkeep as [Hgt Hle]. unfold known_price. auto.
Qed.

(** C10 on the sample table, ceiling 100: the reply "1" names the row without
    a price and the semantic tier returns it; the precise tier, asked for
    everything under 100, returns the one row with a price of 80 only. *)
Lemma unknown_price_semantic_keeps_precise_drops_witness :
  (exists results,
     fst (searchPromoProductsVector (sample_env (Some [Some "1"])) "" (Some (Num.of_nat 100))
            3 boot) = Normal results
     /\ In taza results)
  /\ fst (searchPromoProductsPrecise (sample_env (Some [Some "1"])) "" (Some (Num.of_nat 100))
            3 boot) = Normal [playera_blanca].
Proof.
  split; [|vm_compute; reflexivity].
  destruct (unknown_price_semantic_keeps_precise_drops promo (sample_env (Some [Some "1"]))
              "" (Some (Num.of_nat 100)) 3 boot sample_csv 1 taza_entry taza_row)
    as (_ & Hkeep & _); [reflexivity | vm_compute; reflexivity |].
  destruct (Hkeep ltac:(vm_compute; reflexivity) (Some "1") [] eq_refl) as (results & Hr & Hin).
  - vm_compute. left. reflexivity.
  - exists results. split; [exact Hr|]. exact Hin.
Defined.

(** C3. Take the store reached from start-up by any sequence of requests
    and a conversation in it. After any further requests the conversation is
    still stored, a description that was stored is still the description, a
    budget that was stored is still the budget, and a business unit that was
    set is still set. *)
Theorem slots_set_once
    (env : Env) (reqs later : list Request) (c : string) (conv : ConversationState)
    (Hstored : conversations (run env reqs boot) !! c = Some conv) :
  exists conv',
    conversations (run env (reqs ++ later) boot) !! c = Some conv'
    /\ (forall d, descripcion (context conv) = Some d -> descripcion (context conv') = Some d)
    /\ (forall p, precio (context conv) = Some p -> precio (context conv') = Some p)
    /\ (forall u, business_unit (context conv) = Some u ->
                  business_unit (context conv') <> None).
Proof.
  destruct (run_store env reqs boot boot_wf) as [Hwf _].
  destruct (run_store env later (run env reqs boot) Hwf) as [_ Hkeep].
  destruct (Hkeep c conv Hstored) as (conv' & Hc' & Hslots).
  exists conv'. rewrite run_app. split; [exact Hc' | exact Hslots].
Qed.

(** C3 on a conversation: a unit is chosen, a first free-form message fills
    the description, and a later one with another wording and a price leaves
    the description as it was. *)
Lemma slots_set_once_witness :
  exists conv',
    conversations
      (run (sample_env (Some [Some "Claro."]))
         ([ {| req_message := Some "promoselect"; req_conversation_id := Some "c1" |};
            {| req_message := Some "quiero playeras"; req_conversation_id := Some "c1" |} ]
          ++ [ {| req_message := Some "mejor tazas de 50 pesos";
                  req_conversation_id := Some "c1" |} ])
         boot) !! "c1" = Some conv'
    /\ descripcion (context conv') = Some "quiero playeras"
    /\ business_unit (context conv') <> None.
Proof.
  assert (H : exists conv,
             conversations
               (run (sample_env (Some [Some "Claro."]))
                  [ {| req_message := Some "promoselect"; req_conversation_id := Some "c1" |};
                    {| req_message := Some "quiero playeras";
                       req_conversation_id := Some "c1" |} ]
                  boot) !! "c1" = Some conv
             /\ descripcion (context conv) = Some "quiero playeras"
             /\ business_unit (context conv) = Some "promoselect").
  { vm_compute. eexists. repeat split; reflexivity. }
  destruct H as (conv & Hc & Hd & Hu).
  destruct (slots_set_once (sample_env (Some [Some "Claro."])) _
              [ {| req_message := Some "mejor tazas de 50 pesos";
                   req_conversation_id := Some "c1" |} ] "c1" conv Hc)
    as (conv' & Hc' & Hkd & _ & Hku).
  exists conv'. split; [exact Hc'|]. split; [apply Hkd, Hd | apply (Hku _ Hu)].
Defined.

(** What the precise tier finds does not depend on the world it starts in,
    and hybrid retrieval formats it when it is not empty. *)
Lemma hybrid_found_precise (env : Env) keyword maxPrice limit results w :
  fst (searchPromoProductsPrecise env keyword maxPrice limit boot) = Normal results ->
  results <> [] ->
  searchAndFormatProducts env keyword maxPrice limit w
  = (Normal (formatProductResults results), log (Read "airtable/promo.csv") w).
Proof.
  intros Hfound Hne. rewrite searchAndFormatProducts_cases.
  unfold searchPromoProductsPrecise in *.
  destruct (precise_search_total promo env keyword maxPrice limit w) as [r Hr].
  assert (Hsame : r = results).
  { destruct (readFileSync env (cat_path promo)) as [csv|] eqn:Hread.
    - rewrite (precise_search_read promo env _ _ _ boot csv Hread) in Hfound.
      rewrite (precise_search_read promo env _ _ _ w csv Hread) in Hr.
      cbn [fst] in Hfound. injection Hfound as Hf. injection Hr as Hr.
      rewrite <- Hf, <- Hr. reflexivity.
    - rewrite (precise_search_missing promo env _ _ _ boot Hread) in Hfound.
      rewrite (precise_search_missing promo env _ _ _ w Hread) in Hr.
      cbn [fst] in Hfound. injection Hfound as Hf. injection Hr as Hr.
      rewrite <- Hf, <- Hr. reflexivity. }
  subst r. rewrite Hr. destruct results; [congruence | reflexivity].
Qed.

(** C4. In a store reached from start-up, take a conversation whose business
    unit, description and budget are filled, and a message for it that holds
    neither selector token. When the dialogue completion call returns, with
    whatever content, the reply recorded and sent back is the text of hybrid
    retrieval for the unit, with the stored description as keyword and the
    number read from the stored budget as ceiling: the answer has status
    200 and its messages are those of the conversation followed by one
    message that carries this text under the current agent; agent, context
    and events are as they were; the conversation is stored with the same
    messages; and the events of the request are the completion call followed
    by those of the retrieval. *)
Theorem filled_slots_reply_is_retrieval
    (env : Env) (reqs : list Request) (c message : string) (conv : ConversationState)
    (u d p : string) (completion : list (option string)) :
  let w := run env reqs boot in
  let ask := Dialogue (systemPrompt conv) message in
  conversations w !! c = Some conv ->
  c <> EmptyString ->
  business_unit (context conv) = Some u ->
  descripcion (context conv) = Some d ->
  precio (context conv) = Some p ->
  ~ contains_ci message "promoselect" ->
  ~ contains_ci message "suitup" ->
  create env (List.length (trace w)) ask = Some completion ->
  exists text w2,
    retrieval env u d (Some (Num.parseFloat p)) (log (Complete ask) w) = (Normal text, w2)
    /\ POST env {| req_message := Some message; req_conversation_id := Some c |} w
       = (Normal (Json 200 (payload c (push_message conv text (current_agent conv)))),
          put c (push_message conv text (current_agent conv)) w2)
    /\ exists body w' conv',
         POST env {| req_message := Some message; req_conversation_id := Some c |} w
         = (Normal (Json 200 body), w')
         /\ r_conversation_id body = c
         /\ r_messages body
            = messages conv ++ [ {| msg_content := text; msg_agent := current_agent conv |} ]
         /\ r_current_agent body = current_agent conv
         /\ r_context body = context conv
         /\ r_events body = events conv
         /\ conversations w' !! c = Some conv'
         /\ messages conv' = r_messages body
         /\ context conv' = context conv
         /\ trace w' = trace w2.
Proof.
  intros w ask Hget Hc Hu Hd Hp Hno1 Hno2 Hcall.
  destruct (run_store env reqs boot boot_wf) as [Hwf _].
  pose proof (Hwf c conv Hget) as Hctx. pose proof Hctx as (Hunit & _ & Hdigits).
  destruct (Hdigits p Hp) as [_ Hpd].
  assert (Htr : Js.truthy_opt (req_conversation_id
                  {| req_message := Some message; req_conversation_id := Some c |}) = true).
  { destruct c; [congruence | reflexivity]. }
  assert (Hpost : exists text w2,
    retrieval env u d (Some (Num.parseFloat p)) (log (Complete ask) w) = (Normal text, w2)
    /\ POST env {| req_message := Some message; req_conversation_id := Some c |} w
       = (Normal (Json 200 (payload c (push_message conv text (current_agent conv)))),
          put c (push_message conv text (current_agent conv)) w2)).
  { unfold POST, try_catch. rewrite POST_try_cases. cbv zeta.
    unfold resolved_id, after_id. rewrite Htr.
    cbn [req_conversation_id req_message Js.or_empty from_option id].
    fold w. rewrite Hget. cbn [handle].
    destruct (Js.includes (Js.toLowerCase message) "promoselect") eqn:E1.
    { exfalso. apply Hno1. apply (contains_ci_includes message "promoselect"). exact E1. }
    destruct (Js.includes (Js.toLowerCase message) "suitup") eqn:E2.
    { exfalso. apply Hno2. apply (contains_ci_includes message "suitup"). exact E2. }
    rewrite freeform_cases. cbv zeta. fold ask. rewrite Hcall.
    rewrite (wf_truthy_descripcion _ d Hctx Hd), (wf_truthy_precio _ p Hctx Hp).
    rewrite Hu, Hd, Hp in *. cbn [Js.or_empty from_option id]. unfold budget_of. rewrite Hpd.
    unfold retrieval.
    destruct Hunit as [Hn|[[= ->]|[= ->]]]; [discriminate| |].
    - cbn [Js.truthy_opt Js.or_empty from_option id Js.truthy andb String.eqb Ascii.eqb Bool.eqb].
      destruct (searchAndFormatProducts_total env d (Some (Num.parseFloat p)) 3
                  (log (Complete ask) w)) as (text & w2 & E & _).
      exists text, w2. rewrite E. split; reflexivity.
    - cbn [Js.truthy_opt Js.or_empty from_option id Js.truthy andb String.eqb Ascii.eqb Bool.eqb].
      destruct (searchAndFormatKits_total env d (Some (Num.parseFloat p)) 3
                  (log (Complete ask) w)) as (text & w2 & E & _).
      exists text, w2. rewrite E. split; reflexivity. }
  destruct Hpost as (text & w2 & Hr & Hpost).
  exists text, w2. split; [exact Hr|]. split; [exact Hpost|].
  eexists _, _, _. split; [exact Hpost|].
  cbn [payload r_conversation_id r_messages r_current_agent r_context r_events].
  split; [reflexivity|]. split; [reflexivity|]. split; [reflexivity|].
  split; [reflexivity|]. split; [reflexivity|].
  split; [cbn [put conversations]; apply lookup_insert_eq|].
  split; [reflexivity|]. split; reflexivity.
Qed.

(** C4 on a conversation: unit chosen, description "playera", budget "100";
    the next message gets the hybrid retrieval text for ("playera", 100),
    found by the precise tier, as the fourth message of the conversation in
    place of what the completion endpoint said. *)
Lemma filled_slots_reply_is_retrieval_witness :
  let env := sample_env (Some [Some "Claro."]) in
  let w := run env
             [ {| req_message := Some "promoselect"; req_conversation_id := Some "c1" |};
               {| req_message := Some "playera"; req_conversation_id := Some "c1" |};
               {| req_message := Some "hasta 100 pesos"; req_conversation_id := Some "c1" |} ]
             boot in
  exists conv body w',
    conversations w !! "c1" = Some conv
    /\ POST env {| req_message := Some "lo que sea"; req_conversation_id := Some "c1" |} w
       = (Normal (Json 200 body), w')
    /\ r_messages body
       = messages conv
         ++ [ {| msg_content := formatProductResults [playera_blanca];
                 msg_agent := "Promoselect Agent" |} ]
    /\ List.length (r_messages body) = 4.
Proof.
  cbv zeta.
  assert (H : exists conv,
             conversations
               (run (sample_env (Some [Some "Claro."]))
                  [ {| req_message := Some "promoselect"; req_conversation_id := Some "c1" |};
                    {| req_message := Some "playera"; req_conversation_id := Some "c1" |};
                    {| req_message := Some "hasta 100 pesos";
                       req_conversation_id := Some "c1" |} ]
                  boot) !! "c1" = Some conv
             /\ business_unit (context conv) = Some "promoselect"
             /\ descripcion (context conv) = Some "playera"
             /\ precio (context conv) = Some "100"
             /\ current_agent conv = "Promoselect Agent"
             /\ List.length (messages conv) = 3).
  { vm_compute. eexists. repeat split; reflexivity. }
  destruct H as (conv & Hc & Hu & Hd & Hp & Ha & Hn).
  destruct (filled_slots_reply_is_retrieval (sample_env (Some [Some "Claro."])) _ "c1"
              "lo que sea" conv "promoselect" "playera" "100" [Some "Claro."] Hc)
    as (text & w2 & Hr & _ & body & w' & conv' & Hpost & _ & Hmsgs & _); try assumption.
  - discriminate.
  - intros H. apply (contains_ci_includes "lo que sea" "promoselect") in H. discriminate.
  - intros H. apply (contains_ci_includes "lo que sea" "suitup") in H. discriminate.
  - reflexivity.
  - exists conv, body, w'. split; [exact Hc|]. split; [exact Hpost|].
    assert (Htext : text = formatProductResults [playera_blanca]).
    { unfold retrieval in Hr. cbn [String.eqb Ascii.eqb Bool.eqb] in Hr.
      rewrite (hybrid_found_precise (sample_env (Some [Some "Claro."])) "playera"
                 (Some (Num.parseFloat "100")) 3 [playera_blanca]) in Hr;
        [ | vm_compute; reflexivity | discriminate ].
      injection Hr as <- _. reflexivity. }
    rewrite Hmsgs, Htext, Ha. split; [reflexivity|].
    rewrite length_app, Hn. reflexivity.
Defined.

(** The stub handler of the older route file does what C5 says: without a
    conversation id, or on a greeting, its one message is the sentinel of the
    triage agent, and it calls nothing. *)
Lemma stub_shows_selector (env : Env) (req : Request) (w : World) (message : string) :
  req_message req = Some message ->
  Js.truthy_opt (req_conversation_id req) = false
  \/ contains_ci message "hola" \/ contains_ci message "hello" ->
  exists body w',
    Stub.POST env req w = (Normal (Json 200 body), w')
    /\ r_messages body
       = [ {| msg_content := DISPLAY_BUSINESS_SELECTOR; msg_agent := "Triage Agent" |} ]
    /\ r_current_agent body = "Triage Agent"
    /\ trace w' = trace w.
Proof.
  intros Hm Hcase.
  unfold Stub.POST, Stub.POST_try, try_catch, bind, generateId, ret, throw. rewrite Hm.
  destruct (Js.truthy_opt (req_conversation_id req)) eqn:Hid; cbn [negb].
  - destruct Hcase as [Hcase|Hcase]; [discriminate|].
    assert (Js.includes (Js.toLowerCase message) "hola"
            || Js.includes (Js.toLowerCase message) "hello" = true) as ->.
    { apply orb_true_iff.
      destruct Hcase as [H|H]; [left; apply (contains_ci_includes message "hola") |
                                right; apply (contains_ci_includes message "hello")];
        exact H. }
    eexists _, _. split; [reflexivity|]. repeat split.
  - eexists _, _. split; [reflexivity|]. repeat split.
Qed.

(** C5, the claim as stated fails on the route twice. A first message
    without a conversation id and without a greeting goes to the completion
    endpoint, and its answer is the reply. A greeting sent to a conversation
    that exists goes to the completion endpoint too, and the current agent
    stays the specialist. *)
Lemma greeting_rule_counterexample :
  let env := sample_env (Some [Some "Claro."]) in
  (exists body w',
     POST env {| req_message := Some "quiero tazas"; req_conversation_id := None |} boot
     = (Normal (Json 200 body), w')
     /\ r_messages body = [ {| msg_content := "Claro."; msg_agent := "Triage Agent" |} ]
     /\ trace w' = [Complete (Dialogue TriageGuide "quiero tazas")])
  /\ (exists body w' ctx,
        POST env {| req_message := Some "hola"; req_conversation_id := Some "c1" |}
          (after env {| req_message := Some "promoselect"; req_conversation_id := Some "c1" |}
             boot)
        = (Normal (Json 200 body), w')
        /\ r_current_agent body = "Promoselect Agent"
        /\ last (r_messages body)
           = Some {| msg_content := "Claro."; msg_agent := "Promoselect Agent" |}
        /\ trace w' = [Complete (Dialogue (PromoselectSpecialist ctx) "hola")]).
Proof.
  cbv zeta. split.
  - eexists _, _. split; [vm_compute; reflexivity|]. split; reflexivity.
  - eexists _, _, _. split; [vm_compute; reflexivity|]. repeat split.
Qed.

(** C5 as amended. A request that opens a conversation (nothing is stored
    under the id it is served under) and whose message is missing, empty, or
    holds "hola" or "hello", case ignored, is answered with one message, the
    sentinel of the triage agent; the current agent is the triage agent; the
    conversation is stored; and the trace is unchanged: no completion call
    and no read. *)
Theorem initial_greeting_shows_selector (env : Env) (req : Request) (w : World) :
  conversations w !! resolved_id env req w = None ->
  req_message req = None \/ req_message req = Some EmptyString
  \/ (exists m, req_message req = Some m /\ (contains_ci m "hola" \/ contains_ci m "hello")) ->
  exists conv w',
    POST env req w = (Normal (Json 200 (payload (resolved_id env req w) conv)), w')
    /\ messages conv
       = [ {| msg_content := DISPLAY_BUSINESS_SELECTOR; msg_agent := "Triage Agent" |} ]
    /\ current_agent conv = "Triage Agent"
    /\ conversations w' !! resolved_id env req w = Some conv
    /\ trace w' = trace w.
Proof.
  intros Hnew Hgreet.
  assert (Hg : greeting (req_message req) = true).
  { destruct Hgreet as [->|[->|(m & -> & Hm)]]; [reflexivity | reflexivity |].
    unfold greeting. apply orb_true_iff. destruct Hm as [Hm|Hm].
    - left. apply orb_true_iff. right. apply (contains_ci_includes m "hola"), Hm.
    - right. apply (contains_ci_includes m "hello"), Hm. }
  unfold POST, try_catch. rewrite POST_try_cases. cbv zeta. rewrite Hnew, Hg.
  eexists _, _. split; [reflexivity|]. split; [reflexivity|]. split; [reflexivity|].
  split.
  - cbn [conversations put]. apply lookup_insert_eq.
  - cbn [trace put bump]. unfold after_id. destruct (Js.truthy_opt _); reflexivity.
Qed.

(** C5 as amended, on a first "Hola" without a conversation id. *)
Lemma initial_greeting_shows_selector_witness :
  exists conv w',
    POST (sample_env None) {| req_message := Some "Hola"; req_conversation_id := None |} boot
    = (Normal (Json 200 (payload "id0" conv)), w')
    /\ messages conv
       = [ {| msg_content := DISPLAY_BUSINESS_SELECTOR; msg_agent := "Triage Agent" |} ]
    /\ current_agent conv = "Triage Agent"
    /\ trace w' = [].
Proof.
  destruct (initial_greeting_shows_selector (sample_env None)
              {| req_message := Some "Hola"; req_conversation_id := None |} boot)
    as (conv & w' & Hpost & Hm & Ha & _ & Ht).
  - reflexivity.
  - right. right. exists "Hola". split; [reflexivity|]. left.
    apply (contains_ci_includes "Hola" "hola"). reflexivity.
  - exists conv, w'. auto.
Defined.

(** C6, the claim as stated fails twice. A first message that holds a
    greeting and "promoselect" is answered by the greeting rule: no unit is
    set and the agent stays the triage agent. A message that holds both
    tokens selects unit A, so the rule for "suitup" does not apply to every
    message that holds "suitup". *)
Lemma unit_selection_counterexample :
  (exists body w',
     POST (sample_env None)
       {| req_message := Some "Hola, quiero Promoselect"; req_conversation_id := None |} boot
     = (Normal (Json 200 body), w')
     /\ business_unit (r_context body) = None
     /\ r_current_agent body = "Triage Agent"
     /\ r_messages body
        = [ {| msg_content := DISPLAY_BUSINESS_SELECTOR; msg_agent := "Triage Agent" |} ])
  /\ (exists body w',
        POST (sample_env None)
          {| req_message := Some "Promoselect o SuitUp?"; req_conversation_id := Some "c1" |}
          boot
        = (Normal (Json 200 body), w')
        /\ business_unit (r_context body) = Some "promoselect"
        /\ r_current_agent body = "Promoselect Agent").
Proof.
  split; eexists _, _; (split; [vm_compute; reflexivity|]); repeat split.
Qed.

(** C6 as amended. Take a request with a message that is not answered by
    the initial greeting rule (its conversation exists, or the message holds
    no greeting). If the message holds "promoselect", case ignored, the
    conversation the request works on gets the business unit "promoselect",
    the Promoselect agent as current agent, the fixed welcome as one more
    message and one more event, a handoff; it is stored and sent back, and
    the trace is unchanged: no completion call. If the message holds
    "suitup" and not "promoselect", the same holds for the SuitUp unit. *)
Theorem unit_selection (env : Env) (req : Request) (w : World) (message : string) :
  req_message req = Some message ->
  initial_greeting env req w = false ->
  let convId := resolved_id env req w in
  let conv := working_conversation env req w in
  let w0 := handling_world env req w in
  let evId := random env (draws w0) in
  let selects (unit agent welcome : string) :=
    let conv' := switch_to conv unit agent welcome evId in
    POST env req w = (Normal (Json 200 (payload convId conv')), put convId conv' (bump w0))
    /\ business_unit (context conv') = Some unit
    /\ current_agent conv' = agent
    /\ messages conv' = messages conv ++ [ {| msg_content := welcome; msg_agent := agent |} ]
    /\ events conv'
       = events conv ++ [ {| ev_id := evId; ev_type := "handoff"; ev_agent := agent;
                             ev_content := "Switched to " +:+ agent |} ]
    /\ trace (put convId conv' (bump w0)) = trace w in
  (contains_ci message "promoselect" ->
   selects "promoselect" "Promoselect Agent" WELCOME_PROMOSELECT)
  /\ (contains_ci message "suitup" -> ~ contains_ci message "promoselect" ->
      selects "suitup" "SuitUp Agent" WELCOME_SUITUP).
Proof.
  intros Hm Hinit. cbv zeta.
  assert (Htrace : trace (handling_world env req w) = trace w).
  { unfold handling_world, after_id.
    destruct (conversations w !! _), (Js.truthy_opt _); reflexivity. }
  assert (Hpost : POST env req w =
            match handle env (working_conversation env req w) (Some message)
                    (handling_world env req w) with
            | (Normal c', w1) =>
                (Normal (Json 200 (payload (resolved_id env req w) c')),
                 put (resolved_id env req w) c' w1)
            | (Throw e, w1) =>
                (Normal (JsonError 500 "Internal server error" (error_message e)), w1)
            end).
  { unfold POST, try_catch. rewrite POST_try_cases. cbv zeta.
    unfold initial_greeting in Hinit. unfold working_conversation, handling_world.
    rewrite Hm in *.
    destruct (conversations w !! resolved_id env req w) as [stored|].
    - destruct (handle env stored (Some message) (after_id req w)) as [[c'|e] w1];
        reflexivity.
    - rewrite Hinit.
      destruct (handle env _ (Some message) (bump (after_id req w))) as [[c'|e] w1];
        reflexivity. }
  split.
  - intros Ha. apply (contains_ci_includes message "promoselect") in Ha.
    rewrite Hpost. cbn [handle]. change (Js.toLowerCase "promoselect") with "promoselect" in Ha.
    rewrite Ha. unfold bind, generateId, ret.
    split; [reflexivity|]. repeat split. exact Htrace.
  - intros Hb Hna. apply (contains_ci_includes message "suitup") in Hb.
    change (Js.toLowerCase "suitup") with "suitup" in Hb.
    destruct (Js.includes (Js.toLowerCase message) "promoselect") eqn:Ea.
    { exfalso. apply Hna. apply (contains_ci_includes message "promoselect"). exact Ea. }
    rewrite Hpost. cbn [handle]. rewrite Ea, Hb. unfold bind, generateId, ret.
    split; [reflexivity|]. repeat split. exact Htrace.
Qed.

(** C6 on a first message "Quiero PromoSelect": one handoff event after the
    start-up event, and no completion call. *)
Lemma unit_selection_witness :
  exists body w',
    POST (sample_env None)
      {| req_message := Some "Quiero PromoSelect"; req_conversation_id := Some "c1" |} boot
    = (Normal (Json 200 body), w')
    /\ business_unit (r_context body) = Some "promoselect"
    /\ r_current_agent body = "Promoselect Agent"
    /\ List.length (List.filter (fun e => String.eqb (ev_type e) "handoff") (r_events body)) = 1
    /\ trace w' = [].
Proof.
  destruct (unit_selection (sample_env None)
              {| req_message := Some "Quiero PromoSelect"; req_conversation_id := Some "c1" |}
              boot "Quiero PromoSelect" eq_refl eq_refl) as [Ha _].
  destruct Ha as (Hpost & Hu & Hagent & Hmsgs & Hev & Htr).
  { apply (contains_ci_includes "Quiero PromoSelect" "promoselect"). reflexivity. }
  eexists _, _. split; [exact Hpost|]. repeat split.
Defined.

End Claims.

(** * Further properties of the code *)

Section RowFacts.

Lemma scan_plain (s : string) :
  forall current values rest,
    free_of Js.QUOTE s = true -> free_of Js.COMMA s = true ->
    Csv.scan false current values (s +:+ rest) = Csv.scan false (current +:+ s) values rest.
Proof.
  induction s as [|c s IH]; intros current values rest Hq Hc.
  - rewrite append_empty_r. reflexivity.
  - simpl in Hq, Hc.
    apply andb_true_iff in Hq as [Hq1 Hq]. apply andb_true_iff in Hc as [Hc1 Hc].
    apply negb_true_iff in Hq1, Hc1.
    rewrite append_cons. cbn [Csv.scan]. rewrite Hq1, Hc1. cbn [andb].
    rewrite IH by assumption. rewrite append_assoc. reflexivity.
Qed.

Lemma scan_comma (current rest : string) (values : list string) :
  Csv.scan false current values (String Js.COMMA rest)
  = Csv.scan false EmptyString (values ++ [Js.trim current]) rest.
Proof. reflexivity. Qed.

Lemma scan_quoted_rows (vs : list string) :
  forall v values,
    Forall (fun x => free_of Js.QUOTE x = true) (v :: vs) ->
    Csv.scan false EmptyString values (quoted_row (v :: vs))
    = values ++ List.map Js.trim (v :: vs).
Proof.
  unfold quoted_row.
  induction vs as [|v' vs IH]; intros v values Hfree.
  - apply Forall_inv in Hfree. cbn [List.map String.concat].
    rewrite <- (append_empty_r (quoted v)). unfold quoted at 1.
    rewrite append_cons, append_assoc, append_cons, append_nil.
    rewrite scan_quoted by assumption. reflexivity.
  - pose proof (Forall_inv Hfree) as Hv. apply Forall_inv_tail in Hfree.
    change (String.concat "," (List.map quoted (v :: v' :: vs)))
      with (quoted v +:+ "," +:+ String.concat "," (List.map quoted (v' :: vs))).
    unfold quoted at 1. rewrite append_cons, append_assoc, append_cons, append_nil.
    rewrite scan_quoted by assumption.
    change ("," +:+ String.concat "," (List.map quoted (v' :: vs)))
      with (String Js.COMMA (String.concat "," (List.map quoted (v' :: vs)))).
    rewrite scan_comma, IH by assumption.
    rewrite <- app_assoc. reflexivity.
Qed.

Lemma scan_plain_rows (vs : list string) :
  forall v values,
    Forall (fun x => free_of Js.QUOTE x = true /\ free_of Js.COMMA x = true) (v :: vs) ->
    Csv.scan false EmptyString values (plain_row (v :: vs))
    = values ++ List.map Js.trim (v :: vs).
Proof.
  unfold plain_row.
  induction vs as [|v' vs IH]; intros v values Hfree.
  - apply Forall_inv in Hfree as [Hq Hc]. cbn [List.map String.concat].
    rewrite <- (append_empty_r v) at 1. rewrite scan_plain by assumption. reflexivity.
  - pose proof (Forall_inv Hfree) as [Hq Hc]. apply Forall_inv_tail in Hfree.
    change (String.concat "," (v :: v' :: vs))
      with (v +:+ String Js.COMMA (String.concat "," (v' :: vs))).
    rewrite scan_plain by assumption. rewrite scan_comma, IH by assumption.
    rewrite <- app_assoc. reflexivity.
Qed.

(** X1. Writing a row and reading it back. Values that hold no quote
    character, each one written between quotes and joined with commas, are
    read back by the row parser as the trimmed values, commas inside them
    included; values that hold neither quote nor comma are read back the
    same way when written plainly. *)
Theorem row_round_trip (values : list string) (Hsome : values <> []) :
  (Forall (fun v => free_of Js.QUOTE v = true) values ->
   Csv.parse_line (quoted_row values) = List.map Js.trim values)
  /\ (Forall (fun v => free_of Js.QUOTE v = true /\ free_of Js.COMMA v = true) values ->
      Csv.parse_line (plain_row values) = List.map Js.trim values).
Proof.
  destruct values as [|v vs]; [congruence|]. unfold Csv.parse_line. split; intros H.
  - apply (scan_quoted_rows vs v [] H).
  - apply (scan_plain_rows vs v [] H).
Qed.

Lemma row_round_trip_witness :
  Csv.parse_line (quoted_row ["Taza, grande"; " $1,250 "; ""])
  = ["Taza, grande"; "$1,250"; ""].
Proof.
  apply (row_round_trip ["Taza, grande"; " $1,250 "; ""]); [discriminate|].
  repeat constructor.
Defined.

(** X2. Looking a column up in a row. A name that is no header is not in the
    row. A header is bound to the value of the last column that carries it:
    the value parsed at that position, or the empty string when the line has
    no value there. *)
Theorem row_lookup (headers : list string) (line : string) (i : nat) (header : string) :
  (~ In header headers -> Csv.row_of headers line !! header = None)
  /\ (headers !! i = Some header ->
      (forall j, i < j -> headers !! j <> Some header) ->
      Csv.row_of headers line !! header = Some (Js.or_empty (Csv.parse_line line !! i))).
Proof.
  unfold Csv.row_of. split.
  - intros Hnot. rewrite fill_notin by assumption. apply lookup_empty.
  - intros Hi Hlast. rewrite (fill_at headers _ 0 _ i header Hi Hlast). reflexivity.
Qed.

Lemma row_lookup_witness :
  Csv.row_of ["nombre"; "precio"; "nombre"] "Taza,10,Vaso" !! "nombre" = Some "Vaso"
  /\ Csv.row_of ["nombre"; "precio"; "nombre"] "Taza,10,Vaso" !! "sku" = None.
Proof.
  split.
  - apply (row_lookup ["nombre"; "precio"; "nombre"] "Taza,10,Vaso" 2 "nombre");
      [reflexivity|]. intros j Hj. do 3 (destruct j as [|j]; [lia|]). discriminate.
  - apply (row_lookup ["nombre"; "precio"; "nombre"] "Taza,10,Vaso" 0 "sku").
    intros [H|[H|[H|[]]]]; discriminate.
Defined.

Lemma data_lines_take (bound : nat) (lines : list string) :
  Csv.data_lines bound (take bound lines) = Csv.data_lines bound lines.
Proof.
  unfold Csv.data_lines. destruct bound as [|b]; [reflexivity|].
  destruct lines as [|l ls]; [reflexivity|]. cbn [take drop].
  rewrite Nat.sub_succ, Nat.sub_0_r. rewrite !drop_0. apply take_idemp.
Qed.

Lemma headers_of_take (bound : nat) (lines : list string) :
  0 < bound -> Csv.headers_of (take bound lines) = Csv.headers_of lines.
Proof.
  intros H. unfold Csv.headers_of. destruct bound; [lia|]. destruct lines; reflexivity.
Qed.

(** X3. The precise tier never looks past its bound: two tables whose first
    [bound] lines (200 for products, 100 for kits, the header line included)
    are the same give the same records for every query. *)
Theorem precise_ignores_lines_past_bound
    {A} (cat : Catalog A) (env env' : Env) (keyword : string)
    (maxPrice : option Num.number) (limit : nat) (w w' : World) (csv csv' : string) :
  readFileSync env (cat_path cat) = Some csv ->
  readFileSync env' (cat_path cat) = Some csv' ->
  take (cat_precise_bound cat) (Js.split Js.LF csv)
  = take (cat_precise_bound cat) (Js.split Js.LF csv') ->
  fst (precise_search cat env keyword maxPrice limit w)
  = fst (precise_search cat env' keyword maxPrice limit w').
Proof.
  intros Hr Hr' Hsame.
  rewrite (precise_search_read cat env _ _ _ _ csv Hr).
  rewrite (precise_search_read cat env' _ _ _ _ csv' Hr'). cbn [fst].
  rewrite <- (data_lines_take _ (Js.split Js.LF csv)).
  rewrite <- (data_lines_take _ (Js.split Js.LF csv')). rewrite Hsame.
  destruct (cat_precise_bound cat) as [|b] eqn:Hb; [reflexivity|].
  rewrite <- (headers_of_take (S b) (Js.split Js.LF csv)) by lia.
  rewrite <- (headers_of_take (S b) (Js.split Js.LF csv')) by lia.
  rewrite Hsame. reflexivity.
Qed.

Lemma precise_ignores_lines_past_bound_witness :
  fst (searchPromoProductsPrecise (table_env (long_table 199 ["Gorra,5"])) "gorra" None 3 boot)
  = Normal [].
Proof.
  unfold searchPromoProductsPrecise.
  rewrite (precise_ignores_lines_past_bound promo (table_env (long_table 199 ["Gorra,5"]))
             (table_env (long_table 199 [])) "gorra" None 3 boot boot
             (long_table 199 ["Gorra,5"]) (long_table 199 []) eq_refl eq_refl).
  - vm_compute. reflexivity.
  - vm_compute. reflexivity.
Defined.

Lemma candidates_length (third : string) (headers lines : list string) :
  List.length (candidates third headers lines) <= List.length lines.
Proof.
  induction lines as [|line rest IH]; simpl; [lia|].
  destruct (Csv.blank line); [lia|].
  destruct (Js.truthy_opt _); simpl; lia.
Qed.

Lemma candidates_rows (third : string) (headers lines : list string) t row :
  In (t, row) (candidates third headers lines) ->
  In row (table_rows headers lines) /\ named row = true.
Proof.
  unfold table_rows, named.
  induction lines as [|line rest IH]; simpl; [intros []|].
  destruct (Csv.blank line); simpl; [exact IH|].
  destruct (Js.truthy_opt (Csv.row_of headers line !! "nombre")) eqn:Hn.
  - intros [[= _ <-]|Hin]; [split; [left; reflexivity | exact Hn]|].
    destruct (IH Hin) as [H1 H2]. split; [right; exact H1 | exact H2].
  - intros Hin. destruct (IH Hin) as [H1 H2]. split; [right; exact H1 | exact H2].
Qed.

Lemma vector_results_rows {A} (cat : Catalog A) descs maxPrice matches :
  Forall (fun r => exists t row, In (t, row) descs /\ r = cat_project cat row)
    (vector_results cat descs maxPrice matches).
Proof.
  apply Forall_forall. intros r Hr. unfold vector_results in Hr.
  apply list_elem_of_omap in Hr as (index & _ & Hpick).
  unfold pick, at_index in Hpick.
  destruct (0 <=? index)%Z; [|discriminate].
  destruct (descs !! Z.to_nat index) as [[t row]|] eqn:E; [|discriminate].
  destruct (over_budget row maxPrice); [discriminate|]. injection Hpick as <-.
  exists t, row. split; [|reflexivity].
  apply list_elem_of_In. eapply list_elem_of_lookup_2. exact E.
Qed.

Lemma semantic_entries_length {A} (cat : Catalog A) (csv : string) :
  List.length (semantic_entries cat csv) <= cat_vector_bound cat - 1.
Proof.
  unfold semantic_entries. etransitivity; [apply candidates_length|].
  unfold Csv.data_lines. rewrite length_take. lia.
Qed.

Lemma semantic_entries_take {A} (cat : Catalog A) (csv csv' : string) :
  take (cat_vector_bound cat) (Js.split Js.LF csv)
  = take (cat_vector_bound cat) (Js.split Js.LF csv') ->
  semantic_entries cat csv = semantic_entries cat csv'.
Proof.
  intros Hsame. unfold semantic_entries.
  rewrite <- (data_lines_take _ (Js.split Js.LF csv)).
  rewrite <- (data_lines_take _ (Js.split Js.LF csv')). rewrite Hsame.
  destruct (cat_vector_bound cat) as [|b] eqn:Hb; [reflexivity|].
  rewrite <- (headers_of_take (S b) (Js.split Js.LF csv)) by lia.
  rewrite <- (headers_of_take (S b) (Js.split Js.LF csv')) by lia.
  rewrite Hsame. reflexivity.
Qed.

(** X4. The semantic tier never looks past its bound. When the table is
    read, the tier ends after the read and one completion call, and the
    prompt of that call lists fewer entries than the bound (at most 49
    products, 29 kits) whatever the size of the table; every record returned
    is the record of a named row among the lines before the bound; and with
    the same endpoint, a table that differs only from the bound on gives the
    same records and the same world. *)
Theorem semantic_tier_bounded
    {A} (cat : Catalog A) (env env' : Env) (keyword : string)
    (maxPrice : option Num.number) (limit : nat) (w : World) (csv csv' : string) :
  readFileSync env (cat_path cat) = Some csv ->
  readFileSync env' (cat_path cat) = Some csv' ->
  (forall n p, create env' n p = create env n p) ->
  take (cat_vector_bound cat) (Js.split Js.LF csv)
  = take (cat_vector_bound cat) (Js.split Js.LF csv') ->
  (exists results entries,
     vector_search cat env keyword maxPrice limit w
     = (Normal results,
        log (Complete (Semantic (cat_path cat) limit keyword entries
                         (if Num.truthy_opt maxPrice then maxPrice else None)))
          (log (Read (cat_path cat)) w))
     /\ List.length entries <= cat_vector_bound cat - 1
     /\ Forall (fun r => exists row,
                  In row (table_rows (Csv.headers_of (Js.split Js.LF csv))
                            (Csv.data_lines (cat_vector_bound cat) (Js.split Js.LF csv)))
                  /\ named row = true /\ r = cat_project cat row) results)
  /\ vector_search cat env' keyword maxPrice limit w
     = vector_search cat env keyword maxPrice limit w.
Proof.
  intros Hr Hr' Hcreate Hsame. split.
  - rewrite (vector_search_read cat env _ _ _ _ csv Hr).
    eexists _, _. split; [reflexivity|]. split.
    + rewrite length_fmap. apply semantic_entries_length.
    + assert (Hrows : forall matches,
                Forall (fun r => exists row,
                          In row (table_rows (Csv.headers_of (Js.split Js.LF csv))
                                    (Csv.data_lines (cat_vector_bound cat)
                                       (Js.split Js.LF csv)))
                          /\ named row = true /\ r = cat_project cat row)
                  (vector_results cat (semantic_entries cat csv) maxPrice matches)).
      { intros matches. eapply Forall_impl; [apply vector_results_rows|]. cbv beta.
        intros r (t & row & Hin & ->). apply candidates_rows in Hin as [H1 H2].
        exists row. auto. }
      destruct (create env _ _) as [[|content rest]|]; [constructor | apply Hrows | constructor].
  - rewrite (vector_search_read cat env _ _ _ _ csv Hr).
    rewrite (vector_search_read cat env' _ _ _ _ csv' Hr').
    unfold semantic_prompt. rewrite <- (semantic_entries_take cat csv csv' Hsame).
    rewrite Hcreate. reflexivity.
Qed.

(** X4 on a table of 61 rows whose last row is the only cap: the reply "0, 60"
    yields the first row only, as on the table without the cap. *)
Lemma semantic_tier_bounded_witness :
  let env := {| readFileSync := fun _ => Some (long_table 60 ["Gorra,5"]);
                create := fun _ _ => Some [Some "0, 60"];
                random := fun _ => "" |} in
  exists cup,
    fst (searchPromoProductsVector env "gorra" None 3 boot) = Normal [cup]
    /\ Product.nombre cup = Some "Taza".
Proof.
  cbv zeta. unfold searchPromoProductsVector.
  destruct (semantic_tier_bounded promo
              {| readFileSync := fun _ => Some (long_table 60 []);
                 create := fun _ _ => Some [Some "0, 60"];
                 random := fun _ => "" |}
              {| readFileSync := fun _ => Some (long_table 60 ["Gorra,5"]);
                 create := fun _ _ => Some [Some "0, 60"];
                 random := fun _ => "" |}
              "gorra" None 3 boot (long_table 60 []) (long_table 60 ["Gorra,5"])
              eq_refl eq_refl (fun _ _ => eq_refl)) as [_ Hsame].
  - vm_compute. reflexivity.
  - rewrite Hsame. eexists. split; vm_compute; reflexivity.
Defined.

Example semantic_entries_of_long_table :
  List.length (semantic_entries promo (long_table 199 [])) = 49.
Proof. vm_compute. reflexivity. Qed.

End RowFacts.

Section HybridShape.

Variable env : Env.

Lemma hybrid_trace {A} (cat : Catalog A) keyword maxPrice limit w precise :
  precise_search cat env keyword maxPrice limit w
  = (Normal precise, log (Read (cat_path cat)) w) ->
  match readFileSync env (cat_path cat) with
  | None =>
      precise = []
      /\ vector_search cat env keyword maxPrice limit (log (Read (cat_path cat)) w)
         = (Normal [], log (Read (cat_path cat)) (log (Read (cat_path cat)) w))
  | Some csv =>
      exists results,
        vector_search cat env keyword maxPrice limit (log (Read (cat_path cat)) w)
        = (Normal results,
           log (Complete (semantic_prompt cat csv keyword maxPrice limit))
             (log (Read (cat_path cat)) (log (Read (cat_path cat)) w)))
  end.
Proof.
  intros Hp. destruct (readFileSync env (cat_path cat)) as [csv|] eqn:Hread.
  - rewrite (vector_search_read cat env _ _ _ _ csv Hread). eauto.
  - rewrite precise_search_missing in Hp by assumption. injection Hp as <-.
    rewrite vector_search_missing by assumption. auto.
Qed.

Lemma searchAndFormatProducts_trace keyword maxPrice limit w :
  exists text w',
    searchAndFormatProducts env keyword maxPrice limit w = (Normal text, w')
    /\ match readFileSync env "airtable/promo.csv" with
       | Some csv =>
           trace w' = trace w ++ [Read "airtable/promo.csv"]
           \/ trace w' = trace w ++ [Read "airtable/promo.csv"; Read "airtable/promo.csv";
                                     Complete (semantic_prompt promo csv keyword maxPrice limit)]
       | None =>
           text = NO_PRODUCTS
           /\ trace w' = trace w ++ [Read "airtable/promo.csv"; Read "airtable/promo.csv"]
       end.
Proof.
  rewrite searchAndFormatProducts_cases. unfold searchPromoProductsPrecise.
  destruct (precise_search_total promo env keyword maxPrice limit w) as [r Hr].
  pose proof (hybrid_trace promo keyword maxPrice limit w r Hr) as Hv.
  rewrite Hr. unfold searchPromoProductsVector.
  change (cat_path promo) with "airtable/promo.csv" in *.
  destruct (readFileSync env "airtable/promo.csv") as [csv|].
  - destruct r as [|x r].
    + destruct Hv as [v Hv]. rewrite Hv.
      destruct v; eexists _, _; (split; [reflexivity|]); right; cbn [trace log];
        rewrite <- !app_assoc; reflexivity.
    + eexists _, _. split; [reflexivity|]. left. reflexivity.
  - destruct Hv as [-> Hv]. rewrite Hv. eexists _, _. split; [reflexivity|].
    split; [reflexivity|]. cbn [trace log]. rewrite <- !app_assoc. reflexivity.
Qed.

Lemma searchAndFormatKits_trace keyword maxPrice limit w :
  exists text w',
    searchAndFormatKits env keyword maxPrice limit w = (Normal text, w')
    /\ match readFileSync env "airtable/suitup.csv" with
       | Some csv =>
           trace w' = trace w ++ [Read "airtable/suitup.csv"]
           \/ trace w' = trace w ++ [Read "airtable/suitup.csv"; Read "airtable/suitup.csv";
                                     Complete (semantic_prompt suitup csv keyword maxPrice limit)]
       | None =>
           text = NO_KITS
           /\ trace w' = trace w ++ [Read "airtable/suitup.csv"; Read "airtable/suitup.csv"]
       end.
Proof.
  rewrite searchAndFormatKits_cases. unfold searchSuitUpKitsPrecise.
  destruct (precise_search_total suitup env keyword maxPrice limit w) as [r Hr].
  pose proof (hybrid_trace suitup keyword maxPrice limit w r Hr) as Hv.
  rewrite Hr. unfold searchSuitUpKitsVector.
  change (cat_path suitup) with "airtable/suitup.csv" in *.
  destruct (readFileSync env "airtable/suitup.csv") as [csv|].
  - destruct r as [|x r].
    + destruct Hv as [v Hv]. rewrite Hv.
      destruct v; eexists _, _; (split; [reflexivity|]); right; cbn [trace log];
        rewrite <- !app_assoc; reflexivity.
    + eexists _, _. split; [reflexivity|]. left. reflexivity.
  - destruct Hv as [-> Hv]. rewrite Hv. eexists _, _. split; [reflexivity|].
    split; [reflexivity|]. cbn [trace log]. rewrite <- !app_assoc. reflexivity.
Qed.

(** X5. What one hybrid retrieval does to the outside world. When the
    precise tier finds something, the retrieval reads the table once and
    makes no completion call. When it finds nothing and the table can be
    read, the retrieval reads the table twice and calls the completion
    endpoint exactly once, with the prompt of the semantic tier. When the
    table cannot be read it reads twice, calls nothing and answers with the
    fixed no-results text. *)
Theorem hybrid_reads_twice_calls_once
    (keyword : string) (maxPrice : option Num.number) (limit : nat) (w : World) :
  (exists precise text w',
     fst (searchPromoProductsPrecise env keyword maxPrice limit w) = Normal precise
     /\ searchAndFormatProducts env keyword maxPrice limit w = (Normal text, w')
     /\ (precise <> [] -> trace w' = trace w ++ [Read "airtable/promo.csv"])
     /\ (precise = [] ->
         match readFileSync env "airtable/promo.csv" with
         | Some csv =>
             trace w' = trace w ++ [Read "airtable/promo.csv"; Read "airtable/promo.csv";
                                    Complete (semantic_prompt promo csv keyword maxPrice limit)]
         | None =>
             text = NO_PRODUCTS
             /\ trace w' = trace w ++ [Read "airtable/promo.csv"; Read "airtable/promo.csv"]
         end))
  /\ (exists precise text w',
        fst (searchSuitUpKitsPrecise env keyword maxPrice limit w) = Normal precise
        /\ searchAndFormatKits env keyword maxPrice limit w = (Normal text, w')
        /\ (precise <> [] -> trace w' = trace w ++ [Read "airtable/suitup.csv"])
        /\ (precise = [] ->
            match readFileSync env "airtable/suitup.csv" with
            | Some csv =>
                trace w' = trace w ++ [Read "airtable/suitup.csv"; Read "airtable/suitup.csv";
                                       Complete (semantic_prompt suitup csv keyword maxPrice limit)]
            | None =>
                text = NO_KITS
                /\ trace w' = trace w ++ [Read "airtable/suitup.csv"; Read "airtable/suitup.csv"]
            end)).
Proof.
  split.
  - rewrite searchAndFormatProducts_cases. unfold searchPromoProductsPrecise.
    destruct (precise_search_total promo env keyword maxPrice limit w) as [r Hr].
    pose proof (hybrid_trace promo keyword maxPrice limit w r Hr) as Hv.
    rewrite Hr. unfold searchPromoProductsVector.
    change (cat_path promo) with "airtable/promo.csv" in *.
    exists r. destruct r as [|x r].
    + destruct (readFileSync env "airtable/promo.csv") as [csv|].
      * destruct Hv as [v Hv]. rewrite Hv.
        destruct v; eexists _, _; (split; [reflexivity|]); (split; [reflexivity|]);
          (split; [congruence|]); intros _; cbn [trace log];
          rewrite <- !app_assoc; reflexivity.
      * destruct Hv as [_ Hv]. rewrite Hv. eexists _, _. split; [reflexivity|].
        split; [reflexivity|]. split; [congruence|]. intros _.
        split; [reflexivity|]. cbn [trace log]. rewrite <- !app_assoc. reflexivity.
    + eexists _, _. split; [reflexivity|]. split; [reflexivity|].
      split; [reflexivity | discriminate].
  - rewrite searchAndFormatKits_cases. unfold searchSuitUpKitsPrecise.
    destruct (precise_search_total suitup env keyword maxPrice limit w) as [r Hr].
    pose proof (hybrid_trace suitup keyword maxPrice limit w r Hr) as Hv.
    rewrite Hr. unfold searchSuitUpKitsVector.
    change (cat_path suitup) with "airtable/suitup.csv" in *.
    exists r. destruct r as [|x r].
    + destruct (readFileSync env "airtable/suitup.csv") as [csv|].
      * destruct Hv as [v Hv]. rewrite Hv.
        destruct v; eexists _, _; (split; [reflexivity|]); (split; [reflexivity|]);
          (split; [congruence|]); intros _; cbn [trace log];
          rewrite <- !app_assoc; reflexivity.
      * destruct Hv as [_ Hv]. rewrite Hv. eexists _, _. split; [reflexivity|].
        split; [reflexivity|]. split; [congruence|]. intros _.
        split; [reflexivity|]. cbn [trace log]. rewrite <- !app_assoc. reflexivity.
    + eexists _, _. split; [reflexivity|]. split; [reflexivity|].
      split; [reflexivity | discriminate].
Qed.

End HybridShape.

(** X5 on the sample table: "playera" is found by the precise tier after one
    read; "gorra" is found by no row, and the retrieval reads twice and
    calls the endpoint once. *)
Lemma hybrid_reads_twice_calls_once_witness :
  let env := sample_env (Some [Some "1"]) in
  (exists text w',
     searchAndFormatProducts env "playera" None 3 boot = (Normal text, w')
     /\ trace w' = [Read "airtable/promo.csv"])
  /\ (exists text w',
        searchAndFormatProducts env "gorra" None 3 boot = (Normal text, w')
        /\ trace w' = [Read "airtable/promo.csv"; Read "airtable/promo.csv";
                       Complete (semantic_prompt promo sample_csv "gorra" None 3)]).
Proof.
  cbv zeta. split.
  - destruct (hybrid_reads_twice_calls_once (sample_env (Some [Some "1"])) "playera" None 3 boot)
      as [(precise & text & w' & Hp & E & Hone & _) _].
    exists text, w'. split; [exact E|]. apply Hone.
    intros ->. vm_compute in Hp. discriminate.
  - destruct (hybrid_reads_twice_calls_once (sample_env (Some [Some "1"])) "gorra" None 3 boot)
      as [(precise & text & w' & Hp & E & _ & Htwo) _].
    exists text, w'. split; [exact E|].
    assert (precise = []) as Hnone by (vm_compute in Hp; congruence).
    exact (Htwo Hnone).
Defined.

Section FormatFacts.

Lemma concat_empty_cons (x : string) (xs : list string) :
  String.concat "" (x :: xs) = x +:+ String.concat "" xs.
Proof. destruct xs; [symmetry; apply append_empty_r | reflexivity]. Qed.

Lemma concat_imap_lookup {B} (l : list B) :
  forall (f : nat -> B -> string) i x,
    l !! i = Some x ->
    exists a b, String.concat "" (imap f l) = a +:+ f i x +:+ b.
Proof.
  induction l as [|y l IH]; intros f i x Hi; [discriminate|].
  cbn [imap]. rewrite concat_empty_cons. destruct i as [|i].
  - injection Hi as ->. exists EmptyString, (String.concat "" (imap (f ∘ S) l)). reflexivity.
  - destruct (IH (f ∘ S) i x Hi) as (a & b & E).
    exists (f 0 y +:+ a), b. rewrite E, append_assoc. reflexivity.
Qed.

Lemma includes_middle (h a n r b c : string) :
  Js.includes (h +:+ (a +:+ (n +:+ r) +:+ b) +:+ c) n = true.
Proof.
  apply includes_spec. exists (h +:+ a), (r +:+ b +:+ c).
  rewrite !append_assoc. reflexivity.
Qed.

Lemma startsWith_app (p t : string) : Js.startsWith (p +:+ t) p = true.
Proof. apply startsWith_spec. exists t. reflexivity. Qed.

Lemma nonempty_length {B} (l : list B) i x :
  l !! i = Some x -> (List.length l =? 0) = false.
Proof. intros H. apply Nat.eqb_neq. apply lookup_lt_Some in H. lia. Qed.

(** X6. The text for a list of records names every record: the record at
    position [i] appears as its number, [i + 1], its name between asterisks
    and its price line; and the text opens with the number of records. The
    same holds for kits. *)
Theorem formatted_text_lists_records
    (products : list Product.t) (kits : list Kit.t) (i : nat) :
  (forall p, products !! i = Some p ->
     Js.includes (formatProductResults products)
       (entry_heading i (Product.nombre p) (Product.precio p)) = true
     /\ Js.startsWith (formatProductResults products)
          ("Encontré " +:+ Js.show_nat (List.length products) +:+ " productos") = true)
  /\ (forall k, kits !! i = Some k ->
        Js.includes (formatKitResults kits)
          (entry_heading i (Kit.nombre k) (Kit.precio k)) = true
        /\ Js.startsWith (formatKitResults kits)
             ("Encontré " +:+ Js.show_nat (List.length kits) +:+ " kits") = true).
Proof.
  split.
  - intros p Hp. unfold formatProductResults. rewrite (nonempty_length _ _ _ Hp).
    match goal with
    | |- context [imap ?f products] =>
        destruct (concat_imap_lookup products f i p Hp) as (a & b & E)
    end.
    rewrite E. cbv beta. split.
    + match goal with
      | |- Js.includes (?h +:+ (a +:+ ((?n1 +:+ ?n2 +:+ ?r) +:+ b)) +:+ ?c) _ = true =>
          replace (n1 +:+ n2 +:+ r) with (entry_heading i (Product.nombre p) (Product.precio p) +:+ r)
            by (unfold entry_heading; rewrite !append_assoc; reflexivity);
          apply (includes_middle h a _ r b c)
      end.
    + apply startsWith_spec.
      match goal with
      | |- exists t, (_ +:+ _ +:+ _ +:+ ?x) +:+ ?y = _ =>
          exists (" que podrían interesarte:" +:+ x +:+ y)
      end.
      rewrite !append_assoc. reflexivity.
  - intros k Hk. unfold formatKitResults. rewrite (nonempty_length _ _ _ Hk).
    match goal with
    | |- context [imap ?f kits] =>
        destruct (concat_imap_lookup kits f i k Hk) as (a & b & E)
    end.
    rewrite E. cbv beta. split.
    + match goal with
      | |- Js.includes (?h +:+ (a +:+ ((?n1 +:+ ?n2 +:+ ?r) +:+ b)) +:+ ?c) _ = true =>
          replace (n1 +:+ n2 +:+ r) with (entry_heading i (Kit.nombre k) (Kit.precio k) +:+ r)
            by (unfold entry_heading; rewrite !append_assoc; reflexivity);
          apply (includes_middle h a _ r b c)
      end.
    + apply startsWith_spec.
      match goal with
      | |- exists t, (_ +:+ _ +:+ _ +:+ ?x) +:+ ?y = _ =>
          exists (" que podrían interesarte:" +:+ x +:+ y)
      end.
      rewrite !append_assoc. reflexivity.
Qed.

End FormatFacts.

Section EndpointFacts.

Variable env : Env.

Lemma handling_world_facts req w :
  trace (handling_world env req w) = trace w
  /\ conversations (handling_world env req w) = conversations w.
Proof.
  unfold handling_world, after_id.
  destruct (conversations w !! _), (Js.truthy_opt _); split; reflexivity.
Qed.

(** The handler, by the rule that answers. *)
Lemma POST_cases req w :
  POST env req w =
  if initial_greeting env req w then
    (Normal (Json 200 (payload (resolved_id env req w)
               (push_message (working_conversation env req w)
                  DISPLAY_BUSINESS_SELECTOR "Triage Agent"))),
     put (resolved_id env req w)
       (push_message (working_conversation env req w) DISPLAY_BUSINESS_SELECTOR "Triage Agent")
       (handling_world env req w))
  else
    match handle env (working_conversation env req w) (req_message req)
            (handling_world env req w) with
    | (Normal c', w1) =>
        (Normal (Json 200 (payload (resolved_id env req w) c')),
         put (resolved_id env req w) c' w1)
    | (Throw e, w1) =>
        (Normal (JsonError 500 "Internal server error" (error_message e)), w1)
    end.
Proof.
  unfold POST, try_catch. rewrite POST_try_cases. cbv zeta.
  unfold initial_greeting, working_conversation, handling_world.
  destruct (conversations w !! resolved_id env req w) as [stored|].
  - destruct (handle env stored (req_message req) (after_id req w)) as [[c'|e] w1];
      reflexivity.
  - destruct (greeting (req_message req)); [reflexivity|].
    destruct (handle env _ (req_message req) (bump (after_id req w))) as [[c'|e] w1];
      reflexivity.
Qed.

Lemma handle_select c m w :
  free_form m = false ->
  exists unit agent welcome,
    handle env c (Some m) w
    = (Normal (switch_to c unit agent welcome (random env (draws w))), bump w)
    /\ ((unit = "promoselect" /\ agent = "Promoselect Agent")
        \/ (unit = "suitup" /\ agent = "SuitUp Agent")).
Proof.
  unfold free_form. intros H. cbn [handle].
  destruct (Js.includes (Js.toLowerCase m) "promoselect").
  - eexists _, _, _. split; [reflexivity|]. left. split; reflexivity.
  - destruct (Js.includes (Js.toLowerCase m) "suitup"); [|discriminate].
    eexists _, _, _. split; [reflexivity|]. right. split; reflexivity.
Qed.

Lemma handle_free c m w :
  free_form m = true -> handle env c (Some m) w = freeform env c m w.
Proof.
  unfold free_form. intros H. cbn [handle].
  destruct (Js.includes (Js.toLowerCase m) "promoselect"); [discriminate|].
  destruct (Js.includes (Js.toLowerCase m) "suitup"); [discriminate|]. reflexivity.
Qed.

(** The search of the free-form branch ends normally, adds events to the
    trace and leaves the store alone. *)
Lemma search_branch unit keyword maxPrice fallback w :
  exists text w' added,
    (if String.eqb unit "promoselect" then searchAndFormatProducts env keyword maxPrice 3
     else if String.eqb unit "suitup" then searchAndFormatKits env keyword maxPrice 3
     else ret fallback) w = (Normal text, w')
    /\ trace w' = trace w ++ added /\ conversations w' = conversations w.
Proof.
  destruct (String.eqb unit "promoselect").
  - destruct (searchAndFormatProducts_trace env keyword maxPrice 3 w) as (text & w' & E & Ht).
    destruct (searchAndFormatProducts_total env keyword maxPrice 3 w)
      as (text2 & w2 & E2 & Hc & _).
    rewrite E in E2. injection E2 as <- <-. exists text, w'.
    destruct (readFileSync env "airtable/promo.csv");
      [destruct Ht as [Ht|Ht] | destruct Ht as [_ Ht]]; eauto.
  - destruct (String.eqb unit "suitup").
    + destruct (searchAndFormatKits_trace env keyword maxPrice 3 w) as (text & w' & E & Ht).
      destruct (searchAndFormatKits_total env keyword maxPrice 3 w)
        as (text2 & w2 & E2 & Hc & _).
      rewrite E in E2. injection E2 as <- <-. exists text, w'.
      destruct (readFileSync env "airtable/suitup.csv");
        [destruct Ht as [Ht|Ht] | destruct Ht as [_ Ht]]; eauto.
    + exists fallback, w, []. rewrite app_nil_r. auto.
Qed.

(** The free-form branch once the completion call has returned. *)
Lemma freeform_returns c m w completion :
  create env (List.length (trace w)) (Dialogue (systemPrompt c) m) = Some completion ->
  exists reply ctx' w' added,
    freeform env c m w
    = (Normal (push_message (with_context c ctx') reply (current_agent c)), w')
    /\ trace w' = trace w ++ Complete (Dialogue (systemPrompt c) m) :: added
    /\ conversations w' = conversations w
    /\ (if slots_filled (context c) then ctx' = context c
        else ctx' = extract_slots (context c) m /\ reply = reply_content completion
             /\ added = []).
Proof.
  intros Hcall. rewrite freeform_cases. cbv zeta. rewrite Hcall.
  fold (slots_filled (context c)). destruct (slots_filled (context c)).
  - destruct (search_branch (Js.or_empty (business_unit (context c)))
                (Js.or_empty (descripcion (context c)))
                (Some (budget_of (Js.or_empty (precio (context c)))))
                (reply_content completion)
                (log (Complete (Dialogue (systemPrompt c) m)) w))
      as (text & w' & added & E & Ht & Hc).
    rewrite E. exists text, (context c), w', added.
    split; [destruct c; reflexivity|]. split; [|split; [exact Hc | reflexivity]].
    rewrite Ht. cbn [trace log]. rewrite <- app_assoc. reflexivity.
  - eexists _, _, _, []. split; [reflexivity|]. repeat split.
Qed.

(** When the handler proper throws, and what it leaves then. *)
Lemma handle_outcome c message w :
  match handle env c message w with
  | (Throw _, w') =>
      conversations w' = conversations w
      /\ (message = None
          \/ exists m, message = Some m /\ free_form m = true
               /\ create env (List.length (trace w)) (Dialogue (systemPrompt c) m) = None)
  | (Normal _, _) =>
      exists m, message = Some m
        /\ (free_form m = true ->
            create env (List.length (trace w)) (Dialogue (systemPrompt c) m) <> None)
  end.
Proof.
  destruct message as [m|]; [|cbn; auto].
  destruct (free_form m) eqn:Hf.
  - rewrite (handle_free c m w Hf).
    destruct (create env (List.length (trace w)) (Dialogue (systemPrompt c) m))
      as [completion|] eqn:Hcall.
    + destruct (freeform_returns c m w completion Hcall) as (r & ctx' & w' & a & E & _).
      rewrite E. exists m. split; [reflexivity|]. intros _. congruence.
    + rewrite freeform_cases. cbv zeta. rewrite Hcall. split; [reflexivity|].
      right. exists m. auto.
  - destruct (handle_select c m w Hf) as (u & a & t & E & _). rewrite E.
    exists m. split; [reflexivity|]. intros H. congruence.
Qed.

(** What the handler proper does to a conversation. *)
Lemma handle_shape c message w c' w' :
  handle env c message w = (Normal c', w') ->
  conversation_id c' = conversation_id c
  /\ (exists m, messages c' = messages c ++ [m] /\ msg_agent m = current_agent c')
  /\ (events c' = events c
      \/ exists e, events c' = events c ++ [e] /\ ev_type e = "handoff"
                   /\ ev_agent e = current_agent c')
  /\ customer_name (context c') = customer_name (context c)
  /\ selected_products (context c') = selected_products (context c)
  /\ (current_agent c = agent_of (business_unit (context c)) ->
      current_agent c' = agent_of (business_unit (context c')))
  /\ conversations w' = conversations w.
Proof.
  destruct message as [m|]; [|discriminate].
  destruct (free_form m) eqn:Hf.
  - rewrite (handle_free c m w Hf).
    destruct (create env (List.length (trace w)) (Dialogue (systemPrompt c) m))
      as [completion|] eqn:Hcall.
    + destruct (freeform_returns c m w completion Hcall)
        as (r & ctx' & w2 & a & E & _ & Hc & Hctx).
      rewrite E. intros [= <- <-]. cbn [push_message with_context conversation_id messages
        events current_agent context].
      split; [reflexivity|]. split; [eexists; split; reflexivity|].
      split; [left; reflexivity|].
      assert (Hsame : customer_name ctx' = customer_name (context c)
                      /\ selected_products ctx' = selected_products (context c)
                      /\ business_unit ctx' = business_unit (context c)).
      { destruct (slots_filled (context c)); [subst ctx'; auto|].
        destruct Hctx as (-> & _). repeat split. }
      destruct Hsame as (H1 & H2 & H3). rewrite H1, H2, H3. auto.
    + rewrite freeform_cases. cbv zeta. rewrite Hcall. discriminate.
  - destruct (handle_select c m w Hf) as (u & ag & t & E & Hu). rewrite E.
    intros [= <- <-]. cbn [switch_to conversation_id messages events current_agent context
      business_unit customer_name selected_products conversations bump].
    split; [reflexivity|]. split; [eexists; split; reflexivity|].
    split; [right; eexists; repeat split|].
    split; [reflexivity|]. split; [reflexivity|]. split; [|reflexivity].
    intros _. destruct Hu as [[-> ->]|[-> ->]]; reflexivity.
Qed.

(** The events the handler proper adds, and when a table is read. *)
Lemma handle_trace c message w :
  exists added,
    trace (snd (handle env c message w)) = trace w ++ added
    /\ (forall path, In (Read path) added ->
          slots_filled (context c) = true
          /\ exists m, message = Some m /\ free_form m = true).
Proof.
  destruct message as [m|].
  2:{ exists []. rewrite app_nil_r. split; [reflexivity | intros ? []]. }
  destruct (free_form m) eqn:Hf.
  - rewrite (handle_free c m w Hf).
    destruct (create env (List.length (trace w)) (Dialogue (systemPrompt c) m))
      as [completion|] eqn:Hcall.
    + destruct (freeform_returns c m w completion Hcall)
        as (r & ctx' & w2 & a & E & Ht & _ & Hctx).
      rewrite E. cbn [snd]. eexists. split; [exact Ht|].
      intros path [Hin|Hin]; [discriminate|].
      destruct (slots_filled (context c)).
      * split; [reflexivity|]. eauto.
      * destruct Hctx as (_ & _ & ->). destruct Hin.
    + rewrite freeform_cases. cbv zeta. rewrite Hcall. cbn [snd trace log].
      eexists. split; [reflexivity|]. intros path [Hin|[]]. discriminate.
  - destruct (handle_select c m w Hf) as (u & ag & t & E & _). rewrite E.
    exists []. rewrite app_nil_r. split; [reflexivity | intros ? []].
Qed.

(** The answer to a request whose message is a string or missing. *)
Lemma POST_outcome (req : Request) (w : World) :
  exists response w',
    POST env req w = (Normal response, w')
    /\ match response with
       | Json status body => status = 200 /\ r_conversation_id body = resolved_id env req w
       | JsonError status error _ =>
           status = 500 /\ error = "Internal server error"
           /\ conversations w' = conversations w
       end
    /\ ((exists status error message, response = JsonError status error message) <->
        initial_greeting env req w = false
        /\ (req_message req = None
            \/ exists m, req_message req = Some m /\ free_form m = true
                 /\ create env (List.length (trace w))
                      (Dialogue (systemPrompt (working_conversation env req w)) m) = None)).
Proof.
  rewrite POST_cases.
  destruct (handling_world_facts req w) as [Ht Hc].
  destruct (initial_greeting env req w).
  - eexists _, _. split; [reflexivity|]. split; [split; reflexivity|].
    split; [intros (? & ? & ? & [=]) | intros [[=] _]].
  - pose proof (handle_outcome (working_conversation env req w) (req_message req)
                  (handling_world env req w)) as Ho.
    rewrite Ht in Ho.
    destruct (handle env (working_conversation env req w) (req_message req)
                (handling_world env req w)) as [[c'|e] w1].
    + eexists _, _. split; [reflexivity|]. split; [split; reflexivity|].
      destruct Ho as (m & Hm & Hcall). split.
      * intros (? & ? & ? & [=]).
      * intros [_ [Hnone|(m' & Hm' & Hf & Hrej)]]; [congruence|].
        rewrite Hm in Hm'. injection Hm' as <-. exfalso. exact (Hcall Hf Hrej).
    + destruct Ho as [Hst Hwhy]. eexists _, _. split; [reflexivity|].
      split; [repeat split; congruence|].
      split; [intros _; split; [reflexivity | exact Hwhy] | intros _; eauto].
Qed.

(** A body whose message is a string or missing is handled as its request. *)
Lemma wire_typed (id : option string) (message : option string) (w : World) :
  Wire.POST env (Wire.Fields id (Wire.Text <$> message)) w
  = POST env {| req_message := message; req_conversation_id := id |} w.
Proof.
  unfold Wire.POST, POST, Wire.POST_try, POST_try, try_catch, bind.
  cbn [req_message req_conversation_id].
  destruct (if Js.truthy_opt id then ret (Js.or_empty id) else generateId env) as [[convId|e] w0];
    [|reflexivity].
  destruct (conversations_get convId w0) as [[[stored|]|e] w1]; [| |reflexivity].
  - destruct message as [m|]; reflexivity.
  - destruct (generateId env w1) as [[evId|e] w2]; [|reflexivity].
    destruct message as [m|]; [|reflexivity].
    unfold Wire.greeting, greeting, ret. cbn [Wire.truthy fmap option_fmap option_map].
    destruct (Js.truthy m) eqn:Hm; cbn [negb orb]; [|reflexivity].
    destruct (Js.includes (Js.toLowerCase m) "hola" || Js.includes (Js.toLowerCase m) "hello");
      reflexivity.
Qed.

(** A body whose message is no string: the answer is the selector when the
    conversation is new and the message falsy, and a 500 otherwise; the
    store is touched in the first case only. *)
Lemma wire_untyped (id : option string) (message : option Wire.value) (w : World) :
  Wire.text message = None ->
  let req := Wire.typed id message in
  if initial_greeting env req w && negb (Wire.truthy message) then
    Wire.POST env (Wire.Fields id message) w = POST env req w
  else
    exists w',
      Wire.POST env (Wire.Fields id message) w
      = (Normal (JsonError 500 "Internal server error"
                   (error_message (Wire.no_toLowerCase message))), w')
      /\ conversations w' = conversations w.
Proof.
  intros Htext req. subst req. unfold initial_greeting, resolved_id, Wire.typed.
  cbn [req_message req_conversation_id]. rewrite Htext. cbn [greeting].
  unfold Wire.POST, POST, Wire.POST_try, POST_try, try_catch, bind, generateId,
    conversations_get, ret. cbn [req_message req_conversation_id].
  assert (Hhandle : forall c w0,
            Wire.handle env c message w0 = (Throw (Wire.no_toLowerCase message), w0)).
  { intros c w0. destruct message as [[| | | s| |]|]; try reflexivity. discriminate. }
  destruct (Js.truthy_opt id); cbn [conversations bump].
  - destruct (conversations w !! Js.or_empty id) as [stored|]; cbn [andb].
    + rewrite Hhandle. eexists. split; reflexivity.
    + destruct (Wire.truthy message) eqn:Htruthy; cbn [negb].
      * unfold Wire.greeting. rewrite Htruthy. cbn [negb].
        destruct message as [[| | | s| |]|]; try discriminate;
          eexists; split; reflexivity.
      * unfold Wire.greeting. rewrite Htruthy. cbn [negb]. reflexivity.
  - destruct (conversations w !! random env (draws w)) as [stored|]; cbn [andb].
    + rewrite Hhandle. eexists. split; reflexivity.
    + destruct (Wire.truthy message) eqn:Htruthy; cbn [negb].
      * unfold Wire.greeting. rewrite Htruthy. cbn [negb].
        destruct message as [[| | | s| |]|]; try discriminate;
          eexists; split; reflexivity.
      * unfold Wire.greeting. rewrite Htruthy. cbn [negb]. reflexivity.
Qed.

(** X7. Every request is answered, whatever its body: with status 200,
    under the id the request is served under, or with status 500. The
    answer is 500 exactly when the body is no JSON text, or is [null], or
    its message is truthy and no string (a number, [true], an array, an
    object), or the request is not answered by the initial greeting rule and
    either its message is no string (missing, [null], [false], 0) or it is
    free-form and has its completion call rejected. The store is then as it
    was before the request. *)
Theorem POST_answers_200_or_500 (body : Wire.Body) (w : World) :
  exists response w',
    Wire.POST env body w = (Normal response, w')
    /\ match response with
       | Json status answer =>
           status = 200
           /\ exists id message,
                body = Wire.Fields id message
                /\ r_conversation_id answer = resolved_id env (Wire.typed id message) w
       | JsonError status error _ =>
           status = 500 /\ error = "Internal server error"
           /\ conversations w' = conversations w
       end
    /\ ((exists status error message, response = JsonError status error message) <->
        match body with
        | Wire.Fields id message =>
            let req := Wire.typed id message in
            (Wire.truthy message = true /\ Wire.text message = None)
            \/ (initial_greeting env req w = false
                /\ (Wire.text message = None
                    \/ exists m, message = Some (Wire.Text m) /\ free_form m = true
                         /\ create env (List.length (trace w))
                              (Dialogue (systemPrompt (working_conversation env req w)) m)
                            = None))
        | _ => True
        end).
Proof.
  destruct body as [why| |id message].
  - eexists _, _. split; [reflexivity|]. split; [repeat split|].
    split; [auto | intros _; eauto].
  - eexists _, _. split; [reflexivity|]. split; [repeat split|].
    split; [auto | intros _; eauto].
  - cbv zeta. destruct (Wire.text message) as [m|] eqn:Htext.
    + assert (message = Some (Wire.Text m)) as ->.
      { destruct message as [[| | | s| |]|]; try discriminate.
        injection Htext as ->. reflexivity. }
      change (Some (Wire.Text m)) with (Wire.Text <$> Some m) at 1.
      rewrite wire_typed.
      destruct (POST_outcome {| req_message := Some m; req_conversation_id := id |} w)
        as (response & w' & E & Hshape & Hiff).
      exists response, w'. split; [exact E|]. split.
      * destruct response; [|exact Hshape]. destruct Hshape as [-> Hid].
        split; [reflexivity|]. eexists _, _. split; [reflexivity | exact Hid].
      * rewrite Hiff. cbn [req_message]. unfold Wire.typed. cbn [Wire.text].
        split.
        -- intros [Hg [Hnone|(m' & [= <-] & Hf & Hrej)]]; [discriminate|].
           right. split; [exact Hg|]. right. eauto.
        -- intros [[_ [=]]|[Hg [[=]|(m' & [= <-] & Hf & Hrej)]]].
           split; [exact Hg|]. right. eauto.
    + pose proof (wire_untyped id message w Htext) as Hraw. cbv zeta in Hraw.
      destruct (initial_greeting env (Wire.typed id message) w) eqn:Hg;
        destruct (Wire.truthy message) eqn:Htruthy; cbn [andb negb] in Hraw.
      * destruct Hraw as (w' & E & Hst). eexists _, _. split; [exact E|].
        split; [repeat split; exact Hst|].
        split; [intros _; left; split; reflexivity | intros _; eauto].
      * rewrite Hraw.
        destruct (POST_outcome (Wire.typed id message) w)
          as (response & w' & E & Hshape & Hiff).
        exists response, w'. split; [exact E|]. split.
        -- destruct response; [|exact Hshape]. destruct Hshape as [-> Hid].
           split; [reflexivity|]. eexists _, _. split; [reflexivity | exact Hid].
        -- rewrite Hiff, Hg. split; [intros [[=] _] | intros [[[=] _]|[[=] _]]].
      * destruct Hraw as (w' & E & Hst). eexists _, _. split; [exact E|].
        split; [repeat split; exact Hst|].
        split; [intros _; left; split; reflexivity | intros _; eauto].
      * destruct Hraw as (w' & E & Hst). eexists _, _. split; [exact E|].
        split; [repeat split; exact Hst|].
        split; [intros _; right; split; [reflexivity | left; reflexivity] | intros _; eauto].
Qed.

(** X8. A request answered with a conversation appends exactly one message
    to the log of the conversation it works on, tagged with the agent that
    is current afterwards, and at most one event, a handoff; the answer is
    the conversation as it is stored under the id; and no other conversation
    of the store is touched. *)
Theorem POST_appends_one_message
    (req : Request) (w w' : World) (status : nat) (body : Payload)
    (Hanswer : POST env req w = (Normal (Json status body), w')) :
  (exists m, r_messages body = messages (working_conversation env req w) ++ [m]
             /\ msg_agent m = r_current_agent body)
  /\ (r_events body = events (working_conversation env req w)
      \/ exists e, r_events body = events (working_conversation env req w) ++ [e]
                   /\ ev_type e = "handoff" /\ ev_agent e = r_current_agent body)
  /\ (exists conv', conversations w' !! resolved_id env req w = Some conv'
                    /\ body = payload (resolved_id env req w) conv')
  /\ (forall key, key <> resolved_id env req w ->
                  conversations w' !! key = conversations w !! key).
Proof.
  rewrite POST_cases in Hanswer.
  destruct (handling_world_facts req w) as [Ht Hc].
  destruct (initial_greeting env req w) eqn:Hg.
  - injection Hanswer as <- <- <-.
    cbn [payload r_messages r_events r_current_agent push_message messages events
      current_agent conversations put].
    split.
    { eexists. split; [reflexivity|]. unfold initial_greeting, working_conversation in *.
      destruct (conversations w !! _); [discriminate | reflexivity]. }
    split; [left; reflexivity|]. split.
    + eexists. split; [apply lookup_insert_eq | reflexivity].
    + intros key Hkey. rewrite lookup_insert_ne by congruence. rewrite Hc. reflexivity.
  - destruct (handle env (working_conversation env req w) (req_message req)
                (handling_world env req w)) as [[c'|e] w1] eqn:Hh; [|discriminate].
    injection Hanswer as <- <- <-.
    destruct (handle_shape _ _ _ _ _ Hh) as (_ & Hm & He & _ & _ & _ & Hst).
    cbn [payload r_messages r_events r_current_agent conversations put].
    split; [exact Hm|]. split; [exact He|]. split.
    + eexists. split; [apply lookup_insert_eq | reflexivity].
    + intros key Hkey. rewrite lookup_insert_ne by congruence. rewrite Hst, Hc. reflexivity.
Qed.

End EndpointFacts.

(** X7 on three bodies for a conversation that does not exist yet: a body
    that is no JSON text and the message 5 get 500 and leave the store
    empty; the message 0, which is falsy, gets the selector. *)
Example POST_answers_200_or_500_example :
  let env0 := sample_env (Some [Some "Claro."]) in
  (exists w',
     Wire.POST env0 (Wire.NotJson "Unexpected token") boot
     = (Normal (JsonError 500 "Internal server error" "Unexpected token"), w')
     /\ conversations w' = ∅)
  /\ (exists w',
        Wire.POST env0 (Wire.Fields (Some "c1") (Some (Wire.Number 5))) boot
        = (Normal (JsonError 500 "Internal server error"
                     "message.toLowerCase is not a function"), w')
        /\ conversations w' = ∅)
  /\ (exists body w',
        Wire.POST env0 (Wire.Fields (Some "c1") (Some (Wire.Number 0))) boot
        = (Normal (Json 200 body), w')
        /\ r_messages body
           = [ {| msg_content := DISPLAY_BUSINESS_SELECTOR; msg_agent := "Triage Agent" |} ]).
Proof.
  cbv zeta. split; [|split].
  - eexists. split; reflexivity.
  - eexists. split; reflexivity.
  - eexists _, _. split; reflexivity.
Qed.

Lemma POST_appends_one_message_witness :
  exists body w' m,
    POST (sample_env (Some [Some "Claro."]))
      {| req_message := Some "quiero tazas"; req_conversation_id := Some "c1" |} boot
    = (Normal (Json 200 body), w')
    /\ r_messages body
       = messages (working_conversation (sample_env (Some [Some "Claro."]))
                     {| req_message := Some "quiero tazas";
                        req_conversation_id := Some "c1" |} boot) ++ [m].
Proof.
  destruct (POST (sample_env (Some [Some "Claro."]))
              {| req_message := Some "quiero tazas"; req_conversation_id := Some "c1" |} boot)
    as [r w'] eqn:E.
  assert (Hr : exists body, r = Normal (Json 200 body)).
  { vm_compute in E. injection E as <- _. eexists. reflexivity. }
  destruct Hr as (body & ->).
  destruct (POST_appends_one_message (sample_env (Some [Some "Claro."])) _ _ _ _ _ E)
    as ((m & Hm & _) & _).
  exists body, w', m. split; [reflexivity | exact Hm].
Defined.

Section EndpointInvariants.

Variable env : Env.

Lemma agent_of_known ctx :
  wf_context ctx ->
  In (agent_of (business_unit ctx)) ["Triage Agent"; "Promoselect Agent"; "SuitUp Agent"].
Proof.
  intros ([ -> | [ -> | -> ] ] & _); simpl; auto.
Qed.

Lemma new_conversation_working convId evId :
  sound_working convId (new_conversation convId evId).
Proof.
  split; [reflexivity|]. split; [apply new_conversation_wf|].
  split; [reflexivity|]. split; [constructor|].
  split; [eexists _, _; repeat split|]. split; reflexivity.
Qed.

Lemma handle_keeps_working key c message w c' w' :
  sound_working key c ->
  handle env c message w = (Normal c', w') ->
  sound_conversation key c'.
Proof.
  intros (Hid & Hwf & Hagent & Hmsgs & (e & rest & Hev & Het & Hec) & Hsel & Hname) Hh.
  destruct (handle_shape env _ _ _ _ _ Hh) as (Hid' & (m & Hm & Hma) & He & Hn' & Hs' & Ha' & _).
  pose proof (handle_sound env c message w) as [_ Hres].
  rewrite Hh in Hres. destruct (Hres c' eq_refl Hwf) as [Hwf' _].
  specialize (Ha' Hagent).
  split; [|rewrite Hm; intros H; apply app_eq_nil in H as [_ H]; discriminate].
  split; [congruence|]. split; [exact Hwf'|]. split; [exact Ha'|].
  split.
  { rewrite Hm. apply Forall_app. split; [exact Hmsgs|]. constructor; [|constructor].
    rewrite Hma, Ha'. apply agent_of_known, Hwf'. }
  split.
  { destruct He as [->|(e' & -> & _)]; rewrite Hev; eexists _, _; eauto. }
  split; congruence.
Qed.

Lemma greeting_keeps_working key c :
  sound_working key c ->
  sound_conversation key (push_message c DISPLAY_BUSINESS_SELECTOR "Triage Agent").
Proof.
  intros (Hid & Hwf & Hagent & Hmsgs & Hev & Hsel & Hname).
  split; [|cbn; intros H; apply app_eq_nil in H as [_ H]; discriminate].
  split; [exact Hid|]. split; [exact Hwf|]. split; [exact Hagent|].
  split; [|split; [exact Hev | split; assumption]].
  cbn [messages push_message]. apply Forall_app. split; [exact Hmsgs|].
  constructor; [simpl; auto | constructor].
Qed.

Lemma working_conversation_sound req w :
  sound_store w ->
  sound_working (resolved_id env req w) (working_conversation env req w).
Proof.
  intros Hs. unfold working_conversation.
  destruct (conversations w !! resolved_id env req w) as [stored|] eqn:E.
  - apply (Hs _ _ E).
  - apply new_conversation_working.
Qed.

Lemma sound_store_put w w' key conv :
  conversations w' = conversations w -> sound_store w -> sound_conversation key conv ->
  sound_store (put key conv w').
Proof.
  intros Hc Hs Hconv k c. cbn [conversations put]. rewrite Hc.
  destruct (decide (key = k)) as [->|Hne].
  - rewrite lookup_insert_eq. intros [= <-]. exact Hconv.
  - rewrite lookup_insert_ne by assumption. apply Hs.
Qed.

Lemma POST_sound req w : sound_store w -> sound_store (after env req w).
Proof.
  intros Hs. unfold after. rewrite POST_cases.
  destruct (handling_world_facts env req w) as [_ Hc].
  pose proof (working_conversation_sound req w Hs) as Hw.
  destruct (initial_greeting env req w).
  - cbn [snd]. apply (sound_store_put w); [exact Hc | exact Hs |].
    apply greeting_keeps_working, Hw.
  - pose proof (handle_sound env (working_conversation env req w) (req_message req)
                  (handling_world env req w)) as [Hst _].
    destruct (handle env (working_conversation env req w) (req_message req)
                (handling_world env req w)) as [[c'|e] w1] eqn:Hh; cbn [snd] in *.
    + apply (sound_store_put w); [congruence | exact Hs |].
      apply (handle_keeps_working _ _ _ _ _ _ Hw Hh).
    + intros k c. rewrite Hst, Hc. apply Hs.
Qed.

Lemma run_sound reqs : forall w, sound_store w -> sound_store (run env reqs w).
Proof.
  induction reqs as [|req reqs IH]; intros w Hs; [exact Hs|].
  apply IH, POST_sound, Hs.
Qed.

(** X9. What the store holds, after any sequence of requests from start-up.
    A conversation is stored under its own id; its current agent is the
    agent of its business unit (the triage agent while no unit is set); its
    unit is one of the two units or unset, its description longer than
    three, its budget a run of digits; it has at least one message and every
    message comes from one of the three agents; its first event is the
    start-up event; and [selected_products] and [customer_name] are never
    filled. *)
Theorem stored_conversations_sound
    (reqs : list Request) (key : string) (conv : ConversationState)
    (Hstored : conversations (run env reqs boot) !! key = Some conv) :
  sound_conversation key conv.
Proof.
  apply (run_sound reqs boot); [|exact Hstored].
  intros k c. cbn. rewrite lookup_empty. discriminate.
Qed.

(** X10. A request reads a table only on the free-form path of a
    conversation whose business unit, description and budget were all filled
    before the request: the events it adds to the trace hold a read only
    then. *)
Theorem tables_read_only_when_slots_filled (req : Request) (w : World) :
  exists added,
    trace (snd (POST env req w)) = trace w ++ added
    /\ (forall path, In (Read path) added ->
          initial_greeting env req w = false
          /\ slots_filled (context (working_conversation env req w)) = true
          /\ exists m, req_message req = Some m /\ free_form m = true).
Proof.
  rewrite POST_cases. destruct (handling_world_facts env req w) as [Ht _].
  destruct (initial_greeting env req w).
  - exists []. cbn [snd trace put]. rewrite app_nil_r. split; [exact Ht | intros ? []].
  - destruct (handle_trace env (working_conversation env req w) (req_message req)
                (handling_world env req w)) as (added & Hadd & Hread).
    exists added. rewrite Ht in Hadd. split.
    + destruct (handle env _ _ _) as [[c'|e] w1]; exact Hadd.
    + intros path Hin. split; [reflexivity|]. apply (Hread path Hin).
Qed.

(** X11. The free-form path while a slot is missing. When the request is
    not answered by the initial greeting rule, its message holds no selector
    token, one of the three slots of its conversation is empty and the
    completion call returns, the answer has status 200 and one more message,
    under the current agent: the content of the first choice when that is a
    non-empty string, and the fixed apology when there is no choice or its
    content is null or empty. The only event is that call; a description
    that is not set becomes the whole message when the message is longer
    than three and stays unset otherwise; a budget that is not set becomes
    the first run of digits of the message, if there is one; business unit
    and agent are unchanged. *)
Theorem freeform_reply_when_slot_missing
    (req : Request) (w : World) (m : string) (completion : list (option string)) :
  let convId := resolved_id env req w in
  let conv := working_conversation env req w in
  let w0 := handling_world env req w in
  let ask := Dialogue (systemPrompt conv) m in
  initial_greeting env req w = false ->
  req_message req = Some m ->
  free_form m = true ->
  slots_filled (context conv) = false ->
  create env (List.length (trace w)) ask = Some completion ->
  exists body conv' reply,
    POST env req w = (Normal (Json 200 body), put convId conv' (log (Complete ask) w0))
    /\ body = payload convId conv'
    /\ r_messages body
       = messages conv ++ [ {| msg_content := reply; msg_agent := current_agent conv |} ]
    /\ messages conv' = r_messages body
    /\ (forall content rest,
          completion = Some content :: rest -> content <> EmptyString -> reply = content)
    /\ (completion = [] \/ (exists rest, completion = None :: rest)
        \/ (exists rest, completion = Some EmptyString :: rest) ->
        reply = FALLBACK)
    /\ (descripcion (context conv) = None ->
        descripcion (context conv') = if 3 <? String.length m then Some m else None)
    /\ (precio (context conv) = None -> precio (context conv') = Js.match_digits m)
    /\ business_unit (context conv') = business_unit (context conv)
    /\ current_agent conv' = current_agent conv.
Proof.
  intros convId conv w0 ask Hg Hm Hf Hslots Hcall. subst convId conv w0 ask.
  destruct (handling_world_facts env req w) as [Ht _].
  rewrite POST_cases, Hg, Hm.
  rewrite (handle_free env _ m _ Hf), freeform_cases. cbv zeta.
  rewrite Ht, Hcall.
  fold (slots_filled (context (working_conversation env req w))). rewrite Hslots.
  eexists _, _, _. split; [reflexivity|]. split; [reflexivity|].
  split; [reflexivity|]. split; [reflexivity|].
  split.
  { intros content rest -> Hne. destruct content; [congruence | reflexivity]. }
  split.
  { intros [->|[[rest ->]|[rest ->]]]; reflexivity. }
  cbn [context push_message with_context extract_slots descripcion precio business_unit
    current_agent].
  split; [intros ->; reflexivity|]. split; [|split; reflexivity].
  intros ->. cbn. destruct (Js.match_digits m); reflexivity.
Qed.

End EndpointInvariants.

Lemma stored_conversations_sound_witness :
  exists conv,
    conversations
      (run (sample_env (Some [Some "Claro."]))
         [ {| req_message := Some "Hola"; req_conversation_id := Some "c1" |};
           {| req_message := Some "SuitUp"; req_conversation_id := Some "c1" |} ]
         boot) !! "c1" = Some conv
    /\ current_agent conv = agent_of (business_unit (context conv))
    /\ conversation_id conv = "c1".
Proof.
  destruct (conversations
              (run (sample_env (Some [Some "Claro."]))
                 [ {| req_message := Some "Hola"; req_conversation_id := Some "c1" |};
                   {| req_message := Some "SuitUp"; req_conversation_id := Some "c1" |} ]
                 boot) !! "c1") as [conv|] eqn:E; [|vm_compute in E; discriminate].
  destruct (stored_conversations_sound (sample_env (Some [Some "Claro."])) _ "c1" conv E)
    as ((Hid & _ & Hagent & _) & _).
  exists conv. auto.
Defined.

(** X11 on a first message "busco 20 tazas": the endpoint's words are the
    reply, the message becomes the description and "20" the budget. *)
Lemma freeform_reply_when_slot_missing_witness :
  exists body w',
    POST (sample_env (Some [Some "Claro, dime mas."]))
      {| req_message := Some "busco 20 tazas"; req_conversation_id := Some "c1" |} boot
    = (Normal (Json 200 body), w')
    /\ descripcion (r_context body) = Some "busco 20 tazas"
    /\ precio (r_context body) = Some "20"
    /\ r_messages body
       = [ {| msg_content := "Claro, dime mas."; msg_agent := "Triage Agent" |} ].
Proof.
  destruct (freeform_reply_when_slot_missing (sample_env (Some [Some "Claro, dime mas."]))
              {| req_message := Some "busco 20 tazas"; req_conversation_id := Some "c1" |}
              boot "busco 20 tazas" [Some "Claro, dime mas."])
    as (body & conv' & reply & Hpost & -> & Hmsgs & _ & Hreply & _ & Hd & Hp & _);
    try reflexivity.
  eexists _, _. split; [exact Hpost|]. cbn [payload r_context].
  split; [apply Hd; reflexivity|]. split; [apply Hp; reflexivity|].
  cbn [payload r_messages] in *. rewrite Hmsgs.
  rewrite (Hreply "Claro, dime mas." [] eq_refl); [reflexivity | discriminate].
Defined.

Section LeftoverFunctions.

Lemma substring_to_length (n : nat) (s : string) : String.length (substring_to n s) <= n.
Proof.
  revert s. induction n as [|n IH]; intros s; [reflexivity|].
  destruct s as [|c r]; simpl; [lia|]. specialize (IH r). lia.
Qed.

Lemma parse_lines_take (type : resultType) (limit : nat) (lines : list string) :
  forall results,
    List.length results < Nat.max limit 1 ->
    parse_lines type limit results lines
    = results ++ take (Nat.max limit 1 - List.length results)
                   (List.map (placeholder type) (List.filter marked lines)).
Proof.
  induction lines as [|line rest IH]; intros results Hroom; simpl.
  - rewrite take_nil, app_nil_r. reflexivity.
  - destruct (marked line); simpl; [|apply IH, Hroom].
    rewrite length_app. simpl.
    destruct (Nat.leb_spec limit (List.length results + 1)) as [Hfull|Hmore].
    + replace (Nat.max limit 1 - List.length results) with 1 by lia. reflexivity.
    + rewrite IH by (rewrite length_app; simpl; lia).
      rewrite length_app. simpl. rewrite <- app_assoc. simpl.
      replace (Nat.max limit 1 - List.length results)
        with (S (Nat.max limit 1 - (List.length results + 1))) by lia.
      reflexivity.
Qed.

(** X12. [parseVectorSearchResults] returns one placeholder for each of the
    first lines of the text that hold a marker ("nombre", "Producto:" or
    "Kit:"), in order, up to [limit] of them, and one for limit 0, where the
    length test comes too late; every placeholder is named after the first
    50 characters of its line. *)
Theorem parsed_vector_results (content : string) (type : resultType) (limit : nat) :
  parseVectorSearchResults content type limit
  = take (Nat.max limit 1)
      (List.map (placeholder type) (List.filter marked (Js.split Js.LF content)))
  /\ List.length (parseVectorSearchResults content type limit) <= Nat.max limit 1
  /\ Forall (fun r => exists line name,
               In line (Js.split Js.LF content) /\ marked line = true
               /\ placeholder_name r = Some name
               /\ Js.startsWith line name = true /\ String.length name <= 50)
       (parseVectorSearchResults content type limit).
Proof.
  assert (E : parseVectorSearchResults content type limit
              = take (Nat.max limit 1)
                  (List.map (placeholder type)
                     (List.filter marked (Js.split Js.LF content)))).
  { unfold parseVectorSearchResults. rewrite parse_lines_take by (simpl; lia).
    cbn [app List.length]. rewrite Nat.sub_0_r. reflexivity. }
  split; [exact E|]. split; [rewrite E, length_take; lia|].
  rewrite E. apply Forall_forall. intros r Hr.
  apply elem_of_take in Hr as (i & Hi & _).
  apply list_elem_of_lookup_2, list_elem_of_In in Hi.
  apply in_map_iff in Hi as (line & <- & Hline).
  apply filter_In in Hline as [Hin Hm].
  exists line, (substring_to 50 line). split; [exact Hin|]. split; [exact Hm|].
  split; [destruct type; reflexivity|]. split; [|apply substring_to_length].
  clear. generalize 50. intros n. revert line.
  induction n as [|n IH]; intros [|c r]; try reflexivity.
  cbn [substring_to Js.startsWith]. rewrite Ascii.eqb_refl. apply IH.
Qed.

Example parsed_vector_results_example :
  List.map placeholder_name
    (parseVectorSearchResults ("Producto: Taza" +:+ nl +:+ "nada" +:+ nl +:+ "Kit: Oficina")
       Kits 0)
  = [Some "Producto: Taza"].
Proof. vm_compute. reflexivity. Qed.

Variable env : Env.
Variable suffix : nat -> string.

Lemma csvToJsonl_cases path type w :
  csvToJsonl env path type w =
  match readFileSync env path with
  | Some csv =>
      (Normal (jsonl_loop type (Csv.headers_of (Js.split Js.LF csv))
                 (drop 1 (Js.split Js.LF csv))), log (Read path) w)
  | None => (Throw (ENOENT path), log (Read path) w)
  end.
Proof.
  unfold csvToJsonl, bind, readFile, ret. destruct (readFileSync env path); reflexivity.
Qed.

(** X13. [setupVectorStores] sets both module variables or neither. With
    both already set it returns them and touches nothing. Otherwise, when
    both tables can be read it sets both to fresh mock ids and returns them,
    after which a further call returns the same ids and touches nothing;
    when the products table cannot be read it returns two nulls, leaves the
    variables as they were and does not try the kits table; when only the
    kits table cannot be read it returns two nulls and leaves the variables
    as they were. *)
Theorem vector_stores_all_or_nothing (ids : VectorStoreIds) (w : World) :
  exists returned ids' w',
    setupVectorStores env suffix ids w = (Normal (returned, ids'), w')
    /\ (if both_set ids then returned = ids /\ ids' = ids /\ w' = w
        else
          match readFileSync env "airtable/promo.csv", readFileSync env "airtable/suitup.csv" with
          | Some _, Some _ =>
              returned = ids'
              /\ ids' = {| promoVectorStoreId := Some ("vs_mock_" +:+ suffix (draws w));
                           suitupVectorStoreId := Some ("vs_mock_" +:+ suffix (S (draws w))) |}
              /\ trace w' = trace w ++ [Read "airtable/promo.csv"; Read "airtable/suitup.csv"]
              /\ setupVectorStores env suffix ids' w' = (Normal (ids', ids'), w')
          | None, _ =>
              returned = no_ids /\ ids' = ids
              /\ trace w' = trace w ++ [Read "airtable/promo.csv"]
          | Some _, None =>
              returned = no_ids /\ ids' = ids
              /\ trace w' = trace w ++ [Read "airtable/promo.csv"; Read "airtable/suitup.csv"]
          end).
Proof.
  unfold setupVectorStores. fold (both_set ids).
  destruct (both_set ids); [eexists _, _, _; repeat split|].
  unfold try_catch, bind. rewrite csvToJsonl_cases.
  destruct (readFileSync env "airtable/promo.csv") as [csv1|].
  - rewrite csvToJsonl_cases.
    destruct (readFileSync env "airtable/suitup.csv") as [csv2|].
    + unfold createVectorStore, ret. cbn [draws bump log].
      eexists _, _, _. split; [reflexivity|]. split; [reflexivity|].
      split; [reflexivity|]. split.
      * cbn [trace bump log]. rewrite <- app_assoc. reflexivity.
      * reflexivity.
    + eexists _, _, _. split; [reflexivity|]. repeat split.
      cbn [trace log]. rewrite <- app_assoc. reflexivity.
  - eexists _, _, _. split; [reflexivity|]. repeat split.
Qed.

End LeftoverFunctions.

Section OldRouteFacts.

Variable env : Env.

Lemma old_search_cases path bound fields keyword maxPrice limit w :
  OldRoute.search path bound fields env keyword maxPrice limit w =
  (Normal match readFileSync env path with
          | Some csv =>
              OldRoute.search_loop fields (Js.split Js.COMMA (hd "" (Js.split Js.LF csv)))
                keyword maxPrice limit [] (Csv.data_lines bound (Js.split Js.LF csv))
          | None => []
          end,
   log (Read path) w).
Proof.
  unfold OldRoute.search, try_catch, bind, readFile, ret.
  destruct (readFileSync env path); reflexivity.
Qed.

Lemma old_search_loop_take fields headers keyword maxPrice limit lines :
  forall acc,
    List.length acc < limit ->
    OldRoute.search_loop fields headers keyword maxPrice limit acc lines
    = acc ++ take (limit - List.length acc)
               (List.filter (fun row => OldRoute.matchesKeyword fields row keyword
                                        && OldRoute.withinBudget row maxPrice)
                  (List.map (OldRoute.row_of headers)
                     (List.filter (fun line => negb (Csv.blank line)) lines))).
Proof.
  induction lines as [|line rest IH]; intros acc Hroom; simpl.
  - rewrite take_nil, app_nil_r. reflexivity.
  - destruct (Csv.blank line); simpl; [apply IH, Hroom|].
    destruct (OldRoute.matchesKeyword _ _ _ && OldRoute.withinBudget _ _); simpl.
    + rewrite length_app. simpl.
      destruct (Nat.leb_spec limit (List.length acc + 1)) as [Hfull|Hmore].
      * replace (limit - List.length acc) with 1 by lia. reflexivity.
      * rewrite IH by (rewrite length_app; simpl; lia).
        rewrite length_app. simpl. rewrite <- app_assoc. simpl.
        replace (limit - List.length acc) with (S (limit - (List.length acc + 1))) by lia.
        reflexivity.
    + destruct (Nat.leb_spec limit (List.length acc)) as [Hfull|Hmore]; [lia|].
      apply IH, Hroom.
Qed.

Lemma old_search_loop_zero fields headers keyword maxPrice lines :
  forall acc,
    OldRoute.search_loop fields headers keyword maxPrice 0 acc lines
    = acc ++ List.filter (fun row => OldRoute.matchesKeyword fields row keyword
                                     && OldRoute.withinBudget row maxPrice)
               (take 1 (List.map (OldRoute.row_of headers)
                          (List.filter (fun line => negb (Csv.blank line)) lines))).
Proof.
  induction lines as [|line rest IH]; intros acc; simpl.
  - rewrite app_nil_r. reflexivity.
  - destruct (Csv.blank line); simpl; [apply IH|].
    destruct (OldRoute.matchesKeyword _ _ _ && OldRoute.withinBudget _ _);
      [reflexivity | rewrite app_nil_r; reflexivity].
Qed.

(** X14. The single search tier of the older route never throws, whatever
    the limit: it ends normally after one read of its table, with at most
    max(limit, 1) rows, and with no rows when the table cannot be read. For
    a limit of at least 1 it returns, in scan order, the first [limit] rows
    among the lines before its bound that pass its keyword and price tests,
    a row without a name included. For a limit of 0 it looks at the first
    line that is not blank and returns its row if that passes. *)
Theorem old_tier_bounded_never_throws
    (path : string) (bound : nat) (fields : list string) (keyword : string)
    (maxPrice : option Num.number) (limit : nat) (w : World) :
  exists rows,
    OldRoute.search path bound fields env keyword maxPrice limit w
    = (Normal rows, log (Read path) w)
    /\ List.length rows <= Nat.max limit 1
    /\ match readFileSync env path with
       | None => rows = []
       | Some csv =>
           let passes row := OldRoute.matchesKeyword fields row keyword
                             && OldRoute.withinBudget row maxPrice in
           let scanned :=
             List.map (OldRoute.row_of (Js.split Js.COMMA (hd "" (Js.split Js.LF csv))))
               (List.filter (fun line => negb (Csv.blank line))
                  (Csv.data_lines bound (Js.split Js.LF csv))) in
           (1 <= limit -> rows = take limit (List.filter passes scanned))
           /\ (limit = 0 -> rows = List.filter passes (take 1 scanned))
       end.
Proof.
  rewrite old_search_cases. eexists. split; [reflexivity|].
  destruct (readFileSync env path) as [csv|]; [|split; [simpl; lia | reflexivity]].
  cbv zeta. destruct limit as [|n].
  - rewrite old_search_loop_zero. cbn [app]. split; [|split; [lia | reflexivity]].
    etransitivity; [apply List.filter_length_le|]. rewrite length_take. lia.
  - rewrite old_search_loop_take by (simpl; lia). cbn [app List.length].
    rewrite Nat.sub_0_r, length_take. split; [lia|]. split; [reflexivity | discriminate].
Qed.

(** X15. The two routes disagree on a row without a price. Under a ceiling
    that is above zero, the older tier counts the missing price as 0 and
    lets the row pass; the precise tier of the route reads the missing price
    as NaN and drops the row. *)
Theorem unpriced_row_old_passes_new_drops
    (row : gmap string string) (m : Num.number)
    (Hempty : Js.or_empty (row !! "precio") = EmptyString)
    (Htruthy : Num.truthy m = true) (Hpos : Num.le Num.zero m = true) :
  OldRoute.withinBudget row (Some m) = true /\ withinBudget row (Some m) = false.
Proof.
  unfold OldRoute.withinBudget, withinBudget, OldRoute.price_of, price_of.
  rewrite Hempty, Htruthy. cbn [negb orb].
  assert (Hclean : match row !! "precio" with
                   | Some v => Js.remove OldRoute.not_numeric v
                   | None => EmptyString
                   end = EmptyString).
  { destruct (row !! "precio") as [v|]; [|reflexivity]. simpl in Hempty. subst v. reflexivity. }
  rewrite Hclean. split; [exact Hpos | reflexivity].
Qed.

Lemma old_retrieval_total unit keyword maxPrice w :
  exists text,
    old_retrieval env unit keyword maxPrice w = (Normal text, log (Read (table_of unit)) w)
    /\ (fst (if String.eqb unit "promoselect"
             then OldRoute.searchPromoProducts env keyword maxPrice 3 w
             else OldRoute.searchSuitUpKits env keyword maxPrice 3 w) = Normal [] ->
        text = if String.eqb unit "promoselect"
               then formatProductResults [] else formatKitResults []).
Proof.
  unfold old_retrieval, table_of, OldRoute.searchPromoProducts, OldRoute.searchSuitUpKits, bind.
  destruct (String.eqb unit "promoselect"); rewrite old_search_cases; cbn [fst];
    (eexists; split; [reflexivity|]); intros [= ->]; reflexivity.
Qed.

Lemma old_freeform_cases conversation message w :
  OldRoute.freeform env conversation message w =
  let ask := Dialogue (systemPrompt conversation) message in
  let ctx := context conversation in
  match create env (List.length (trace w)) ask with
  | None => (Throw ApiError, log (Complete ask) w)
  | Some completion =>
      if slots_filled ctx then
        match
          (if String.eqb (Js.or_empty (business_unit ctx)) "promoselect"
           then old_retrieval env "promoselect" (Js.or_empty (descripcion ctx))
                  (Some (budget_of (Js.or_empty (precio ctx))))
           else if String.eqb (Js.or_empty (business_unit ctx)) "suitup"
           then old_retrieval env "suitup" (Js.or_empty (descripcion ctx))
                  (Some (budget_of (Js.or_empty (precio ctx))))
           else ret (reply_content completion)) (log (Complete ask) w)
        with
        | (Normal text, w2) =>
            (Normal (push_message conversation text (current_agent conversation)), w2)
        | (Throw e, w2) => (Throw e, w2)
        end
      else
        (Normal (push_message (with_context conversation (extract_slots ctx message))
                   (reply_content completion) (current_agent conversation)),
         log (Complete ask) w)
  end.
Proof.
  unfold OldRoute.freeform, bind, complete, slots_filled. cbv zeta.
  destruct (create env _ _) as [completion|]; [|reflexivity].
  destruct (_ && _ && _); reflexivity.
Qed.

Lemma old_handle_agrees c message w :
  slots_filled (context c) = false \/ (forall m, message = Some m -> free_form m = false) ->
  OldRoute.handle env c message w = handle env c message w.
Proof.
  intros Hcase. destruct message as [m|]; [|reflexivity].
  cbn [OldRoute.handle handle].
  destruct (Js.includes (Js.toLowerCase m) "promoselect") eqn:E1; [reflexivity|].
  destruct (Js.includes (Js.toLowerCase m) "suitup") eqn:E2; [reflexivity|].
  destruct Hcase as [Hslots|Hsel].
  - rewrite old_freeform_cases, freeform_cases. cbv zeta.
    fold (slots_filled (context c)). rewrite Hslots. reflexivity.
  - specialize (Hsel m eq_refl). unfold free_form in Hsel. rewrite E1, E2 in Hsel.
    discriminate.
Qed.

Lemma old_POST_try_cases req w :
  OldRoute.POST_try env req w =
  let convId := resolved_id env req w in
  let w0 := after_id req w in
  match conversations w !! convId with
  | None =>
      let conversation := new_conversation convId (random env (draws w0)) in
      if greeting (req_message req) then
        (Normal (Json 200 (payload convId
                   (push_message conversation DISPLAY_BUSINESS_SELECTOR "Triage Agent"))),
         put convId (push_message conversation DISPLAY_BUSINESS_SELECTOR "Triage Agent")
           (bump w0))
      else
        match OldRoute.handle env conversation (req_message req) (bump w0) with
        | (Normal conversation', w1) =>
            (Normal (Json 200 (payload convId conversation')), put convId conversation' w1)
        | (Throw e, w1) => (Throw e, w1)
        end
  | Some conversation =>
      match OldRoute.handle env conversation (req_message req) w0 with
      | (Normal conversation', w1) =>
          (Normal (Json 200 (payload convId conversation')), put convId conversation' w1)
      | (Throw e, w1) => (Throw e, w1)
      end
  end.
Proof.
  unfold OldRoute.POST_try, resolved_id, after_id, bind, generateId, conversations_get,
    respond, conversations_set, ret. cbv zeta.
  destruct (Js.truthy_opt (req_conversation_id req)).
  - destruct (conversations w !! _) as [conversation|].
    + destruct (OldRoute.handle env conversation (req_message req) w) as [[c'|e] w1];
        reflexivity.
    + destruct (greeting (req_message req)); [reflexivity|].
      destruct (OldRoute.handle env _ (req_message req) (bump w)) as [[c'|e] w1];
        reflexivity.
  - cbn [conversations bump].
    destruct (conversations w !! _) as [conversation|].
    + destruct (OldRoute.handle env conversation (req_message req) (bump w))
        as [[c'|e] w1]; reflexivity.
    + destruct (greeting (req_message req)); [reflexivity|].
      destruct (OldRoute.handle env _ (req_message req) (bump (bump w))) as [[c'|e] w1];
        reflexivity.
Qed.

Lemma old_POST_cases req w :
  OldRoute.POST env req w =
  if initial_greeting env req w then
    (Normal (Json 200 (payload (resolved_id env req w)
               (push_message (working_conversation env req w)
                  DISPLAY_BUSINESS_SELECTOR "Triage Agent"))),
     put (resolved_id env req w)
       (push_message (working_conversation env req w) DISPLAY_BUSINESS_SELECTOR "Triage Agent")
       (handling_world env req w))
  else
    match OldRoute.handle env (working_conversation env req w) (req_message req)
            (handling_world env req w) with
    | (Normal c', w1) =>
        (Normal (Json 200 (payload (resolved_id env req w) c')),
         put (resolved_id env req w) c' w1)
    | (Throw e, w1) =>
        (Normal (JsonError 500 "Internal server error" (error_message e)), w1)
    end.
Proof.
  unfold OldRoute.POST, try_catch. rewrite old_POST_try_cases. cbv zeta.
  unfold initial_greeting, working_conversation, handling_world.
  destruct (conversations w !! resolved_id env req w) as [stored|].
  - destruct (OldRoute.handle env stored (req_message req) (after_id req w))
      as [[c'|e] w1]; reflexivity.
  - destruct (greeting (req_message req)); [reflexivity|].
    destruct (OldRoute.handle env _ (req_message req) (bump (after_id req w)))
      as [[c'|e] w1]; reflexivity.
Qed.

(** X16. The older route and the route give the same answer and leave the
    same world for every request that does not reach a search: one answered
    by the initial greeting rule, one whose message holds a selector token or
    is missing, and one whose conversation has an empty slot. *)
Theorem old_and_new_route_agree (req : Request) (w : World) :
  initial_greeting env req w = true
  \/ slots_filled (context (working_conversation env req w)) = false
  \/ (forall m, req_message req = Some m -> free_form m = false) ->
  OldRoute.POST env req w = POST env req w.
Proof.
  intros Hcase. rewrite old_POST_cases, POST_cases.
  destruct (initial_greeting env req w); [reflexivity|].
  rewrite old_handle_agrees; [reflexivity|].
  destruct Hcase as [H|H]; [discriminate | exact H].
Qed.

(** X17. The older route with the three slots filled. On the free-form path
    of a conversation whose unit is one of the two units and whose
    description and budget are filled, when the completion call returns, the
    answer has status 200 and its messages are those of the conversation
    followed by one message, under the current agent, that carries the
    formatter's text for the rows of the single search tier (the formatter's
    own apology when the table cannot be read); context, agent and events
    are as they were and the conversation is stored with these messages;
    after the completion call the only event is one read of the unit's
    table. *)
Theorem old_route_reply_is_single_tier
    (req : Request) (w : World) (m unit d p : string) (completion : list (option string)) :
  let conv := working_conversation env req w in
  let ask := Dialogue (systemPrompt conv) m in
  initial_greeting env req w = false ->
  req_message req = Some m ->
  free_form m = true ->
  unit = "promoselect" \/ unit = "suitup" ->
  business_unit (context conv) = Some unit ->
  descripcion (context conv) = Some d -> d <> EmptyString ->
  precio (context conv) = Some p -> p <> EmptyString ->
  create env (List.length (trace w)) ask = Some completion ->
  exists text body w' conv',
    old_retrieval env unit d (Some (budget_of p)) (log (Complete ask) (handling_world env req w))
    = (Normal text,
       log (Read (table_of unit)) (log (Complete ask) (handling_world env req w)))
    /\ OldRoute.POST env req w = (Normal (Json 200 body), w')
    /\ r_conversation_id body = resolved_id env req w
    /\ r_messages body
       = messages conv ++ [ {| msg_content := text; msg_agent := current_agent conv |} ]
    /\ r_current_agent body = current_agent conv
    /\ r_context body = context conv
    /\ r_events body = events conv
    /\ conversations w' !! resolved_id env req w = Some conv'
    /\ messages conv' = r_messages body
    /\ trace w' = trace w ++ [Complete ask; Read (table_of unit)]
    /\ (readFileSync env (table_of unit) = None ->
        text = if String.eqb unit "promoselect"
               then formatProductResults [] else formatKitResults []).
Proof.
  intros conv ask Hg Hm Hf Hunit Hu Hd Hdne Hp Hpne Hcall. subst conv ask.
  destruct (handling_world_facts env req w) as [Ht _].
  destruct (old_retrieval_total unit d (Some (budget_of p))
              (log (Complete (Dialogue (systemPrompt (working_conversation env req w)) m))
                 (handling_world env req w))) as (text & E & Hnone).
  assert (Hmissing : readFileSync env (table_of unit) = None ->
            text = if String.eqb unit "promoselect"
                   then formatProductResults [] else formatKitResults []).
  { intros Hread. apply Hnone.
    unfold table_of, OldRoute.searchPromoProducts, OldRoute.searchSuitUpKits in *.
    destruct (String.eqb unit "promoselect"); rewrite old_search_cases, Hread; reflexivity. }
  assert (Hpost : OldRoute.POST env req w
       = (Normal (Json 200 (payload (resolved_id env req w)
                    (push_message (working_conversation env req w) text
                       (current_agent (working_conversation env req w))))),
          put (resolved_id env req w)
            (push_message (working_conversation env req w) text
               (current_agent (working_conversation env req w)))
            (log (Read (table_of unit))
               (log (Complete (Dialogue (systemPrompt (working_conversation env req w)) m))
                  (handling_world env req w))))).
  { rewrite old_POST_cases, Hg, Hm. cbn [OldRoute.handle].
    unfold free_form in Hf. apply andb_true_iff in Hf as [H1 H2].
    apply negb_true_iff in H1, H2. rewrite H1, H2.
    rewrite old_freeform_cases. cbv zeta. rewrite Ht, Hcall.
    unfold slots_filled. rewrite Hu, Hd, Hp.
    assert (Js.truthy_opt (Some unit) = true) as -> by (destruct Hunit as [->| ->]; reflexivity).
    assert (Js.truthy_opt (Some d) = true) as -> by (destruct d; [congruence | reflexivity]).
    assert (Js.truthy_opt (Some p) = true) as -> by (destruct p; [congruence | reflexivity]).
    cbn [andb Js.or_empty from_option id].
    destruct Hunit as [-> | ->];
      cbn [String.eqb Ascii.eqb Bool.eqb]; rewrite E; reflexivity. }
  exists text. eexists _, _, _. split; [exact E|]. split; [exact Hpost|].
  cbn [payload r_conversation_id r_messages r_current_agent r_context r_events].
  split; [reflexivity|]. split; [reflexivity|]. split; [reflexivity|].
  split; [reflexivity|]. split; [reflexivity|].
  split; [cbn [put conversations]; apply lookup_insert_eq|].
  split; [reflexivity|]. split; [|exact Hmissing].
  cbn [trace put log]. rewrite Ht, <- app_assoc. reflexivity.
Qed.


End OldRouteFacts.

(** X14 on the sample table: "taza" under 100 finds the row without a
    price, which the older tier counts as free. *)
Lemma old_tier_bounded_never_throws_witness :
  exists rows,
    OldRoute.searchPromoProducts (sample_env None) "taza" (Some (Num.of_nat 100)) 3 boot
    = (Normal rows, log (Read "airtable/promo.csv") boot)
    /\ project_product <$> rows = [taza].
Proof.
  destruct (old_tier_bounded_never_throws (sample_env None) "airtable/promo.csv" 100
              ["nombre"; "descripcion"] "taza" (Some (Num.of_nat 100)) 3 boot)
    as (rows & E & _ & Hrows).
  exists rows. split; [exact E|].
  cbn [sample_env readFileSync String.eqb Ascii.eqb Bool.eqb] in Hrows. cbv zeta in Hrows.
  destruct Hrows as [Hrows _]. rewrite Hrows by lia. vm_compute. reflexivity.
Defined.

(** X15 on the sample table: the row without a price, under a ceiling of
    100. *)
Lemma unpriced_row_old_passes_new_drops_witness :
  OldRoute.withinBudget taza_row (Some (Num.of_nat 100)) = true
  /\ withinBudget taza_row (Some (Num.of_nat 100)) = false.
Proof.
  apply unpriced_row_old_passes_new_drops; vm_compute; reflexivity.
Defined.

Lemma old_and_new_route_agree_witness :
  OldRoute.POST (sample_env None) {| req_message := Some "Hola"; req_conversation_id := None |}
    boot
  = POST (sample_env None) {| req_message := Some "Hola"; req_conversation_id := None |} boot.
Proof.
  apply old_and_new_route_agree. left. reflexivity.
Defined.

(** X17 on a conversation with unit, description "playera" and budget "100":
    the next message is answered by the single tier, after one completion
    call and one read, and the answer has one more message than before. *)
Lemma old_route_reply_is_single_tier_witness :
  let env := sample_env (Some [Some "Claro."]) in
  let w := run env
             [ {| req_message := Some "promoselect"; req_conversation_id := Some "c1" |};
               {| req_message := Some "playera"; req_conversation_id := Some "c1" |};
               {| req_message := Some "hasta 100 pesos"; req_conversation_id := Some "c1" |} ]
             boot in
  let req := {| req_message := Some "lo que sea"; req_conversation_id := Some "c1" |} in
  exists body w',
    OldRoute.POST env req w = (Normal (Json 200 body), w')
    /\ List.length (r_messages body) = 4
    /\ trace w'
       = trace w ++ [Complete (Dialogue (systemPrompt (working_conversation env req w))
                                 "lo que sea");
                     Read "airtable/promo.csv"].
Proof.
  cbv zeta.
  destruct (old_route_reply_is_single_tier (sample_env (Some [Some "Claro."]))
              {| req_message := Some "lo que sea"; req_conversation_id := Some "c1" |}
              (run (sample_env (Some [Some "Claro."]))
                 [ {| req_message := Some "promoselect"; req_conversation_id := Some "c1" |};
                   {| req_message := Some "playera"; req_conversation_id := Some "c1" |};
                   {| req_message := Some "hasta 100 pesos";
                      req_conversation_id := Some "c1" |} ] boot)
              "lo que sea" "promoselect" "playera" "100" [Some "Claro."])
    as (text & body & w' & conv' & _ & Hpost & _ & Hmsgs & _ & _ & _ & _ & _ & Htrace & _);
    [ vm_compute; reflexivity | reflexivity | reflexivity | left; reflexivity
    | vm_compute; reflexivity | vm_compute; reflexivity | discriminate
    | vm_compute; reflexivity | discriminate | reflexivity | ].
  exists body, w'. split; [exact Hpost|]. split; [|exact Htrace].
  rewrite Hmsgs, length_app. vm_compute. reflexivity.
Defined.

Section DocumentFacts.

Variable env : Env.

(** X19. [csvToJsonl] does not absorb a failed read: the error goes to its
    caller. When the table is read it gives, in scan order, one document for
    every row of the whole table that has a name, with no bound on the
    lines; every document carries that name and the type tag of its table
    in its metadata. *)
Theorem csvToJsonl_documents (path : string) (type : productType) (w : World) :
  match readFileSync env path with
  | None => csvToJsonl env path type w = (Throw (ENOENT path), log (Read path) w)
  | Some csv =>
      exists docs,
        csvToJsonl env path type w = (Normal docs, log (Read path) w)
        /\ docs = List.map (make_doc type)
                    (List.filter named
                       (table_rows (Csv.headers_of (Js.split Js.LF csv))
                          (drop 1 (Js.split Js.LF csv))))
        /\ Forall (fun doc => exists n,
                     In ("nombre", n) (metadata doc) /\ n <> EmptyString
                     /\ In ("type", match type with
                                    | Promo => "promotional_product"
                                    | SuitUp => "promotional_kit"
                                    end) (metadata doc)) docs
  end.
Proof.
  rewrite csvToJsonl_cases. destruct (readFileSync env path) as [csv|]; [|reflexivity].
  eexists. split; [reflexivity|]. rewrite jsonl_loop_filter. split; [reflexivity|].
  apply Forall_forall. intros doc Hdoc.
  apply list_elem_of_In, in_map_iff in Hdoc as (row & <- & Hrow).
  apply filter_In in Hrow as [_ Hnamed]. unfold named in Hnamed.
  apply truthy_opt_Some in Hnamed as (n & Hn & Hne).
  exists n. split; [|split; [exact Hne|]];
    destruct type; cbn [make_doc metadata]; rewrite ?Hn; cbn; auto 10.
Qed.

End DocumentFacts.
